(** * Offline-first synchronisation engine of the shelfie front end

    A shallow embedding of
      - the offline store          (store/offlineStore: queue, flags, errors),
      - the online API service     (services/onlineApiService: axios calls,
                                    connectivity probe, error classification),
      - the online-first router    (services/onlineFirstService),
      - the service wrappers used by replay (inventoryService, posService,
        userService, utils/apiInterceptor.secureInvoke),
      - the sync service           (services/syncService: reconciliation pass).

    JavaScript effects are modelled with a state-and-exception monad over a
    [World].  Everything the program cannot decide by itself (the platform's
    navigator.onLine flag, what the network answers, what a Tauri command
    answers, Date.now and Math.random) is read from an environment [Env] of
    oracles indexed by a clock that advances at every consultation, so a
    program run is a function of the environment and can be evaluated. *)

From Stdlib Require Import List String Ascii ZArith Bool Lia Arith DecimalString.
Import ListNotations.
Local Open Scope string_scope.
Set Warnings "-register-all".

(* ===================================================================== *)
(** ** JavaScript strings and values                                      *)
(* ===================================================================== *)

(** [String.prototype.split] with a one-character separator. *)
Fixpoint split_acc (sep : ascii) (acc s : string) : list string :=
  match s with
  | EmptyString => [acc]
  | String c r =>
      if Ascii.eqb c sep then acc :: split_acc sep "" r
      else split_acc sep (acc ++ String c "") r
  end.

Definition split (sep : ascii) (s : string) : list string := split_acc sep "" s.

(** [String.prototype.toUpperCase] on ASCII letters (other bytes are kept). *)
Definition upperChar (c : ascii) : ascii :=
  let n := nat_of_ascii c in
  if andb (97 <=? n)%nat (n <=? 122)%nat then ascii_of_nat (n - 32) else c.

Fixpoint toUpperCase (s : string) : string :=
  match s with
  | EmptyString => EmptyString
  | String c r => String (upperChar c) (toUpperCase r)
  end.

(** [String.prototype.includes]. *)
Fixpoint includes (needle hay : string) : bool :=
  if prefix needle hay then true
  else match hay with
       | EmptyString => false
       | String _ r => includes needle r
       end.

(** Decimal rendering of an integer, as a template literal renders it. *)
Definition showZ (z : Z) : string := NilZero.string_of_int (Z.to_int z).

(** JSON-like values.  Numbers are the integers the program handles
    (identifiers, counters, HTTP statuses, timestamps). *)
Inductive JsValue : Type :=
| JUndefined
| JNull
| JBool (b : bool)
| JNum (n : Z)
| JStr (s : string)
| JObj (fields : list (string * JsValue)).

Definition truthy (v : JsValue) : bool :=
  match v with
  | JUndefined | JNull => false
  | JBool b => b
  | JNum n => negb (n =? 0)%Z
  | JStr s => negb (s =? "")
  | JObj _ => true
  end.

(** Rendering inside a template literal. *)
Definition toStr (v : JsValue) : string :=
  match v with
  | JUndefined => "undefined"
  | JNull => "null"
  | JBool true => "true"
  | JBool false => "false"
  | JNum n => showZ n
  | JStr s => s
  | JObj _ => "[object Object]"
  end.

Fixpoint lookupField (k : string) (fs : list (string * JsValue)) : option JsValue :=
  match fs with
  | [] => None
  | (k', v) :: r => if k' =? k then Some v else lookupField k r
  end.

(** Property read [v.k]: [None] is the TypeError of reading a property of
    undefined or null; a missing property reads as undefined. *)
Definition getProp (v : JsValue) (k : string) : option JsValue :=
  match v with
  | JUndefined | JNull => None
  | JObj fs => Some (match lookupField k fs with Some x => x | None => JUndefined end)
  | _ => Some JUndefined
  end.

(** Writing key [k] in an object literal under construction: an existing key
    keeps its position and takes the new value, a new key goes last. *)
Fixpoint objSet (k : string) (v : JsValue) (fs : list (string * JsValue))
  : list (string * JsValue) :=
  match fs with
  | [] => [(k, v)]
  | (k', v') :: r => if k' =? k then (k, v) :: r else (k', v') :: objSet k v r
  end.

(** Object spread [...v] of a value that is an object (or has no own
    enumerable properties: undefined, null, booleans, numbers). *)
Definition spread (v : JsValue) : list (string * JsValue) :=
  match v with
  | JObj fs => fs
  | _ => []
  end.

Definition objSpreadInto (target : list (string * JsValue)) (v : JsValue)
  : list (string * JsValue) :=
  fold_left (fun acc kv => objSet (fst kv) (snd kv) acc) (spread v) target.

(* ===================================================================== *)
(** ** store/offlineStore                                                 *)
(* ===================================================================== *)

Record QueuedOperation : Type := {
  id : string;
  type : string;
  entity : string;
  data : JsValue;
  timestamp : Z;
  retryCount : Z;
  maxRetries : Z
}.

(** [Omit<QueuedOperation, 'id' | 'timestamp' | 'retryCount'>]. *)
Record OperationInput : Type := {
  in_type : string;
  in_entity : string;
  in_data : JsValue;
  in_maxRetries : Z
}.

Record OfflineData : Type := {
  products : list JsValue;
  users : list JsValue;
  suppliers : list JsValue;
  orders : list JsValue;
  movements : list JsValue;
  lastSync : Z
}.

Record OfflineState : Type := {
  isOnline : bool;
  syncQueue : list QueuedOperation;
  offlineData : OfflineData;
  isSyncing : bool;
  lastSyncAttempt : option Z;
  syncErrors : list string
}.

Definition set_isOnline (b : bool) (s : OfflineState) : OfflineState :=
  {| isOnline := b; syncQueue := syncQueue s; offlineData := offlineData s;
     isSyncing := isSyncing s; lastSyncAttempt := lastSyncAttempt s;
     syncErrors := syncErrors s |}.

Definition set_syncQueue (q : list QueuedOperation) (s : OfflineState) : OfflineState :=
  {| isOnline := isOnline s; syncQueue := q; offlineData := offlineData s;
     isSyncing := isSyncing s; lastSyncAttempt := lastSyncAttempt s;
     syncErrors := syncErrors s |}.

Definition set_offlineData (d : OfflineData) (s : OfflineState) : OfflineState :=
  {| isOnline := isOnline s; syncQueue := syncQueue s; offlineData := d;
     isSyncing := isSyncing s; lastSyncAttempt := lastSyncAttempt s;
     syncErrors := syncErrors s |}.

Definition set_syncErrors (e : list string) (s : OfflineState) : OfflineState :=
  {| isOnline := isOnline s; syncQueue := syncQueue s; offlineData := offlineData s;
     isSyncing := isSyncing s; lastSyncAttempt := lastSyncAttempt s;
     syncErrors := e |}.

(** The store as the module creates it ([navigator.onLine] is read then). *)
Definition initialState (online : bool) : OfflineState :=
  {| isOnline := online; syncQueue := [];
     offlineData := {| products := []; users := []; suppliers := [];
                       orders := []; movements := []; lastSync := 0 |};
     isSyncing := false; lastSyncAttempt := None; syncErrors := [] |}.

(** [maxRetries: operation.maxRetries || 3]. *)
Definition defaultMaxRetries (n : Z) : Z := if (n =? 0)%Z then 3%Z else n.

(** The object [addToQueue] builds, given the two [Date.now()] readings and
    the [Math.random().toString(36).substr(2, 9)] string. *)
Definition newOperation (operation : OperationInput) (now1 : Z) (rnd : string) (now2 : Z)
  : QueuedOperation :=
  {| id := showZ now1 ++ "-" ++ rnd;
     type := in_type operation;
     entity := in_entity operation;
     data := in_data operation;
     timestamp := now2;
     retryCount := 0;
     maxRetries := defaultMaxRetries (in_maxRetries operation) |}.

Definition enqueue (op : QueuedOperation) (s : OfflineState) : OfflineState :=
  set_syncQueue (syncQueue s ++ [op]) s.

(** [syncQueue.filter(op => op.id !== operationId)] *)
Definition withoutId (operationId : string) (q : list QueuedOperation)
  : list QueuedOperation :=
  filter (fun op => negb (id op =? operationId)) q.

Definition removeFromQueue (operationId : string) (s : OfflineState) : OfflineState :=
  set_syncQueue (withoutId operationId (syncQueue s)) s.

Definition bumpRetry (op : QueuedOperation) : QueuedOperation :=
  {| id := id op; type := type op; entity := entity op; data := data op;
     timestamp := timestamp op; retryCount := (retryCount op + 1)%Z;
     maxRetries := maxRetries op |}.

(** [syncQueue.map(op => op.id === operationId ? {...op, retryCount: op.retryCount + 1} : op)] *)
Definition withRetryBumped (operationId : string) (q : list QueuedOperation)
  : list QueuedOperation :=
  map (fun op => if id op =? operationId then bumpRetry op else op) q.

Definition incrementRetryCount (operationId : string) (s : OfflineState) : OfflineState :=
  set_syncQueue (withRetryBumped operationId (syncQueue s)) s.

Definition addSyncError (error : string) (s : OfflineState) : OfflineState :=
  set_syncErrors (syncErrors s ++ [error]) s.

Definition clearSyncErrors (s : OfflineState) : OfflineState := set_syncErrors [] s.

Definition clearQueue (s : OfflineState) : OfflineState := set_syncQueue [] s.

(** [setSyncing]: [Date.now()] is read only when the flag is raised. *)
Definition setSyncingAt (b : bool) (now : Z) (s : OfflineState) : OfflineState :=
  {| isOnline := isOnline s; syncQueue := syncQueue s; offlineData := offlineData s;
     isSyncing := b;
     lastSyncAttempt := if b then Some now else lastSyncAttempt s;
     syncErrors := syncErrors s |}.

(** Keys of [OfflineData] that hold entity arrays. *)
Inductive OfflineKey : Type := KProducts | KUsers | KSuppliers | KOrders | KMovements.

Definition updateOfflineData (k : OfflineKey) (d : list JsValue) (s : OfflineState)
  : OfflineState :=
  let o := offlineData s in
  set_offlineData
    {| products := match k with KProducts => d | _ => products o end;
       users := match k with KUsers => d | _ => users o end;
       suppliers := match k with KSuppliers => d | _ => suppliers o end;
       orders := match k with KOrders => d | _ => orders o end;
       movements := match k with KMovements => d | _ => movements o end;
       lastSync := lastSync o |} s.

Definition updateLastSyncAt (now : Z) (s : OfflineState) : OfflineState :=
  let o := offlineData s in
  set_offlineData
    {| products := products o; users := users o; suppliers := suppliers o;
       orders := orders o; movements := movements o; lastSync := now |} s.

(** What the [persist] middleware writes ([partialize]) and what a restart
    therefore restores over the initial state. *)
Record Persisted : Type := {
  p_syncQueue : list QueuedOperation;
  p_offlineData : OfflineData;
  p_syncErrors : list string
}.

Definition partialize (s : OfflineState) : Persisted :=
  {| p_syncQueue := syncQueue s; p_offlineData := offlineData s;
     p_syncErrors := syncErrors s |}.

Definition rehydrate (online : bool) (p : Persisted) : OfflineState :=
  {| isOnline := online; syncQueue := p_syncQueue p; offlineData := p_offlineData p;
     isSyncing := false; lastSyncAttempt := None; syncErrors := p_syncErrors p |}.

Definition ids (q : list QueuedOperation) : list string := map id q.

(* ===================================================================== *)
(** ** Errors, HTTP and the environment                                   *)
(* ===================================================================== *)

Record AxiosResponse : Type := { status : Z; body : JsValue }.

(** The fields of an [AxiosError] that the program reads. *)
Record AxiosError : Type := {
  code : option string;
  message : string;
  response : option AxiosResponse
}.

(** Values a JavaScript [throw] or a rejected promise carries here. *)
Inductive Thrown : Type :=
| ThrownAxios (e : AxiosError)
| NetworkError (msg : string)
| ApiError (st : Z) (msg : string)
| Rejected (msg : option string)  (* a rejected Tauri [invoke]; its [message], if it has one *)
| JsError (msg : string)          (* [new Error(msg)] *)
| TypeError.                      (* property read or method call on undefined / null *)

Inductive Method : Type := GET | POST | PUT | DELETE.

Record HttpRequest : Type := {
  method : Method;
  url : string;
  payload : JsValue;
  timeout : Z;
  authorization : option string
}.

(** What the transport does with a request: a response with an HTTP status,
    or no response at all (with axios's error code, if any). *)
Inductive TransportOutcome : Type :=
| Responded (st : Z) (d : JsValue)
| Failed (c : option string) (msg : string).

Inductive LocalOutcome : Type :=
| LocalOk (v : JsValue)
| LocalErr (msg : option string).

Record Env : Type := {
  navigatorOnLine : nat -> bool;
  transport : nat -> HttpRequest -> TransportOutcome;
  tauriInvoke : nat -> string -> JsValue -> LocalOutcome;
  dateNow : nat -> Z;
  mathRandom : nat -> string;   (* Math.random().toString(36).substr(2, 9) *)
  baseURL : string
}.

(** Callbacks handed to [setTimeout] and not yet run. *)
Inductive Timeout : Type :=
| DispatchTriggerSync   (* offlineStore.setOnlineStatus, 1000 ms *)
| CallPerformSync.      (* syncService.queueOperation, 100 ms *)

(** Lines the sync service writes to the console for an operation. *)
Inductive SyncLog : Type :=
| LogStarting (n : nat)
| LogSynced (opId : string)
| LogFailed (opId : string)
| LogExceeded (opId : string)
| LogCompleted.

(** Observable effects, in the order they happen.  [EvReplay] marks the entry
    of [processOperation]. *)
Inductive Event : Type :=
| EvHttp (req : HttpRequest)
| EvInvoke (command : string) (args : JsValue)
| EvEnqueue (op : QueuedOperation)
| EvToastSuccess (msg : string)
| EvToastError (msg : string)
| EvRedirect (href : string)
| EvReplay (opId : string)
| EvSync (l : SyncLog).

Record World : Type := {
  store : OfflineState;          (* useOfflineStore *)
  authToken : option string;     (* useAuthStore.authToken *)
  syncInterval : bool;           (* SyncService.syncInterval is set *)
  isInitialized : bool;          (* SyncService.isInitialized; its listeners are registered *)
  timeouts : list Timeout;
  clock : nat;
  trace : list Event
}.

Definition set_store (s : OfflineState) (w : World) : World :=
  {| store := s; authToken := authToken w; syncInterval := syncInterval w;
     isInitialized := isInitialized w; timeouts := timeouts w; clock := clock w;
     trace := trace w |}.

Definition set_authToken (t : option string) (w : World) : World :=
  {| store := store w; authToken := t; syncInterval := syncInterval w;
     isInitialized := isInitialized w; timeouts := timeouts w; clock := clock w;
     trace := trace w |}.

Definition set_syncInterval (b : bool) (w : World) : World :=
  {| store := store w; authToken := authToken w; syncInterval := b;
     isInitialized := isInitialized w; timeouts := timeouts w; clock := clock w;
     trace := trace w |}.

Definition set_isInitialized (b : bool) (w : World) : World :=
  {| store := store w; authToken := authToken w; syncInterval := syncInterval w;
     isInitialized := b; timeouts := timeouts w; clock := clock w;
     trace := trace w |}.

Definition set_timeouts (t : list Timeout) (w : World) : World :=
  {| store := store w; authToken := authToken w; syncInterval := syncInterval w;
     isInitialized := isInitialized w; timeouts := t; clock := clock w;
     trace := trace w |}.

Definition set_clock (c : nat) (w : World) : World :=
  {| store := store w; authToken := authToken w; syncInterval := syncInterval w;
     isInitialized := isInitialized w; timeouts := timeouts w; clock := c;
     trace := trace w |}.

Definition emit (e : Event) (w : World) : World :=
  {| store := store w; authToken := authToken w; syncInterval := syncInterval w;
     isInitialized := isInitialized w; timeouts := timeouts w; clock := clock w;
     trace := trace w ++ [e] |}.

(* ===================================================================== *)
(** ** The effect monad                                                   *)
(* ===================================================================== *)

Inductive Outcome (A : Type) : Type :=
| Ok (a : A)
| Throw (e : Thrown).

Arguments Ok {A} a.
Arguments Throw {A} e.

Definition M (A : Type) : Type := World -> World * Outcome A.

Definition ret {A} (a : A) : M A := fun w => (w, Ok a).

Definition throw {A} (e : Thrown) : M A := fun w => (w, Throw e).

Definition bind {A B} (m : M A) (k : A -> M B) : M B :=
  fun w => match m w with
           | (w', Ok a) => k a w'
           | (w', Throw e) => (w', Throw e)
           end.

(** [try { m } catch (e) { h e }]: effects of [m] before the throw stay. *)
Definition tryCatch {A} (m : M A) (h : Thrown -> M A) : M A :=
  fun w => match m w with
           | (w', Ok a) => (w', Ok a)
           | (w', Throw e) => h e w'
           end.

Definition getWorld : M World := fun w => (w, Ok w).

Definition modify (f : World -> World) : M unit := fun w => (f w, Ok tt).

Definition modifyStore (f : OfflineState -> OfflineState) : M unit :=
  modify (fun w => set_store (f (store w)) w).

Definition getStore : M OfflineState := fun w => (w, Ok (store w)).

Definition log (e : Event) : M unit := modify (emit e).

(** Reading the clock and advancing it: one consultation of the environment. *)
Definition tick : M nat := fun w => (set_clock (S (clock w)) w, Ok (clock w)).

Declare Scope monad_scope.
Delimit Scope monad_scope with monad.
Notation "x <- m ;; k" := (bind m (fun x => k))
  (at level 61, m at next level, right associativity) : monad_scope.
Notation "m ;;; k" := (bind m (fun _ => k))
  (at level 61, right associativity) : monad_scope.
Local Open Scope monad_scope.

Definition exec {A} (m : M A) (w : World) : World := fst (m w).
Definition result {A} (m : M A) (w : World) : Outcome A := snd (m w).

(* ===================================================================== *)
(** ** Primitives: environment reads, store actions that read the clock   *)
(* ===================================================================== *)

Section Primitives.
Variable E : Env.

Definition now : M Z := (t <- tick ;; ret (dateNow E t)).

Definition random36 : M string := (t <- tick ;; ret (mathRandom E t)).

Definition readNavigatorOnLine : M bool := (t <- tick ;; ret (navigatorOnLine E t)).

(** Tauri's [invoke]: the call is recorded, then answered by the environment. *)
Definition invoke (command : string) (args : JsValue) : M JsValue :=
  (log (EvInvoke command args) ;;;
   t <- tick ;;
   match tauriInvoke E t command args with
   | LocalOk v => ret v
   | LocalErr m => throw (Rejected m)
   end).

(** offlineStore.addToQueue *)
Definition addToQueue (operation : OperationInput) : M unit :=
  (n1 <- now ;;
   r <- random36 ;;
   n2 <- now ;;
   let op := newOperation operation n1 r n2 in
   modifyStore (enqueue op) ;;;
   log (EvEnqueue op)).

(** offlineStore.setSyncing *)
Definition setSyncing (b : bool) : M unit :=
  if b then (n <- now ;; modifyStore (setSyncingAt true n))
  else modifyStore (setSyncingAt false 0).

(** offlineStore.setOnlineStatus: coming online with a non-empty queue
    schedules a [triggerSync] event one second later. *)
Definition setOnlineStatus (b : bool) : M unit :=
  (modifyStore (set_isOnline b) ;;;
   s <- getStore ;;
   if andb b (0 <? List.length (syncQueue s))%nat
   then modify (fun w => set_timeouts (timeouts w ++ [DispatchTriggerSync]) w)
   else ret tt).

(** offlineStore.updateLastSync *)
Definition updateLastSync : M unit := (n <- now ;; modifyStore (updateLastSyncAt n)).

(** authStore.logout, as far as the token goes. *)
Definition logout : M unit := modify (set_authToken None).

End Primitives.

(* ===================================================================== *)
(** ** services/onlineApiService                                          *)
(* ===================================================================== *)

Module OnlineApiService.

(** axios resolves a response when its status passes [validateStatus] (or is
    0) and rejects with an [AxiosError] otherwise; without a response the
    error carries the transport's code and no [response]. *)
Definition badStatusCode (st : Z) : option string :=
  if andb (400 <=? st)%Z (st <? 500)%Z then Some "ERR_BAD_REQUEST"
  else if andb (500 <=? st)%Z (st <? 600)%Z then Some "ERR_BAD_RESPONSE"
  else None.

Definition settle (validateStatus : Z -> bool) (o : TransportOutcome)
  : AxiosResponse + AxiosError :=
  match o with
  | Responded st d =>
      if orb (st =? 0)%Z (validateStatus st)
      then inl {| status := st; body := d |}
      else inr {| code := badStatusCode st;
                  message := "Request failed with status code " ++ showZ st;
                  response := Some {| status := st; body := d |} |}
  | Failed c msg => inr {| code := c; message := msg; response := None |}
  end.

(** [validateStatus: (status) => status >= 200 && status < 300] *)
Definition successStatus (st : Z) : bool := andb (200 <=? st)%Z (st <? 300)%Z.

(** [if (authToken) headers.Authorization = `Bearer ${authToken}`] *)
Definition bearer (tok : option string) : option string :=
  match tok with
  | Some t => if t =? "" then None else Some ("Bearer " ++ t)
  | None => None
  end.

Definition codeIs (c : option string) (s : string) : bool :=
  match c with
  | Some x => x =? s
  | None => false
  end.

Definition hasResponse (error : AxiosError) : bool :=
  match response error with
  | Some _ => true
  | None => false
  end.

(** The condition [handleError] tests. *)
Definition networkCondition (error : AxiosError) : bool :=
  orb (codeIs (code error) "ECONNREFUSED")
  (orb (codeIs (code error) "ENOTFOUND")
  (orb (codeIs (code error) "ECONNABORTED")
       (negb (hasResponse error)))).

(** [handleError] always throws; this is what it throws. *)
Definition handleError (error : AxiosError) : Thrown :=
  if networkCondition error then NetworkError (message error)
  else
    ApiError
      (match response error with
       | Some r => if (status r =? 0)%Z then 500%Z else status r
       | None => 500%Z
       end)
      (match response error with
       | Some r =>
           match getProp (body r) "message" with
           | Some m => if truthy m then toStr m else message error
           | None => message error
           end
       | None => message error
       end).

Definition isNetworkError (error : Thrown) : bool :=
  match error with
  | NetworkError _ => true
  | _ => false
  end.

Definition isApiError (error : Thrown) : bool :=
  match error with
  | ApiError _ _ => true
  | _ => false
  end.

(** What [handleError(error as AxiosError)] reads of a caught value. *)
Definition asAxiosError (t : Thrown) : AxiosError :=
  match t with
  | ThrownAxios e => e
  | NetworkError m | ApiError _ m | JsError m =>
      {| code := None; message := m; response := None |}
  | Rejected (Some m) => {| code := None; message := m; response := None |}
  | Rejected None | TypeError => {| code := None; message := ""; response := None |}
  end.

Definition isAuthStatus (error : AxiosError) : bool :=
  match response error with
  | Some r => orb (status r =? 401)%Z (status r =? 403)%Z
  | None => false
  end.

Section WithEnv.
Variable E : Env.

(** One axios call: recorded, then answered by the environment. *)
Definition axiosSend (req : HttpRequest) (validateStatus : Z -> bool)
  : M (AxiosResponse + AxiosError) :=
  (log (EvHttp req) ;;;
   t <- tick ;;
   ret (settle validateStatus (transport E t req))).

(** A call through [this.client]: the request interceptor adds the bearer
    token, the response interceptor logs out on 401 / 403 and rejects. *)
Definition clientRequest (m : Method) (endpoint : string) (d : JsValue)
    (tmo : Z) (validateStatus : Z -> bool) : M AxiosResponse :=
  (w <- getWorld ;;
   r <- axiosSend {| method := m; url := baseURL E ++ endpoint; payload := d;
                     timeout := tmo; authorization := bearer (authToken w) |}
                  validateStatus ;;
   match r with
   | inl resp => ret resp
   | inr e =>
       (if isAuthStatus e then logout else ret tt) ;;;
       throw (ThrownAxios e)
   end).

(** [validateStatus: (status) => status < 500] of the probe. *)
Definition probeStatus (st : Z) : bool := (st <? 500)%Z.

Definition checkConnectivity : M bool :=
  tryCatch
    (resp <- clientRequest GET "/auth/me" JUndefined 5000 probeStatus ;;
     ret (status resp <? 500)%Z)
    (fun _ => ret false).

(** [get] calls axios directly, with the headers built by hand. *)
Definition get (endpoint : string) : M JsValue :=
  (w <- getWorld ;;
   r <- axiosSend {| method := GET; url := baseURL E ++ endpoint; payload := JUndefined;
                     timeout := 10000; authorization := bearer (authToken w) |}
                  successStatus ;;
   match r with
   | inl resp => ret (body resp)
   | inr e => throw (handleError e)
   end).

Definition post (endpoint : string) (d : JsValue) : M JsValue :=
  tryCatch
    (resp <- clientRequest POST endpoint d 10000 successStatus ;; ret (body resp))
    (fun error => throw (handleError (asAxiosError error))).

Definition put (endpoint : string) (d : JsValue) : M JsValue :=
  tryCatch
    (resp <- clientRequest PUT endpoint d 10000 successStatus ;; ret (body resp))
    (fun error => throw (handleError (asAxiosError error))).

Definition delete (endpoint : string) : M JsValue :=
  tryCatch
    (resp <- clientRequest DELETE endpoint JUndefined 10000 successStatus ;; ret (body resp))
    (fun error => throw (handleError (asAxiosError error))).

End WithEnv.
End OnlineApiService.

(** Property read that throws a TypeError on undefined / null. *)
Definition prop (v : JsValue) (k : string) : M JsValue :=
  match getProp v k with
  | Some x => ret x
  | None => throw TypeError
  end.

(* ===================================================================== *)
(** ** services/onlineFirstService                                        *)
(* ===================================================================== *)

Module OnlineFirstService.

Fixpoint assoc (k : string) (m : list (string * string)) : option string :=
  match m with
  | [] => None
  | (k', v) :: r => if k' =? k then Some v else assoc k r
  end.

Definition entityMap : list (string * string) :=
  [("product", "product"); ("user", "user"); ("order", "order");
   ("supplier", "supplier"); ("movement", "movement")].

Definition typeMap : list (string * string) :=
  [("create", "CREATE"); ("update", "UPDATE"); ("delete", "DELETE")].

(** [m[k] || fallback] on the maps above (own string-valued keys; names that
    a plain object inherits, such as "constructor", are not operation types
    any caller passes). *)
Definition lookupOr (m : list (string * string)) (k fallback : string) : string :=
  match assoc k m with
  | Some v => if v =? "" then fallback else v
  | None => fallback
  end.

(** The [data] a queued operation carries. *)
Definition queuedData (endpoint method : string) (d : JsValue) : JsValue :=
  JObj [("endpoint", JStr endpoint); ("method", JStr method); ("payload", d)].

Section WithEnv.
Variable E : Env.

(** [navigator.onLine && await onlineApiService.checkConnectivity()] *)
Definition isOnline : M bool :=
  (b <- readNavigatorOnLine E ;;
   if b then OnlineApiService.checkConnectivity E else ret false).

(** The body only writes to the console. *)
Definition updateLocalData (command : string) (d : JsValue) : M unit := ret tt.

(** [operationType.split('_')[1]] is undefined when there is no underscore,
    and [type.toUpperCase()] then throws a TypeError. *)
Definition addToSyncQueue (operationType endpoint method : string) (d : JsValue) : M unit :=
  let parts := split "_" operationType in
  let entity := nth 0 parts "" in
  match nth_error parts 1 with
  | None => throw TypeError
  | Some t =>
      addToQueue E {| in_type := lookupOr typeMap t (toUpperCase t);
                      in_entity := lookupOr entityMap entity entity;
                      in_data := queuedData endpoint method d;
                      in_maxRetries := 5 |}
  end.

Definition createOfflineAndQueue (d : JsValue) (endpoint fallbackCommand operationType : string)
  : M JsValue :=
  (res <- invoke E fallbackCommand d ;;
   addToSyncQueue operationType endpoint "POST" d ;;;
   log (EvToastSuccess "Created offline. Will sync when online.") ;;;
   ret res).

Definition updateOfflineAndQueue (d : JsValue) (endpoint fallbackCommand : string)
    (fallbackArgs : JsValue) (operationType : string) : M JsValue :=
  (res <- invoke E fallbackCommand fallbackArgs ;;
   addToSyncQueue operationType endpoint "PUT" d ;;;
   log (EvToastSuccess "Updated offline. Will sync when online.") ;;;
   ret res).

Definition deleteOfflineAndQueue (endpoint fallbackCommand : string)
    (fallbackArgs : JsValue) (operationType : string) : M JsValue :=
  (res <- invoke E fallbackCommand fallbackArgs ;;
   addToSyncQueue operationType endpoint "DELETE" (JObj []) ;;;
   log (EvToastSuccess "Deleted offline. Will sync when online.") ;;;
   ret res).

Definition get (endpoint fallbackCommand : string) (fallbackArgs : JsValue) : M JsValue :=
  (online <- isOnline ;;
   if online then
     tryCatch
       (res <- OnlineApiService.get E endpoint ;;
        updateLocalData fallbackCommand res ;;;
        ret res)
       (fun error =>
          if OnlineApiService.isNetworkError error
          then invoke E fallbackCommand fallbackArgs
          else throw error)
   else invoke E fallbackCommand fallbackArgs).

Definition create (endpoint : string) (d : JsValue) (fallbackCommand operationType : string)
  : M JsValue :=
  (online <- isOnline ;;
   if online then
     tryCatch
       (res <- OnlineApiService.post E endpoint d ;;
        updateLocalData fallbackCommand res ;;;
        ret res)
       (fun error =>
          if OnlineApiService.isNetworkError error
          then createOfflineAndQueue d endpoint fallbackCommand operationType
          else throw error)
   else createOfflineAndQueue d endpoint fallbackCommand operationType).

Definition update (endpoint : string) (d : JsValue) (fallbackCommand : string)
    (fallbackArgs : JsValue) (operationType : string) : M JsValue :=
  (online <- isOnline ;;
   if online then
     tryCatch
       (res <- OnlineApiService.put E endpoint d ;;
        updateLocalData fallbackCommand res ;;;
        ret res)
       (fun error =>
          if OnlineApiService.isNetworkError error
          then updateOfflineAndQueue d endpoint fallbackCommand fallbackArgs operationType
          else throw error)
   else updateOfflineAndQueue d endpoint fallbackCommand fallbackArgs operationType).

(** The local removal sits inside the [try]: if it rejects, the rejection is
    caught, is no network error, and is thrown again. *)
Definition delete (endpoint fallbackCommand : string) (fallbackArgs : JsValue)
    (operationType : string) : M JsValue :=
  (online <- isOnline ;;
   if online then
     tryCatch
       (res <- OnlineApiService.delete E endpoint ;;
        invoke E fallbackCommand fallbackArgs ;;;
        ret res)
       (fun error =>
          if OnlineApiService.isNetworkError error
          then deleteOfflineAndQueue endpoint fallbackCommand fallbackArgs operationType
          else throw error)
   else deleteOfflineAndQueue endpoint fallbackCommand fallbackArgs operationType).

(** *** Entity facades ([products], [users], [orders], [salesReports], [suppliers]) *)

Definition withId (i d : JsValue) : JsValue := JObj (objSpreadInto [("id", i)] d).

Definition products_getAll : M JsValue := get "/inventory/products" "get_products" JUndefined.
Definition products_getById (i : JsValue) : M JsValue :=
  get ("/inventory/products/" ++ toStr i) "get_product" (JObj [("id", i)]).
Definition products_getBySku (sku : JsValue) : M JsValue :=
  get ("/inventory/products/sku/" ++ toStr sku) "get_product_by_sku" (JObj [("sku", sku)]).
Definition products_create (d : JsValue) : M JsValue :=
  create "/inventory/products" d "create_product" "product_create".
Definition products_update (i d : JsValue) : M JsValue :=
  update ("/inventory/products/" ++ toStr i) d "update_product" (withId i d) "product_update".
Definition products_delete (i : JsValue) : M JsValue :=
  delete ("/inventory/products/" ++ toStr i) "delete_product" (JObj [("id", i)]) "product_delete".
Definition products_updateStock (i stockData : JsValue) : M JsValue :=
  update ("/inventory/products/" ++ toStr i ++ "/stock") stockData "update_stock"
         (JObj [("productId", i); ("stockData", stockData)]) "product_stock_update".

Definition users_getAll : M JsValue := get "/users" "get_users" JUndefined.
Definition users_getById (i : JsValue) : M JsValue :=
  get ("/users/" ++ toStr i) "get_user" (JObj [("id", i)]).
Definition users_create (d : JsValue) : M JsValue :=
  create "/users" d "create_user" "user_create".
Definition users_update (i d : JsValue) : M JsValue :=
  update ("/users/" ++ toStr i) d "update_user" (withId i d) "user_update".
Definition users_delete (i : JsValue) : M JsValue :=
  delete ("/users/" ++ toStr i) "delete_user" (JObj [("id", i)]) "user_delete".

Definition orders_getAll : M JsValue := get "/sales/orders" "get_recent_orders" JUndefined.
Definition orders_getRecent (limit : JsValue) : M JsValue :=
  get ("/sales/orders?limit=" ++ toStr limit) "get_recent_orders" (JObj [("limit", limit)]).
Definition orders_getById (i : JsValue) : M JsValue :=
  get ("/sales/orders/" ++ toStr i) "get_order" (JObj [("id", i)]).
Definition orders_create (d : JsValue) : M JsValue :=
  create "/sales/orders" d "create_order" "order_create".
Definition orders_update (i d : JsValue) : M JsValue :=
  update ("/sales/orders/" ++ toStr i) d "update_order" (withId i d) "order_update".
Definition orders_complete (i : JsValue) : M JsValue :=
  create ("/sales/orders/" ++ toStr i ++ "/complete") (JObj []) "complete_order" "order_complete".
Definition orders_cancel (i : JsValue) : M JsValue :=
  create ("/sales/orders/" ++ toStr i ++ "/cancel") (JObj []) "cancel_order" "order_cancel".
Definition orders_refund (i : JsValue) : M JsValue :=
  create ("/sales/orders/" ++ toStr i ++ "/refund") (JObj []) "refund_order" "order_refund".

Definition salesReports_generateSalesReport (d : JsValue) : M JsValue :=
  create "/sales/reports/sales" d "get_sales_report" "sales_report".
Definition salesReports_getDailySales : M JsValue :=
  get "/sales/reports/daily-sales" "get_daily_sales" JUndefined.

Definition suppliers_getAll : M JsValue := get "/inventory/suppliers" "get_suppliers" JUndefined.
Definition suppliers_getById (i : JsValue) : M JsValue :=
  get ("/inventory/suppliers/" ++ toStr i) "get_supplier" (JObj [("id", i)]).
Definition suppliers_create (d : JsValue) : M JsValue :=
  create "/inventory/suppliers" d "create_supplier" "supplier_create".
Definition suppliers_update (i d : JsValue) : M JsValue :=
  update ("/inventory/suppliers/" ++ toStr i) d "update_supplier" (withId i d) "supplier_update".
Definition suppliers_delete (i : JsValue) : M JsValue :=
  delete ("/inventory/suppliers/" ++ toStr i) "delete_supplier" (JObj [("id", i)]) "supplier_delete".

End WithEnv.
End OnlineFirstService.

(* ===================================================================== *)
(** ** utils/apiInterceptor, inventoryService, posService, userService    *)
(* ===================================================================== *)

Module ApiInterceptor.

Definition thrownMessage (t : Thrown) : option string :=
  match t with
  | ThrownAxios e => Some (message e)
  | NetworkError m | ApiError _ m | JsError m => Some m
  | Rejected m => m
  | TypeError => None
  end.

Definition authMessage (m : string) : bool :=
  orb (includes "Invalid token" m)
  (orb (includes "Token expired" m)
  (orb (includes "Authentication failed" m)
  (orb (includes "Unauthorized" m)
       (includes "Permission denied" m)))).

Definition isAuthRejection (t : Thrown) : bool :=
  match thrownMessage t with
  | Some m => authMessage m
  | None => false
  end.

Section WithEnv.
Variable E : Env.

Definition secureInvoke (command : string) (args : JsValue) : M JsValue :=
  (w <- getWorld ;;
   match OnlineApiService.bearer (authToken w), authToken w with
   | Some _, Some tok =>
       tryCatch
         (invoke E command (JObj (objSet "token" (JStr tok) (spread args))))
         (fun error =>
            if isAuthRejection error then
              log (EvToastError "Your session has expired. Please log in again.") ;;;
              logout ;;;
              log (EvRedirect "/login") ;;;
              throw (JsError "Authentication failed")
            else throw error)
   | _, _ => throw (JsError "No authentication token available")
   end).

End WithEnv.
End ApiInterceptor.

Module InventoryService.
Section WithEnv.
Variable E : Env.

Definition createProduct (d : JsValue) : M JsValue := OnlineFirstService.products_create E d.
Definition updateProduct (i d : JsValue) : M JsValue := OnlineFirstService.products_update E i d.
Definition deleteProduct (i : JsValue) : M JsValue := OnlineFirstService.products_delete E i.
Definition updateStock (i d : JsValue) : M JsValue := OnlineFirstService.products_updateStock E i d.
Definition createSupplier (d : JsValue) : M JsValue := OnlineFirstService.suppliers_create E d.
Definition updateSupplier (i d : JsValue) : M JsValue := OnlineFirstService.suppliers_update E i d.
Definition deleteSupplier (i : JsValue) : M JsValue := OnlineFirstService.suppliers_delete E i.

End WithEnv.
End InventoryService.

Module PosService.
Section WithEnv.
Variable E : Env.

(** [typeof response === 'number']: a bare identifier is fetched in full. *)
Definition createOrder (orderData : JsValue) : M JsValue :=
  (resp <- OnlineFirstService.orders_create E orderData ;;
   match resp with
   | JNum _ => OnlineFirstService.orders_getById E resp
   | _ => ret resp
   end).

Definition completeOrder (i : JsValue) : M JsValue := OnlineFirstService.orders_complete E i.
Definition cancelOrder (i : JsValue) : M unit := (OnlineFirstService.orders_cancel E i ;;; ret tt).
Definition refundOrder (i : JsValue) : M unit := (OnlineFirstService.orders_refund E i ;;; ret tt).

End WithEnv.
End PosService.

Module UserService.

(** [v ?? true] *)
Definition orTrue (v : JsValue) : JsValue :=
  match v with
  | JUndefined | JNull => JBool true
  | _ => v
  end.

Section WithEnv.
Variable E : Env.

Definition createUser (userData : JsValue) : M JsValue :=
  tryCatch
    (email <- prop userData "email" ;;
     full_name <- prop userData "full_name" ;;
     role <- prop userData "role" ;;
     password <- prop userData "password" ;;
     is_active <- prop userData "is_active" ;;
     OnlineFirstService.users_create E
       (JObj [("email", email); ("full_name", full_name); ("role", role);
              ("password", password); ("is_active", orTrue is_active)]))
    (fun _ =>
       email <- prop userData "email" ;;
       full_name <- prop userData "full_name" ;;
       role <- prop userData "role" ;;
       password <- prop userData "password" ;;
       userId <- ApiInterceptor.secureInvoke E "create_user"
                   (JObj [("email", email); ("fullName", full_name); ("role", role);
                          ("password", password)]) ;;
       is_active <- prop userData "is_active" ;;
       created <- now E ;;
       updated <- now E ;;
       ret (JObj [("id", userId); ("email", email); ("full_name", full_name);
                  ("role", role); ("is_active", orTrue is_active);
                  ("is_superuser", JBool false); ("password_hash", JStr "");
                  ("created_at", JNum created); ("updated_at", JNum updated)])).

Definition updateUser (userId userData : JsValue) : M JsValue :=
  (email <- prop userData "email" ;;
   fullName <- prop userData "fullName" ;;
   role <- prop userData "role" ;;
   ApiInterceptor.secureInvoke E "update_user"
     (JObj [("userId", userId); ("email", email); ("fullName", fullName); ("role", role)])).

Definition deleteUser (userId : JsValue) : M JsValue :=
  ApiInterceptor.secureInvoke E "delete_user" (JObj [("userId", userId)]).

End WithEnv.
End UserService.

(* ===================================================================== *)
(** ** services/syncService                                               *)
(* ===================================================================== *)

Module SyncService.
Section WithEnv.
Variable E : Env.

Definition syncProduct (t : string) (d : JsValue) : M unit :=
  if t =? "CREATE" then (InventoryService.createProduct E d ;;; ret tt)
  else if t =? "UPDATE" then
    (i <- prop d "id" ;; InventoryService.updateProduct E i d ;;; ret tt)
  else if t =? "DELETE" then
    (i <- prop d "id" ;; InventoryService.deleteProduct E i ;;; ret tt)
  else ret tt.

Definition syncUser (t : string) (d : JsValue) : M unit :=
  if t =? "CREATE" then (UserService.createUser E d ;;; ret tt)
  else if t =? "UPDATE" then
    (i <- prop d "id" ;; UserService.updateUser E i d ;;; ret tt)
  else if t =? "DELETE" then
    (i <- prop d "id" ;; UserService.deleteUser E i ;;; ret tt)
  else ret tt.

Definition syncOrder (t : string) (d : JsValue) : M unit :=
  if t =? "CREATE" then
    (order <- PosService.createOrder E d ;;
     i <- prop order "id" ;;
     PosService.completeOrder E i ;;; ret tt)
  else if t =? "UPDATE" then ret tt   (* orders are not updated after creation *)
  else if t =? "DELETE" then
    (i <- prop d "id" ;; PosService.cancelOrder E i)
  else ret tt.

Definition syncSupplier (t : string) (d : JsValue) : M unit :=
  if t =? "CREATE" then (InventoryService.createSupplier E d ;;; ret tt)
  else if t =? "UPDATE" then
    (i <- prop d "id" ;; InventoryService.updateSupplier E i d ;;; ret tt)
  else if t =? "DELETE" then
    (i <- prop d "id" ;; InventoryService.deleteSupplier E i ;;; ret tt)
  else ret tt.

Definition dispatch (operation : QueuedOperation) : M unit :=
  let e := entity operation in
  if e =? "product" then syncProduct (type operation) (data operation)
  else if e =? "user" then syncUser (type operation) (data operation)
  else if e =? "order" then syncOrder (type operation) (data operation)
  else if e =? "supplier" then syncSupplier (type operation) (data operation)
  else throw (JsError ("Unknown entity type: " ++ e)).

Definition processOperation (operation : QueuedOperation) : M unit :=
  (log (EvReplay (id operation)) ;;; dispatch operation).

Definition syncErrorMessage (operation : QueuedOperation) : string :=
  "Failed to sync " ++ entity operation ++ " " ++ type operation ++ " after "
  ++ showZ (maxRetries operation) ++ " attempts".

(** One iteration of the loop of [performSync].  [operation] is the object
    of the snapshot: [incrementRetryCount] replaces the stored object and
    leaves this one as it was. *)
Definition syncOne (operation : QueuedOperation) : M unit :=
  tryCatch
    (processOperation operation ;;;
     modifyStore (removeFromQueue (id operation)) ;;;
     log (EvSync (LogSynced (id operation))))
    (fun _ =>
       log (EvSync (LogFailed (id operation))) ;;;
       modifyStore (incrementRetryCount (id operation)) ;;;
       if (maxRetries operation <=? retryCount operation)%Z then
         log (EvSync (LogExceeded (id operation))) ;;;
         modifyStore (removeFromQueue (id operation)) ;;;
         modifyStore (addSyncError (syncErrorMessage operation))
       else ret tt).

Fixpoint syncLoop (operations : list QueuedOperation) : M unit :=
  match operations with
  | [] => ret tt
  | operation :: rest => (syncOne operation ;;; syncLoop rest)
  end.

(** [!isOnline || isSyncing || syncQueue.length === 0] *)
Definition blocked (s : OfflineState) : bool :=
  orb (negb (isOnline s))
  (orb (isSyncing s) (List.length (syncQueue s) =? 0)%nat).

Definition startPass (s : OfflineState) : M unit :=
  (log (EvSync (LogStarting (List.length (syncQueue s)))) ;;;
   setSyncing E true ;;;
   modifyStore clearSyncErrors).

Definition finishPass : M unit :=
  (setSyncing E false ;;; log (EvSync LogCompleted)).

(** A whole pass with nothing else running while it awaits. *)
Definition performSync : M unit :=
  (s <- getStore ;;
   if blocked s then ret tt
   else startPass s ;;; syncLoop (syncQueue s) ;;; finishPass).

Definition startPeriodicSync : M unit :=
  (w <- getWorld ;;
   if syncInterval w then ret tt else modify (set_syncInterval true)).

Definition stopPeriodicSync : M unit :=
  (w <- getWorld ;;
   if syncInterval w then modify (set_syncInterval false) else ret tt).

Definition handleOnline : M unit :=
  (setOnlineStatus true ;;; startPeriodicSync ;;; performSync).

Definition handleOffline : M unit :=
  (setOnlineStatus false ;;; stopPeriodicSync).

Definition initialize : M unit :=
  (w <- getWorld ;;
   if isInitialized w then ret tt
   else
     online <- readNavigatorOnLine E ;;
     setOnlineStatus online ;;;
     online' <- readNavigatorOnLine E ;;
     (if online' then startPeriodicSync else ret tt) ;;;
     modify (set_isInitialized true)).

Definition destroy : M unit :=
  (stopPeriodicSync ;;; modify (set_isInitialized false)).

Definition triggerSync : M unit := performSync.

Definition queueOperation (operation : OperationInput) : M unit :=
  (addToQueue E operation ;;;
   s <- getStore ;;
   if isOnline s
   then modify (fun w => set_timeouts (timeouts w ++ [CallPerformSync]) w)
   else ret tt).

End WithEnv.
End SyncService.

(* ===================================================================== *)
(** ** Callbacks that can run while a pass awaits a replay                 *)
(* ===================================================================== *)

Inductive Action : Type :=
| ActGet (endpoint fallbackCommand : string) (fallbackArgs : JsValue)
| ActCreate (endpoint : string) (d : JsValue) (fallbackCommand operationType : string)
| ActUpdate (endpoint : string) (d : JsValue) (fallbackCommand : string)
            (fallbackArgs : JsValue) (operationType : string)
| ActDelete (endpoint fallbackCommand : string) (fallbackArgs : JsValue)
            (operationType : string)
| ActQueueOperation (operation : OperationInput)
| ActTriggerSync          (* syncService.triggerSync() *)
| ActTimerTick            (* the setInterval callback *)
| ActOnlineEvent          (* window 'online' *)
| ActOfflineEvent         (* window 'offline' *)
| ActTriggerSyncEvent     (* window 'triggerSync' *)
| ActTimeoutFires (n : nat).  (* the n-th pending setTimeout callback runs *)

Fixpoint removeNth {A} (n : nat) (l : list A) : list A :=
  match l, n with
  | [], _ => []
  | _ :: r, O => r
  | x :: r, S n' => x :: removeNth n' r
  end.

Module Scheduler.
Section WithEnv.
Variable E : Env.

(** A callback's own exception does not reach the code it interleaves with. *)
Definition settled {A} (m : M A) : M unit :=
  tryCatch (m ;;; ret tt) (fun _ => ret tt).

(** Listeners exist between [initialize] and [destroy]. *)
Definition whenListening (m : M unit) : M unit :=
  (w <- getWorld ;; if isInitialized w then m else ret tt).

Definition runAction (a : Action) : M unit :=
  match a with
  | ActGet ep cmd args => settled (OnlineFirstService.get E ep cmd args)
  | ActCreate ep d cmd opT => settled (OnlineFirstService.create E ep d cmd opT)
  | ActUpdate ep d cmd args opT => settled (OnlineFirstService.update E ep d cmd args opT)
  | ActDelete ep cmd args opT => settled (OnlineFirstService.delete E ep cmd args opT)
  | ActQueueOperation operation => settled (SyncService.queueOperation E operation)
  | ActTriggerSync => settled (SyncService.triggerSync E)
  | ActTimerTick =>
      (w <- getWorld ;;
       if syncInterval w then settled (SyncService.performSync E) else ret tt)
  | ActOnlineEvent => whenListening (settled (SyncService.handleOnline E))
  | ActOfflineEvent => whenListening (settled SyncService.handleOffline)
  | ActTriggerSyncEvent => whenListening (settled (SyncService.performSync E))
  | ActTimeoutFires n =>
      (w <- getWorld ;;
       match nth_error (timeouts w) n with
       | None => ret tt
       | Some t =>
           modify (set_timeouts (removeNth n (timeouts w))) ;;;
           match t with
           | DispatchTriggerSync => whenListening (settled (SyncService.performSync E))
           | CallPerformSync => settled (SyncService.performSync E)
           end
       end)
  end.

Fixpoint runActions (l : list Action) : M unit :=
  match l with
  | [] => ret tt
  | a :: r => (runAction a ;;; runActions r)
  end.

(** The loop of a pass with the callbacks [during i] running while the pass
    awaits the replay of its [i]-th operation. *)
Fixpoint syncLoopWith (during : nat -> list Action) (i : nat)
    (operations : list QueuedOperation) : M unit :=
  match operations with
  | [] => ret tt
  | operation :: rest =>
      (runActions (during i) ;;;
       SyncService.syncOne E operation ;;;
       syncLoopWith during (S i) rest)
  end.

Definition performSyncWith (during : nat -> list Action) : M unit :=
  (s <- getStore ;;
   if SyncService.blocked s then ret tt
   else
     SyncService.startPass E s ;;;
     syncLoopWith during 0 (syncQueue s) ;;;
     SyncService.finishPass E).

(** [n] passes one after the other. *)
Fixpoint passes (n : nat) : M unit :=
  match n with
  | O => ret tt
  | S n' => (SyncService.performSync E ;;; passes n')
  end.

End WithEnv.
End Scheduler.

(** [syncService.getSyncStatus] *)
Record SyncStatus : Type := {
  st_isOnline : bool;
  st_isSyncing : bool;
  st_queueLength : nat;
  st_hasErrors : bool;
  st_errors : list string;
  st_lastSyncAttempt : option Z
}.

Definition getSyncStatus (w : World) : SyncStatus :=
  let s := store w in
  {| st_isOnline := isOnline s;
     st_isSyncing := isSyncing s;
     st_queueLength := List.length (syncQueue s);
     st_hasErrors := (0 <? List.length (syncErrors s))%nat;
     st_errors := syncErrors s;
     st_lastSyncAttempt := lastSyncAttempt s |}.

(** Sync-service console lines and replay marks of a trace. *)
Definition replays (tr : list Event) : list string :=
  flat_map (fun e => match e with EvReplay i => [i] | _ => [] end) tr.

Definition syncLogs (tr : list Event) : list SyncLog :=
  flat_map (fun e => match e with EvSync l => [l] | _ => [] end) tr.

Definition httpRequests (tr : list Event) : list HttpRequest :=
  flat_map (fun e => match e with EvHttp r => [r] | _ => [] end) tr.

Definition invokes (tr : list Event) : list (string * JsValue) :=
  flat_map (fun e => match e with EvInvoke c a => [(c, a)] | _ => [] end) tr.

Definition enqueued (tr : list Event) : list QueuedOperation :=
  flat_map (fun e => match e with EvEnqueue o => [o] | _ => [] end) tr.

(** The id [addToQueue] builds when it starts at clock [t]. *)
Definition genId (E : Env) (t : nat) : string :=
  showZ (dateNow E t) ++ "-" ++ mathRandom E (S t).

Definition emptyWorld (online : bool) : World :=
  {| store := initialState online; authToken := None; syncInterval := false;
     isInitialized := false; timeouts := []; clock := 0; trace := [] |}.

(* ===================================================================== *)
(** ** What code below the sync service may do to the world                *)
(* ===================================================================== *)

Local Open Scope list_scope.

Definition storeRest (s : OfflineState) :=
  (isOnline s, offlineData s, isSyncing s, lastSyncAttempt s, syncErrors s).

Definition worldRest (w : World) := (syncInterval w, isInitialized w, timeouts w).

(** [op] is what [addToQueue] built when it started at clock [t]. *)
Definition builtAt (E : Env) (op : QueuedOperation) (t : nat) : Prop :=
  retryCount op = 0%Z /\ id op = genId E t.

(** Clocks in [[lo, hi)], strictly increasing. *)
Fixpoint increasing (lo hi : nat) (ts : list nat) : Prop :=
  match ts with
  | [] => lo <= hi
  | t :: r => lo <= t /\ increasing (S t) hi r
  end.

(** Events other than the sync service's own. *)
Definition quiet (e : Event) : Prop :=
  match e with
  | EvReplay _ | EvSync _ => False
  | _ => True
  end.

(** [w'] comes from [w] by router-level code: the queue only grew, by
    operations built meanwhile; flags, errors and timers are untouched; the
    trace grew by router-level events. *)
Record Extends (E : Env) (w w' : World) : Prop := mkExtends {
  ext_clock : clock w <= clock w';
  ext_queue : exists added ts,
      syncQueue (store w') = syncQueue (store w) ++ added /\
      Forall2 (builtAt E) added ts /\
      increasing (clock w) (clock w') ts;
  ext_store : storeRest (store w') = storeRest (store w);
  ext_world : worldRest w' = worldRest w;
  ext_trace : exists evs, trace w' = trace w ++ evs /\ Forall quiet evs
}.

Definition Frame (E : Env) {A} (m : M A) : Prop := forall w, Extends E w (exec m w).

(** *** Vocabulary of the statements about a pass *)

(** Did the replay of [op], started in [w], throw? *)
Definition threw (E : Env) (op : QueuedOperation) (w : World) : bool :=
  match result (SyncService.processOperation E op) w with
  | Throw _ => true
  | Ok _ => false
  end.

(** The test [operation.retryCount >= operation.maxRetries] on the snapshot
    object. *)
Definition exhausted (op : QueuedOperation) : bool :=
  (maxRetries op <=? retryCount op)%Z.

(** What the iteration does to the queue, to the errors and to the console,
    given whether the replay threw. *)
Definition verdictQueue (op : QueuedOperation) (failed : bool)
    (q : list QueuedOperation) : list QueuedOperation :=
  if failed then
    if exhausted op then withoutId (id op) (withRetryBumped (id op) q)
    else withRetryBumped (id op) q
  else withoutId (id op) q.

Definition verdictErrors (op : QueuedOperation) (failed : bool) : list string :=
  if andb failed (exhausted op) then [SyncService.syncErrorMessage op] else [].

Definition verdictLogs (op : QueuedOperation) (failed : bool) : list SyncLog :=
  if failed then
    LogFailed (id op) :: (if exhausted op then [LogExceeded (id op)] else [])
  else [LogSynced (id op)].

(** What a pass over [ops] started in [w] keeps in the queue, reports and
    prints, read off the replays in the worlds they start in. *)
Fixpoint keptOps (E : Env) (ops : list QueuedOperation) (w : World)
  : list QueuedOperation :=
  match ops with
  | [] => []
  | op :: r =>
      (if andb (threw E op w) (negb (exhausted op)) then [bumpRetry op] else [])
      ++ keptOps E r (exec (SyncService.syncOne E op) w)
  end.

Fixpoint newErrors (E : Env) (ops : list QueuedOperation) (w : World) : list string :=
  match ops with
  | [] => []
  | op :: r =>
      verdictErrors op (threw E op w)
      ++ newErrors E r (exec (SyncService.syncOne E op) w)
  end.

Fixpoint passLogs (E : Env) (ops : list QueuedOperation) (w : World) : list SyncLog :=
  match ops with
  | [] => []
  | op :: r =>
      verdictLogs op (threw E op w)
      ++ passLogs E r (exec (SyncService.syncOne E op) w)
  end.

(** Identifiers built from clock [c] on are new and pairwise distinct.  The
    program takes this for granted of [Date.now()] and [Math.random()]. *)
Definition FreshFrom (E : Env) (c : nat) (l : list string) : Prop :=
  (forall t, c <= t -> ~ In (genId E t) l) /\
  (forall t t', c <= t -> t < t' -> genId E t <> genId E t').

Definition Fresh (E : Env) (w : World) : Prop :=
  FreshFrom E (clock w) (ids (syncQueue (store w))).

(** The world in which the loop of a pass starts. *)
Definition started (E : Env) (w : World) : World :=
  exec (SyncService.startPass E (store w)) w.

(** The engine may start a pass and its identifiers are in order. *)
Definition Ready (E : Env) (w : World) : Prop :=
  isOnline (store w) = true /\
  isSyncing (store w) = false /\
  NoDup (ids (syncQueue (store w))) /\
  Fresh E w.

(** The request of the connectivity probe issued from [w], and the
    transport's answer to it when [isOnline] starts in [w]. *)
Definition probeRequest (E : Env) (w : World) : HttpRequest :=
  {| method := GET; url := (baseURL E ++ "/auth/me")%string; payload := JUndefined;
     timeout := 5000; authorization := OnlineApiService.bearer (authToken w) |}.

Definition probeAnswer (E : Env) (w : World) : TransportOutcome :=
  transport E (S (clock w)) (probeRequest E w).

(** *** Concrete environments and inputs used in examples *)

Fixpoint letters (n : nat) : string :=
  match n with
  | O => EmptyString
  | S k => String "a" (letters k)
  end.

Definition isProbe (r : HttpRequest) : bool :=
  match method r with
  | GET => (url r =? "/auth/me")%string
  | _ => false
  end.

(** An environment whose platform flag is [online], whose transport answers
    the probe with [probe] and any other request with [other], and whose
    Tauri commands answer [local]. *)
Definition demoEnv (online : bool) (probe other : TransportOutcome)
    (local : LocalOutcome) : Env :=
  {| navigatorOnLine := fun _ => online;
     transport := fun _ r => if isProbe r then probe else other;
     tauriInvoke := fun _ _ _ => local;
     dateNow := fun _ => 0%Z;
     mathRandom := letters;
     baseURL := EmptyString |}.

(** Reachable server that answers every call with [other]. *)
Definition envServer (other : TransportOutcome) : Env :=
  demoEnv true (Responded 200 JNull) other (LocalOk (JNum 1)).

(** Platform reports the network down. *)
Definition envOffline : Env :=
  demoEnv false (Failed None "Network Error") (Failed None "Network Error")
          (LocalOk (JNum 1)).

(** The probe is answered but the call itself times out. *)
Definition envTimeout : Env :=
  envServer (Failed (Some "ECONNABORTED"%string) "timeout of 10000ms exceeded").

Definition timeoutError : AxiosError :=
  {| code := Some "ECONNABORTED"%string; message := "timeout of 10000ms exceeded";
     response := None |}.

Definition milk : JsValue := JObj [("name"%string, JStr "Milk"); ("sku"%string, JStr "MLK001")].

(** The operation [addToSyncQueue] enqueues from world [w]. *)
Definition queuedAt (E : Env) (w : World) (operationType endpoint method : string)
    (d : JsValue) (t : string) : QueuedOperation :=
  newOperation
    {| in_type := OnlineFirstService.lookupOr OnlineFirstService.typeMap t (toUpperCase t);
       in_entity := OnlineFirstService.lookupOr OnlineFirstService.entityMap
                      (nth 0 (split "_" operationType) EmptyString)
                      (nth 0 (split "_" operationType) EmptyString);
       in_data := OnlineFirstService.queuedData endpoint method d;
       in_maxRetries := 5 |}
    (dateNow E (clock w)) (mathRandom E (S (clock w))) (dateNow E (S (S (clock w)))).

Definition worldWith (q : list QueuedOperation) : World :=
  set_store (set_syncQueue q (initialState true)) (emptyWorld true).

(** What the server answers to the creation of [milk]. *)
Definition serverMilk : JsValue :=
  JObj [("id"%string, JNum 42); ("name"%string, JStr "Milk"); ("sku"%string, JStr "MLK001")].

(** A queued product update with [maxRetries = 3]. *)
Definition failingUpdate : QueuedOperation :=
  {| id := "op-1"; type := "UPDATE"; entity := "product";
     data := JObj [("id"%string, JNum 7); ("name"%string, JStr "Milk")];
     timestamp := 0; retryCount := 0; maxRetries := 3 |}.

(** A server that is reachable and answers every call with 404. *)
Definition envNotFound : Env := envServer (Responded 404 JNull).

(** The operation a console line of the sync service is about. *)
Definition logId (l : SyncLog) : option string :=
  match l with
  | LogSynced i | LogFailed i | LogExceeded i => Some i
  | LogStarting _ | LogCompleted => None
  end.

(** The sync-service lines written between [w] and a later world [w']. *)
Definition logsSince (w w' : World) : list SyncLog :=
  skipn (List.length (syncLogs (trace w))) (syncLogs (trace w')).

Definition knownEntities : list string := ["product"; "user"; "order"; "supplier"]%string.

Definition replayedTypes : list string := ["CREATE"; "UPDATE"; "DELETE"]%string.

(** A queued stock movement, a member of the declared entity union. *)
Definition movementOp : QueuedOperation :=
  {| id := "op-m"; type := "CREATE"; entity := "movement";
     data := JObj [("productId"%string, JNum 7); ("quantity"%string, JNum 3)];
     timestamp := 0; retryCount := 0; maxRetries := 2 |}.

(** A queued order update. *)
Definition orderUpdate : QueuedOperation :=
  {| id := "op-7"; type := "UPDATE"; entity := "order";
     data := JObj [("id"%string, JNum 7)];
     timestamp := 0; retryCount := 0; maxRetries := 3 |}.

(** What an offline stock update enqueues: type STOCK on a product. *)
Definition stockOp : QueuedOperation :=
  {| id := "op-s"; type := "STOCK"; entity := "product";
     data := OnlineFirstService.queuedData "/inventory/products/7/stock" "PUT" (JObj []);
     timestamp := 0; retryCount := 0; maxRetries := 5 |}.

(** [w'] differs from [w] by things that neither start nor end a pass and
    replay nothing. *)
Definition Aside (w w' : World) : Prop :=
  isSyncing (store w') = isSyncing (store w) /\
  replays (trace w') = replays (trace w) /\
  syncLogs (trace w') = syncLogs (trace w).

(** The triggers that only call [performSync]. *)
Definition plainTriggers : list Action := [ActTriggerSync; ActTimerTick; ActTriggerSyncEvent].

(** The sync service after [initialize], with [q] queued. *)
Definition listeningWith (q : list QueuedOperation) : World :=
  set_syncInterval true (set_isInitialized true (worldWith q)).

(** [m] relates every world to the world it leaves. *)
Definition Keeps (R : World -> World -> Prop) {A} (m : M A) : Prop :=
  forall w, R w (exec m w).

(** Relations used with [Keeps]. *)
Definition sameStore (w w' : World) : Prop := store w' = store w.

Definition sameHttp (w w' : World) : Prop :=
  httpRequests (trace w') = httpRequests (trace w).

Definition sameInvokes (w w' : World) : Prop := invokes (trace w') = invokes (trace w).





(** An environment that is online, answers every request with [early] up
    to clock [upto] and with [late] afterwards, and whose Tauri commands
    answer [local]. *)
Definition envThen (upto : nat) (early late : TransportOutcome) (local : LocalOutcome)
  : Env :=
  {| navigatorOnLine := fun _ => true;
     transport := fun t _ => if (t <=? upto)%nat then early else late;
     tauriInvoke := fun _ _ _ => local;
     dateNow := fun _ => 0%Z;
     mathRandom := letters;
     baseURL := EmptyString |}.

(** A queued product creation. *)
Definition createOp : QueuedOperation :=
  {| id := "op-c"; type := "CREATE"; entity := "product";
     data := OnlineFirstService.queuedData "/inventory/products" "POST" milk;
     timestamp := 0; retryCount := 4; maxRetries := 5 |}.

(** The request a router call sends to endpoint [ep] from [w]. *)
Definition callRequest (E : Env) (w : World) (m : Method) (ep : string) (b : JsValue)
  : HttpRequest :=
  {| method := m; url := (baseURL E ++ ep)%string; payload := b; timeout := 10000;
     authorization := OnlineApiService.bearer (authToken w) |}.

(** A reachable server that accepts new orders, answering with order 5,
    and refuses every other call. *)
Definition envOrders : Env :=
  {| navigatorOnLine := fun _ => true;
     transport := fun _ r =>
       if isProbe r then Responded 200 JNull
       else if (url r =? "/sales/orders")%string
            then Responded 201 (JObj [("id"%string, JNum 5)])
            else Responded 400 JNull;
     tauriInvoke := fun _ _ _ => LocalOk (JNum 1);
     dateNow := fun _ => 0%Z;
     mathRandom := letters;
     baseURL := EmptyString |}.

(** A queued order creation. *)
Definition orderCreate : QueuedOperation :=
  {| id := "op-o"; type := "CREATE"; entity := "order";
     data := OnlineFirstService.queuedData "/sales/orders" "POST" (JObj []);
     timestamp := 0; retryCount := 0; maxRetries := 5 |}.

Lemma increasing_le lo hi ts : increasing lo hi ts -> lo <= hi.
Proof.
  revert lo. induction ts as [|t r IH]; simpl; intros lo H; [exact H|].
  destruct H as [H1 H2]. apply IH in H2. lia.
Qed.

Lemma increasing_weaken lo lo' hi ts :
  lo' <= lo -> increasing lo hi ts -> increasing lo' hi ts.
Proof.
  destruct ts as [|t r]; simpl; intros Hlo H; [lia|].
  destruct H as [H1 H2]. split; [lia | exact H2].
Qed.

Lemma increasing_app lo mid hi ts1 ts2 :
  increasing lo mid ts1 -> increasing mid hi ts2 -> increasing lo hi (ts1 ++ ts2).
Proof.
  revert lo. induction ts1 as [|t r IH]; simpl; intros lo H1 H2.
  - eapply increasing_weaken; eassumption.
  - destruct H1 as [Ha Hb]. split; [exact Ha | apply IH; assumption].
Qed.

Lemma increasing_bounds lo hi ts t : increasing lo hi ts -> In t ts -> lo <= t /\ t < hi.
Proof.
  revert lo. induction ts as [|t0 r IH]; simpl; intros lo H Hin; [contradiction|].
  destruct H as [H1 H2]. destruct Hin as [->|Hin].
  - apply increasing_le in H2. lia.
  - destruct (IH _ H2 Hin). lia.
Qed.

Lemma increasing_NoDup lo hi ts : increasing lo hi ts -> NoDup ts.
Proof.
  revert lo. induction ts as [|t r IH]; simpl; intros lo H; [constructor|].
  destruct H as [H1 H2]. constructor; [|eapply IH; exact H2].
  intros Hin. destruct (increasing_bounds _ _ _ _ H2 Hin). lia.
Qed.

Lemma Extends_refl E w : Extends E w w.
Proof.
  constructor; try reflexivity; try lia.
  - exists [], []. rewrite app_nil_r. repeat split; [constructor | simpl; lia].
  - exists []. rewrite app_nil_r. split; [reflexivity | constructor].
Qed.

Lemma Extends_trans E w1 w2 w3 :
  Extends E w1 w2 -> Extends E w2 w3 -> Extends E w1 w3.
Proof.
  intros [c1 [a1 [ts1 [q1 [f1 i1]]]] s1 r1 [e1 [t1 g1]]]
         [c2 [a2 [ts2 [q2 [f2 i2]]]] s2 r2 [e2 [t2 g2]]].
  constructor.
  - lia.
  - exists (a1 ++ a2), (ts1 ++ ts2). repeat split.
    + rewrite q2, q1, app_assoc. reflexivity.
    + apply Forall2_app; assumption.
    + eapply increasing_app; eassumption.
  - congruence.
  - congruence.
  - exists (e1 ++ e2). split.
    + rewrite t2, t1, app_assoc. reflexivity.
    + apply Forall_app. split; assumption.
Qed.

Section FrameRules.
Variable E : Env.

Lemma frame_ret {A} (a : A) : Frame E (ret a).
Proof. intros w. apply Extends_refl. Qed.

Lemma frame_throw {A} (e : Thrown) : Frame E (@throw A e).
Proof. intros w. apply Extends_refl. Qed.

Lemma frame_bind {A B} (m : M A) (k : A -> M B) :
  Frame E m -> (forall a, Frame E (k a)) -> Frame E (bind m k).
Proof.
  intros Hm Hk w. unfold exec, bind. specialize (Hm w). unfold exec in Hm.
  destruct (m w) as [w' [a|e]]; simpl in *.
  - eapply Extends_trans; [exact Hm | apply Hk].
  - exact Hm.
Qed.

Lemma frame_tryCatch {A} (m : M A) (h : Thrown -> M A) :
  Frame E m -> (forall e, Frame E (h e)) -> Frame E (tryCatch m h).
Proof.
  intros Hm Hh w. unfold exec, tryCatch. specialize (Hm w). unfold exec in Hm.
  destruct (m w) as [w' [a|e]]; simpl in *.
  - exact Hm.
  - eapply Extends_trans; [exact Hm | apply Hh].
Qed.

Lemma frame_getWorld : Frame E getWorld.
Proof. intros w. apply Extends_refl. Qed.

Lemma frame_getStore : Frame E getStore.
Proof. intros w. apply Extends_refl. Qed.

Lemma frame_tick : Frame E tick.
Proof.
  intros w. unfold exec, tick; simpl. constructor; simpl; try reflexivity; try lia.
  - exists [], []. rewrite app_nil_r. repeat split; [constructor | simpl; lia].
  - exists []. rewrite app_nil_r. split; [reflexivity | constructor].
Qed.

Lemma frame_log (e : Event) : quiet e -> Frame E (log e).
Proof.
  intros Hq w. unfold exec, log, modify; simpl.
  constructor; simpl; try reflexivity; try lia.
  - exists [], []. rewrite app_nil_r. repeat split; [constructor | simpl; lia].
  - exists [e]. split; [reflexivity | repeat constructor; exact Hq].
Qed.

Lemma frame_logout : Frame E logout.
Proof.
  intros w. unfold exec, logout, modify; simpl.
  constructor; simpl; try reflexivity; try lia.
  - exists [], []. rewrite app_nil_r. repeat split; [constructor | simpl; lia].
  - exists []. rewrite app_nil_r. split; [reflexivity | constructor].
Qed.

Lemma frame_prop v k : Frame E (prop v k).
Proof. unfold prop. destruct (getProp v k); [apply frame_ret | apply frame_throw]. Qed.

Lemma frame_now : Frame E (now E).
Proof. unfold now. apply frame_bind; [apply frame_tick | intros; apply frame_ret]. Qed.

Lemma frame_readNavigatorOnLine : Frame E (readNavigatorOnLine E).
Proof.
  unfold readNavigatorOnLine. apply frame_bind; [apply frame_tick | intros; apply frame_ret].
Qed.

Lemma frame_invoke c a : Frame E (invoke E c a).
Proof.
  unfold invoke. apply frame_bind; [apply frame_log; exact I | intros _].
  apply frame_bind; [apply frame_tick | intros t].
  destruct (tauriInvoke E t c a); [apply frame_ret | apply frame_throw].
Qed.

Lemma frame_addToQueue operation : Frame E (addToQueue E operation).
Proof.
  intros w. unfold exec, addToQueue, now, random36, bind, tick, ret, modifyStore,
    modify, log; simpl.
  constructor; simpl; try reflexivity; try lia.
  - eexists _, [clock w]. repeat split; try reflexivity; simpl; try lia.
    constructor; [|constructor]. split; reflexivity.
  - exists [EvEnqueue (newOperation operation (dateNow E (clock w))
                         (mathRandom E (S (clock w))) (dateNow E (S (S (clock w)))))].
    split; [reflexivity | repeat constructor].
Qed.

End FrameRules.

(** Discharging [Frame] goals over composed code. *)
Ltac frame_step :=
  first
    [ apply frame_ret | apply frame_throw
    | apply frame_getWorld | apply frame_getStore | apply frame_tick
    | apply frame_logout | apply frame_prop | apply frame_now
    | apply frame_readNavigatorOnLine | apply frame_invoke | apply frame_addToQueue
    | apply frame_log; exact I
    | assumption
    | apply frame_bind; [ | intros ? ]
    | apply frame_tryCatch; [ | intros ? ]
    | match goal with
      | |- Frame _ (if ?b then _ else _) => destruct b
      | |- Frame _ (match ?x with _ => _ end) => destruct x
      end ].

Ltac frame := repeat frame_step.

Section FrameOfServices.
Variable E : Env.

Lemma frame_axiosSend req v : Frame E (OnlineApiService.axiosSend E req v).
Proof. unfold OnlineApiService.axiosSend. frame. Qed.

Lemma frame_clientRequest m ep d tmo v :
  Frame E (OnlineApiService.clientRequest E m ep d tmo v).
Proof.
  unfold OnlineApiService.clientRequest.
  apply frame_bind; [frame | intros w0].
  apply frame_bind; [apply frame_axiosSend | intros r]. frame.
Qed.

Lemma frame_checkConnectivity : Frame E (OnlineApiService.checkConnectivity E).
Proof.
  unfold OnlineApiService.checkConnectivity.
  apply frame_tryCatch; [|intros; frame].
  apply frame_bind; [apply frame_clientRequest | intros; frame].
Qed.

Lemma frame_api_get ep : Frame E (OnlineApiService.get E ep).
Proof.
  unfold OnlineApiService.get.
  apply frame_bind; [frame | intros w0].
  apply frame_bind; [apply frame_axiosSend | intros r]. frame.
Qed.

Lemma frame_api_post ep d : Frame E (OnlineApiService.post E ep d).
Proof.
  unfold OnlineApiService.post.
  apply frame_tryCatch; [|intros; frame].
  apply frame_bind; [apply frame_clientRequest | intros; frame].
Qed.

Lemma frame_api_put ep d : Frame E (OnlineApiService.put E ep d).
Proof.
  unfold OnlineApiService.put.
  apply frame_tryCatch; [|intros; frame].
  apply frame_bind; [apply frame_clientRequest | intros; frame].
Qed.

Lemma frame_api_delete ep : Frame E (OnlineApiService.delete E ep).
Proof.
  unfold OnlineApiService.delete.
  apply frame_tryCatch; [|intros; frame].
  apply frame_bind; [apply frame_clientRequest | intros; frame].
Qed.

Lemma frame_isOnline : Frame E (OnlineFirstService.isOnline E).
Proof.
  unfold OnlineFirstService.isOnline.
  apply frame_bind; [frame | intros b].
  destruct b; [apply frame_checkConnectivity | frame].
Qed.

Lemma frame_addToSyncQueue opT ep m d :
  Frame E (OnlineFirstService.addToSyncQueue E opT ep m d).
Proof. unfold OnlineFirstService.addToSyncQueue. frame. Qed.

Lemma frame_createOfflineAndQueue d ep cmd opT :
  Frame E (OnlineFirstService.createOfflineAndQueue E d ep cmd opT).
Proof.
  unfold OnlineFirstService.createOfflineAndQueue.
  apply frame_bind; [frame | intros r].
  apply frame_bind; [apply frame_addToSyncQueue | intros _]. frame.
Qed.

Lemma frame_updateOfflineAndQueue d ep cmd args opT :
  Frame E (OnlineFirstService.updateOfflineAndQueue E d ep cmd args opT).
Proof.
  unfold OnlineFirstService.updateOfflineAndQueue.
  apply frame_bind; [frame | intros r].
  apply frame_bind; [apply frame_addToSyncQueue | intros _]. frame.
Qed.

Lemma frame_deleteOfflineAndQueue ep cmd args opT :
  Frame E (OnlineFirstService.deleteOfflineAndQueue E ep cmd args opT).
Proof.
  unfold OnlineFirstService.deleteOfflineAndQueue.
  apply frame_bind; [frame | intros r].
  apply frame_bind; [apply frame_addToSyncQueue | intros _]. frame.
Qed.

Lemma frame_router_get ep cmd args : Frame E (OnlineFirstService.get E ep cmd args).
Proof.
  unfold OnlineFirstService.get, OnlineFirstService.updateLocalData.
  apply frame_bind; [apply frame_isOnline | intros b].
  destruct b; [|frame].
  apply frame_tryCatch; [|intros; frame].
  apply frame_bind; [apply frame_api_get | intros; frame].
Qed.

Lemma frame_router_create ep d cmd opT :
  Frame E (OnlineFirstService.create E ep d cmd opT).
Proof.
  unfold OnlineFirstService.create, OnlineFirstService.updateLocalData.
  apply frame_bind; [apply frame_isOnline | intros b].
  destruct b; [|apply frame_createOfflineAndQueue].
  apply frame_tryCatch.
  - apply frame_bind; [apply frame_api_post | intros; frame].
  - intros e. destruct (OnlineApiService.isNetworkError e);
      [apply frame_createOfflineAndQueue | frame].
Qed.

Lemma frame_router_update ep d cmd args opT :
  Frame E (OnlineFirstService.update E ep d cmd args opT).
Proof.
  unfold OnlineFirstService.update, OnlineFirstService.updateLocalData.
  apply frame_bind; [apply frame_isOnline | intros b].
  destruct b; [|apply frame_updateOfflineAndQueue].
  apply frame_tryCatch.
  - apply frame_bind; [apply frame_api_put | intros; frame].
  - intros e. destruct (OnlineApiService.isNetworkError e);
      [apply frame_updateOfflineAndQueue | frame].
Qed.

Lemma frame_router_delete ep cmd args opT :
  Frame E (OnlineFirstService.delete E ep cmd args opT).
Proof.
  unfold OnlineFirstService.delete.
  apply frame_bind; [apply frame_isOnline | intros b].
  destruct b; [|apply frame_deleteOfflineAndQueue].
  apply frame_tryCatch.
  - apply frame_bind; [apply frame_api_delete | intros; frame].
  - intros e. destruct (OnlineApiService.isNetworkError e);
      [apply frame_deleteOfflineAndQueue | frame].
Qed.

Lemma frame_secureInvoke cmd args : Frame E (ApiInterceptor.secureInvoke E cmd args).
Proof. unfold ApiInterceptor.secureInvoke. frame. Qed.

Lemma frame_createUser d : Frame E (UserService.createUser E d).
Proof.
  unfold UserService.createUser, OnlineFirstService.users_create.
  apply frame_tryCatch.
  - do 5 (apply frame_bind; [apply frame_prop | intros ?]).
    apply frame_router_create.
  - intros _. do 4 (apply frame_bind; [apply frame_prop | intros ?]).
    apply frame_bind; [apply frame_secureInvoke | intros ?]. frame.
Qed.

Lemma frame_updateUser i d : Frame E (UserService.updateUser E i d).
Proof.
  unfold UserService.updateUser.
  do 3 (apply frame_bind; [apply frame_prop | intros ?]).
  apply frame_secureInvoke.
Qed.

Lemma frame_createOrder d : Frame E (PosService.createOrder E d).
Proof.
  unfold PosService.createOrder, OnlineFirstService.orders_create,
    OnlineFirstService.orders_getById.
  apply frame_bind; [apply frame_router_create | intros r].
  destruct r; try apply frame_ret. apply frame_router_get.
Qed.

Lemma frame_syncProduct t d : Frame E (SyncService.syncProduct E t d).
Proof.
  unfold SyncService.syncProduct, InventoryService.createProduct,
    InventoryService.updateProduct, InventoryService.deleteProduct,
    OnlineFirstService.products_create, OnlineFirstService.products_update,
    OnlineFirstService.products_delete.
  repeat match goal with |- Frame _ (if ?b then _ else _) => destruct b end.
  - apply frame_bind; [apply frame_router_create | intros; frame].
  - apply frame_bind; [apply frame_prop | intros i].
    apply frame_bind; [apply frame_router_update | intros; frame].
  - apply frame_bind; [apply frame_prop | intros i].
    apply frame_bind; [apply frame_router_delete | intros; frame].
  - frame.
Qed.

Lemma frame_syncSupplier t d : Frame E (SyncService.syncSupplier E t d).
Proof.
  unfold SyncService.syncSupplier, InventoryService.createSupplier,
    InventoryService.updateSupplier, InventoryService.deleteSupplier,
    OnlineFirstService.suppliers_create, OnlineFirstService.suppliers_update,
    OnlineFirstService.suppliers_delete.
  repeat match goal with |- Frame _ (if ?b then _ else _) => destruct b end.
  - apply frame_bind; [apply frame_router_create | intros; frame].
  - apply frame_bind; [apply frame_prop | intros i].
    apply frame_bind; [apply frame_router_update | intros; frame].
  - apply frame_bind; [apply frame_prop | intros i].
    apply frame_bind; [apply frame_router_delete | intros; frame].
  - frame.
Qed.

Lemma frame_syncUser t d : Frame E (SyncService.syncUser E t d).
Proof.
  unfold SyncService.syncUser, UserService.deleteUser.
  repeat match goal with |- Frame _ (if ?b then _ else _) => destruct b end.
  - apply frame_bind; [apply frame_createUser | intros; frame].
  - apply frame_bind; [apply frame_prop | intros i].
    apply frame_bind; [apply frame_updateUser | intros; frame].
  - apply frame_bind; [apply frame_prop | intros i].
    apply frame_bind; [apply frame_secureInvoke | intros; frame].
  - frame.
Qed.

Lemma frame_syncOrder t d : Frame E (SyncService.syncOrder E t d).
Proof.
  unfold SyncService.syncOrder, PosService.completeOrder, PosService.cancelOrder,
    OnlineFirstService.orders_complete, OnlineFirstService.orders_cancel.
  repeat match goal with |- Frame _ (if ?b then _ else _) => destruct b end.
  - apply frame_bind; [apply frame_createOrder | intros o].
    apply frame_bind; [apply frame_prop | intros i].
    apply frame_bind; [apply frame_router_create | intros; frame].
  - frame.
  - apply frame_bind; [apply frame_prop | intros i].
    apply frame_bind; [apply frame_router_create | intros; frame].
  - frame.
Qed.

Lemma frame_dispatch op : Frame E (SyncService.dispatch E op).
Proof.
  unfold SyncService.dispatch.
  repeat match goal with |- Frame _ (if ?b then _ else _) => destruct b end.
  - apply frame_syncProduct.
  - apply frame_syncUser.
  - apply frame_syncOrder.
  - apply frame_syncSupplier.
  - frame.
Qed.

End FrameOfServices.

(* ===================================================================== *)
(** ** One iteration of a pass                                            *)
(* ===================================================================== *)

Lemma syncLogs_app a b : syncLogs (a ++ b) = syncLogs a ++ syncLogs b.
Proof. apply flat_map_app. Qed.

Lemma replays_app a b : replays (a ++ b) = replays a ++ replays b.
Proof. apply flat_map_app. Qed.

Lemma httpRequests_app a b : httpRequests (a ++ b) = httpRequests a ++ httpRequests b.
Proof. apply flat_map_app. Qed.

Lemma syncLogs_quiet evs : Forall quiet evs -> syncLogs evs = [].
Proof.
  induction 1 as [|e r He _ IH]; [reflexivity|].
  simpl. rewrite IH. destruct e; simpl in *; try reflexivity; contradiction.
Qed.

Lemma replays_quiet evs : Forall quiet evs -> replays evs = [].
Proof.
  induction 1 as [|e r He _ IH]; [reflexivity|].
  simpl. rewrite IH. destruct e; simpl in *; try reflexivity; contradiction.
Qed.

Lemma syncLogs_EvSync l : syncLogs (map EvSync l) = l.
Proof. induction l as [|x r IH]; simpl; [reflexivity | f_equal; exact IH]. Qed.

Lemma replays_EvSync l : replays (map EvSync l) = [].
Proof. induction l as [|x r IH]; simpl; [reflexivity | exact IH]. Qed.

Section Iteration.
Variable E : Env.

Lemma processOperation_extends op w :
  Extends E (emit (EvReplay (id op)) w) (exec (SyncService.processOperation E op) w).
Proof.
  unfold SyncService.processOperation, exec, bind, log, modify; simpl.
  apply (frame_dispatch E op).
Qed.

Lemma syncOne_exec op w :
  let w1 := exec (SyncService.processOperation E op) w in
  let w2 := exec (SyncService.syncOne E op) w in
  syncQueue (store w2) = verdictQueue op (threw E op w) (syncQueue (store w1)) /\
  syncErrors (store w2) = syncErrors (store w1) ++ verdictErrors op (threw E op w) /\
  trace w2 = trace w1 ++ map EvSync (verdictLogs op (threw E op w)) /\
  (isOnline (store w2), offlineData (store w2), isSyncing (store w2),
   lastSyncAttempt (store w2))
  = (isOnline (store w1), offlineData (store w1), isSyncing (store w1),
     lastSyncAttempt (store w1)) /\
  clock w2 = clock w1 /\ authToken w2 = authToken w1 /\ worldRest w2 = worldRest w1 /\
  result (SyncService.syncOne E op) w = Ok tt.
Proof.
  unfold SyncService.syncOne, threw, exec, result, tryCatch, bind,
    verdictQueue, verdictErrors, verdictLogs, exhausted.
  destruct (SyncService.processOperation E op w) as [w1 [u|e]]; simpl.
  - rewrite app_nil_r. repeat split; reflexivity.
  - destruct (maxRetries op <=? retryCount op)%Z; simpl;
      rewrite <- ?app_assoc, ?app_nil_r; repeat split; reflexivity.
Qed.

(** The iteration seen from the world it starts in. *)
Lemma syncOne_step op w :
  let w2 := exec (SyncService.syncOne E op) w in
  (exists added ts,
      syncQueue (store w2) = verdictQueue op (threw E op w) (syncQueue (store w) ++ added) /\
      Forall2 (builtAt E) added ts /\ increasing (clock w) (clock w2) ts) /\
  syncErrors (store w2) = syncErrors (store w) ++ verdictErrors op (threw E op w) /\
  syncLogs (trace w2) = syncLogs (trace w) ++ verdictLogs op (threw E op w) /\
  replays (trace w2) = replays (trace w) ++ [id op] /\
  (isOnline (store w2), offlineData (store w2), isSyncing (store w2),
   lastSyncAttempt (store w2))
  = (isOnline (store w), offlineData (store w), isSyncing (store w),
     lastSyncAttempt (store w)) /\
  worldRest w2 = worldRest w /\ clock w <= clock w2.
Proof.
  intros w2.
  destruct (syncOne_exec op w) as (Hq & He & Ht & Hf & Hc & _ & Hr & _).
  fold w2 in Hq, He, Ht, Hf, Hc, Hr.
  destruct (processOperation_extends op w)
    as [c [added [ts [q [f i]]]] s r [evs [t g]]].
  simpl in c, q, i, s, r, t. unfold storeRest in s. unfold worldRest in r.
  repeat split.
  - exists added, ts. rewrite Hq, q, Hc. repeat split; assumption.
  - rewrite He. f_equal. congruence.
  - rewrite Ht, t, !syncLogs_app, syncLogs_EvSync, (syncLogs_quiet _ g).
    simpl. rewrite !app_nil_r. reflexivity.
  - rewrite Ht, t, !replays_app, replays_EvSync, (replays_quiet _ g).
    simpl. rewrite !app_nil_r. reflexivity.
  - rewrite Hf. congruence.
  - rewrite Hr. exact r.
  - lia.
Qed.

End Iteration.

(* ===================================================================== *)
(** ** Queue bookkeeping under unique identifiers                         *)
(* ===================================================================== *)

Lemma withoutId_absent i q : ~ In i (ids q) -> withoutId i q = q.
Proof.
  induction q as [|op r IH]; simpl; intros H; [reflexivity|].
  destruct (String.eqb_spec (id op) i) as [e|n]; simpl.
  - exfalso. apply H. left. exact e.
  - f_equal. apply IH. intros Hin. apply H. right. exact Hin.
Qed.

Lemma withRetryBumped_absent i q : ~ In i (ids q) -> withRetryBumped i q = q.
Proof.
  induction q as [|op r IH]; simpl; intros H; [reflexivity|].
  destruct (String.eqb_spec (id op) i) as [e|n].
  - exfalso. apply H. left. exact e.
  - f_equal. apply IH. intros Hin. apply H. right. exact Hin.
Qed.

Lemma withoutId_app i a b : withoutId i (a ++ b) = withoutId i a ++ withoutId i b.
Proof. apply filter_app. Qed.

Lemma withRetryBumped_app i a b :
  withRetryBumped i (a ++ b) = withRetryBumped i a ++ withRetryBumped i b.
Proof. apply map_app. Qed.

Lemma ids_app a b : ids (a ++ b) = ids a ++ ids b.
Proof. apply map_app. Qed.

Lemma ids_withRetryBumped i q : ids (withRetryBumped i q) = ids q.
Proof.
  induction q as [|op r IH]; simpl; [reflexivity|].
  f_equal; [|exact IH]. destruct (id op =? i)%string; reflexivity.
Qed.

Lemma withoutId_not_in i q : ~ In i (ids (withoutId i q)).
Proof.
  induction q as [|op r IH]; simpl; [tauto|].
  destruct (String.eqb_spec (id op) i) as [e|n]; simpl; [exact IH|].
  intros [H|H]; [contradiction | exact (IH H)].
Qed.

Lemma ids_withoutId_incl i q : incl (ids (withoutId i q)) (ids q).
Proof.
  induction q as [|op r IH]; simpl; [apply incl_refl|].
  destruct (negb (id op =? i)%string); simpl.
  - intros x [H|H]; [left; exact H | right; apply IH; exact H].
  - intros x H. right. apply IH. exact H.
Qed.

(** With unique identifiers the three queue updates touch one operation. *)
Lemma withoutId_unique pre op rest :
  NoDup (ids (pre ++ op :: rest)) ->
  withoutId (id op) (pre ++ op :: rest) = pre ++ rest.
Proof.
  intros H. rewrite ids_app in H. simpl in H.
  apply NoDup_remove_2 in H.
  rewrite withoutId_app. simpl. rewrite String.eqb_refl. simpl.
  rewrite !withoutId_absent; [reflexivity | |];
    intros Hin; apply H; apply in_or_app; [right | left]; exact Hin.
Qed.

Lemma withRetryBumped_unique pre op rest :
  NoDup (ids (pre ++ op :: rest)) ->
  withRetryBumped (id op) (pre ++ op :: rest) = pre ++ bumpRetry op :: rest.
Proof.
  intros H. rewrite ids_app in H. simpl in H.
  apply NoDup_remove_2 in H.
  rewrite withRetryBumped_app. simpl. rewrite String.eqb_refl.
  rewrite !withRetryBumped_absent; [reflexivity | |];
    intros Hin; apply H; apply in_or_app; [right | left]; exact Hin.
Qed.

Lemma builtAt_ids E added ts :
  Forall2 (builtAt E) added ts -> ids added = map (genId E) ts.
Proof.
  induction 1 as [|op t r rt [_ H] _ IH]; simpl; [reflexivity|].
  rewrite H, IH. reflexivity.
Qed.

Lemma FreshFrom_grow E c c' l added ts :
  FreshFrom E c l -> NoDup l ->
  Forall2 (builtAt E) added ts -> increasing c c' ts ->
  NoDup (l ++ ids added) /\ FreshFrom E c' (l ++ ids added).
Proof.
  intros [F1 F2] Hnd Hb Hi. rewrite (builtAt_ids _ _ _ Hb).
  assert (Hinj : forall t t', c <= t -> c <= t' -> genId E t = genId E t' -> t = t').
  { intros t t' Ht Ht' He.
    destruct (Nat.lt_trichotomy t t') as [Hlt|[Heq|Hgt]]; [|exact Heq|].
    - exfalso. exact (F2 t t' Ht Hlt He).
    - exfalso. exact (F2 t' t Ht' Hgt (eq_sym He)). }
  split.
  - apply NoDup_app; [exact Hnd | |].
    + apply NoDup_map_NoDup_ForallPairs; [|eapply increasing_NoDup; exact Hi].
      intros x y Hx Hy. apply Hinj.
      * apply (increasing_bounds _ _ _ _ Hi Hx).
      * apply (increasing_bounds _ _ _ _ Hi Hy).
    + intros a Ha Hin. apply in_map_iff in Hin. destruct Hin as [t [<- Ht]].
      apply (F1 t); [apply (increasing_bounds _ _ _ _ Hi Ht) | exact Ha].
  - pose proof (increasing_le _ _ _ Hi) as Hle. split.
    + intros t Ht Hin. apply in_app_or in Hin. destruct Hin as [Hin|Hin].
      * apply (F1 t); [lia | exact Hin].
      * apply in_map_iff in Hin. destruct Hin as [t0 [He Ht0]].
        destruct (increasing_bounds _ _ _ _ Hi Ht0) as [Ha Hb'].
        apply (F2 t0 t); [lia | lia | exact He].
    + intros t t' Ht Hlt. apply F2; lia.
Qed.

Lemma FreshFrom_incl E c l l' : FreshFrom E c l -> incl l' l -> FreshFrom E c l'.
Proof.
  intros [F1 F2] Hincl. split; [|exact F2].
  intros t Ht Hin. apply (F1 t Ht). apply Hincl. exact Hin.
Qed.

(* ===================================================================== *)
(** ** A whole pass                                                       *)
(* ===================================================================== *)

Section PassFacts.
Variable E : Env.

Lemma syncLoop_cons op r w :
  exec (SyncService.syncLoop E (op :: r)) w
  = exec (SyncService.syncLoop E r) (exec (SyncService.syncOne E op) w).
Proof.
  destruct (syncOne_exec E op w) as (_ & _ & _ & _ & _ & _ & _ & Hres).
  unfold exec, result in *. simpl. unfold bind.
  destruct (SyncService.syncOne E op w) as [w2 o]. simpl in *. subst o. reflexivity.
Qed.

Lemma syncLoop_result ops w : result (SyncService.syncLoop E ops) w = Ok tt.
Proof.
  revert w. induction ops as [|op r IH]; intros w; [reflexivity|].
  destruct (syncOne_exec E op w) as (_ & _ & _ & _ & _ & _ & _ & Hres).
  unfold result in *. simpl. unfold bind.
  destruct (SyncService.syncOne E op w) as [w2 o]. simpl in *. subst o. apply IH.
Qed.

Lemma syncLoop_effects ops w :
  let w' := exec (SyncService.syncLoop E ops) w in
  syncErrors (store w') = syncErrors (store w) ++ newErrors E ops w /\
  syncLogs (trace w') = syncLogs (trace w) ++ passLogs E ops w /\
  replays (trace w') = replays (trace w) ++ ids ops /\
  (isOnline (store w'), offlineData (store w'), isSyncing (store w'),
   lastSyncAttempt (store w'))
  = (isOnline (store w), offlineData (store w), isSyncing (store w),
     lastSyncAttempt (store w)) /\
  worldRest w' = worldRest w /\ clock w <= clock w'.
Proof.
  revert w. induction ops as [|op r IH]; intros w.
  - unfold exec. simpl. rewrite !app_nil_r. repeat split; try reflexivity; lia.
  - cbv zeta. rewrite syncLoop_cons.
    destruct (syncOne_step E op w) as (_ & He & Hl & Hr & Hf & Hw & Hc).
    destruct (IH (exec (SyncService.syncOne E op) w)) as (He' & Hl' & Hr' & Hf' & Hw' & Hc').
    simpl. repeat split.
    + rewrite He', He, app_assoc. reflexivity.
    + rewrite Hl', Hl, app_assoc. reflexivity.
    + rewrite Hr', Hr, <- app_assoc. reflexivity.
    + rewrite Hf', Hf. reflexivity.
    + rewrite Hw', Hw. reflexivity.
    + lia.
Qed.

(** The queue after the loop, when identifiers are unique: the operations
    before and after the snapshot stay, each snapshot operation is dropped
    or kept with its counter raised, and what replays enqueued is at the
    tail. *)
Lemma syncLoop_queue ops : forall w pre post,
  syncQueue (store w) = pre ++ ops ++ post ->
  NoDup (ids (syncQueue (store w))) ->
  Fresh E w ->
  let w' := exec (SyncService.syncLoop E ops) w in
  exists added ts,
    syncQueue (store w') = pre ++ keptOps E ops w ++ post ++ added /\
    Forall2 (builtAt E) added ts /\
    increasing (clock w) (clock w') ts /\
    NoDup (ids (syncQueue (store w'))) /\
    Fresh E w'.
Proof.
  induction ops as [|op r IH]; intros w pre post Hq Hnd Hfr.
  - exists [], []. unfold exec. simpl. rewrite app_nil_r. simpl in Hq.
    split; [exact Hq | split; [constructor | split; [lia | split; assumption]]].
  - cbv zeta. rewrite syncLoop_cons.
    destruct (syncOne_step E op w) as ((added1 & ts1 & Hq1 & Hb1 & Hi1) & _).
    set (w2 := exec (SyncService.syncOne E op) w) in *.
    destruct (FreshFrom_grow E _ _ _ _ _ Hfr Hnd Hb1 Hi1) as [Hnd1 Hfr1].
    rewrite <- ids_app in Hnd1, Hfr1.
    assert (Hshape : syncQueue (store w) ++ added1 = pre ++ op :: (r ++ post ++ added1)).
    { rewrite Hq. simpl. rewrite <- !app_assoc. simpl. rewrite <- app_assoc. reflexivity. }
    rewrite Hshape in Hq1, Hnd1, Hfr1.
    assert (Hq2 : syncQueue (store w2)
                  = (pre ++ (if andb (threw E op w) (negb (exhausted op))
                             then [bumpRetry op] else []))
                    ++ r ++ (post ++ added1)).
    { rewrite Hq1. unfold verdictQueue.
      destruct (threw E op w); simpl.
      - destruct (exhausted op); simpl.
        + rewrite (withRetryBumped_unique _ _ _ Hnd1).
          change (id op) with (id (bumpRetry op)).
          rewrite withoutId_unique; [rewrite app_nil_r; reflexivity|].
          rewrite ids_app in *. exact Hnd1.
        + rewrite (withRetryBumped_unique _ _ _ Hnd1).
          rewrite <- app_assoc. reflexivity.
      - rewrite (withoutId_unique _ _ _ Hnd1). rewrite app_nil_r. reflexivity. }
    assert (Hincl : incl (ids (syncQueue (store w2))) (ids (pre ++ op :: r ++ post ++ added1))).
    { rewrite Hq1. unfold verdictQueue.
      destruct (threw E op w); [destruct (exhausted op)|].
      - eapply incl_tran; [apply ids_withoutId_incl|].
        rewrite ids_withRetryBumped. apply incl_refl.
      - rewrite ids_withRetryBumped. apply incl_refl.
      - apply ids_withoutId_incl. }
    assert (Hnd2 : NoDup (ids (syncQueue (store w2)))).
    { rewrite Hq1. unfold verdictQueue.
      destruct (threw E op w); [destruct (exhausted op)|].
      - unfold ids, withoutId. unfold ids in Hnd1.
        rewrite (withRetryBumped_unique _ _ _ Hnd1).
        change (id op) with (id (bumpRetry op)).
        assert (Hnd1' : NoDup (ids (pre ++ bumpRetry op :: r ++ post ++ added1))).
        { rewrite ids_app in *. exact Hnd1. }
        fold (withoutId (id (bumpRetry op)) (pre ++ bumpRetry op :: r ++ post ++ added1)).
        rewrite (withoutId_unique _ _ _ Hnd1').
        fold (ids (pre ++ r ++ post ++ added1)).
        rewrite ids_app in *. simpl in Hnd1. apply NoDup_remove_1 in Hnd1. exact Hnd1.
      - rewrite ids_withRetryBumped. exact Hnd1.
      - rewrite (withoutId_unique _ _ _ Hnd1).
        rewrite ids_app in *. simpl in Hnd1. apply NoDup_remove_1 in Hnd1. exact Hnd1. }
    assert (Hfr2 : Fresh E w2).
    { unfold Fresh. eapply FreshFrom_incl; [exact Hfr1 | exact Hincl]. }
    destruct (IH w2 _ _ Hq2 Hnd2 Hfr2) as (added2 & ts2 & Hq' & Hb2 & Hi2 & Hnd' & Hfr').
    exists (added1 ++ added2), (ts1 ++ ts2).
    split; [|split; [|split; [|split]]].
    + rewrite Hq'. simpl. rewrite <- !app_assoc. reflexivity.
    + apply Forall2_app; assumption.
    + eapply increasing_app; eassumption.
    + exact Hnd'.
    + exact Hfr'.
Qed.

End PassFacts.

Lemma exec_bind_ok {A B} (m : M A) (k : A -> M B) w a :
  result m w = Ok a ->
  exec (bind m k) w = exec (k a) (exec m w) /\
  result (bind m k) w = result (k a) (exec m w).
Proof.
  unfold exec, result, bind. destruct (m w) as [w' o]. simpl.
  intros ->. split; reflexivity.
Qed.

Lemma FreshFrom_later E c c' l : c <= c' -> FreshFrom E c l -> FreshFrom E c' l.
Proof.
  intros Hle [F1 F2]. split.
  - intros t Ht. apply F1. lia.
  - intros t t' Ht Hlt. apply F2; lia.
Qed.

Section WholePass.
Variable E : Env.

Lemma started_fields w :
  syncQueue (store (started E w)) = syncQueue (store w) /\
  syncErrors (store (started E w)) = [] /\
  isSyncing (store (started E w)) = true /\
  isOnline (store (started E w)) = isOnline (store w) /\
  lastSyncAttempt (store (started E w)) = Some (dateNow E (clock w)) /\
  clock (started E w) = S (clock w) /\
  trace (started E w) = trace w ++ [EvSync (LogStarting (List.length (syncQueue (store w))))] /\
  worldRest (started E w) = worldRest w.
Proof. unfold started, exec. simpl. repeat split; reflexivity. Qed.

Lemma performSync_blocked w :
  SyncService.blocked (store w) = true -> SyncService.performSync E w = (w, Ok tt).
Proof.
  intros H. unfold SyncService.performSync, bind, getStore. rewrite H. reflexivity.
Qed.

Lemma performSync_runs w :
  SyncService.blocked (store w) = false ->
  exec (SyncService.performSync E) w
  = exec (SyncService.finishPass E)
      (exec (SyncService.syncLoop E (syncQueue (store w))) (started E w)) /\
  result (SyncService.performSync E) w = Ok tt.
Proof.
  intros H. unfold SyncService.performSync, exec, result, bind, getStore. rewrite H.
  unfold started, exec.
  destruct (SyncService.startPass E (store w) w) as [w1 o] eqn:Hs.
  assert (Ho : o = Ok tt).
  { unfold SyncService.startPass, bind, log, modify, setSyncing, now, tick, ret,
      modifyStore, modify in Hs. simpl in Hs. inversion Hs. reflexivity. }
  subst o. simpl.
  pose proof (syncLoop_result E (syncQueue (store w)) w1) as Hr. unfold result in Hr.
  destruct (SyncService.syncLoop E (syncQueue (store w)) w1) as [w2 o2]. simpl in *.
  subst o2. split; reflexivity.
Qed.

Lemma performSync_result w : result (SyncService.performSync E) w = Ok tt.
Proof.
  destruct (SyncService.blocked (store w)) eqn:H.
  - unfold result. rewrite (performSync_blocked w H). reflexivity.
  - apply (performSync_runs w H).
Qed.

Lemma finishPass_fields w :
  let w' := exec (SyncService.finishPass E) w in
  syncQueue (store w') = syncQueue (store w) /\
  syncErrors (store w') = syncErrors (store w) /\
  isSyncing (store w') = false /\
  isOnline (store w') = isOnline (store w) /\
  lastSyncAttempt (store w') = lastSyncAttempt (store w) /\
  clock w' = clock w /\
  trace w' = trace w ++ [EvSync LogCompleted] /\
  worldRest w' = worldRest w.
Proof. unfold exec. simpl. repeat split; reflexivity. Qed.

Lemma Ready_unblocked w :
  Ready E w -> syncQueue (store w) <> [] -> SyncService.blocked (store w) = false.
Proof.
  intros (Ho & Hs & _) Hq. unfold SyncService.blocked. rewrite Ho, Hs. simpl.
  destruct (syncQueue (store w)); [contradiction | reflexivity].
Qed.

(** Everything a pass does, in one statement. *)
Lemma performSync_spec w :
  Ready E w -> syncQueue (store w) <> [] ->
  let snapshot := syncQueue (store w) in
  let w' := exec (SyncService.performSync E) w in
  (exists added ts,
      syncQueue (store w') = keptOps E snapshot (started E w) ++ added /\
      Forall2 (builtAt E) added ts /\
      increasing (S (clock w)) (clock w') ts) /\
  syncErrors (store w') = newErrors E snapshot (started E w) /\
  syncLogs (trace w')
  = syncLogs (trace w) ++ LogStarting (List.length snapshot)
      :: passLogs E snapshot (started E w) ++ [LogCompleted] /\
  replays (trace w') = replays (trace w) ++ ids snapshot /\
  Ready E w'.
Proof.
  intros HR Hne snapshot w'.
  pose proof (Ready_unblocked w HR Hne) as Hb.
  destruct HR as (Ho & Hs & Hnd & Hfr).
  destruct (performSync_runs w Hb) as [Hex _]. fold w' in Hex.
  destruct (started_fields w) as (Sq & Se & Ssy & Son & _ & Sc & St & Sw).
  set (w1 := started E w) in *.
  set (w2 := exec (SyncService.syncLoop E snapshot) w1) in *.
  destruct (syncLoop_effects E snapshot w1) as (Le & Ll & Lr & Lf & Lw & Lc).
  fold w2 in Le, Ll, Lr, Lf, Lw, Lc.
  assert (Hq1 : syncQueue (store w1) = [] ++ snapshot ++ []).
  { rewrite Sq. simpl. rewrite app_nil_r. reflexivity. }
  assert (Hnd1 : NoDup (ids (syncQueue (store w1)))) by (rewrite Sq; exact Hnd).
  assert (Hfr1 : Fresh E w1).
  { unfold Fresh. rewrite Sq, Sc. eapply FreshFrom_later; [|exact Hfr]. lia. }
  destruct (syncLoop_queue E snapshot w1 [] [] Hq1 Hnd1 Hfr1)
    as (added & ts & Lq & Lb & Li & Lnd & Lfr).
  fold w2 in Lq, Li, Lnd, Lfr. simpl in Lq.
  destruct (finishPass_fields w2) as (Fq & Fe & Fsy & Fon & _ & Fc & Ft & _).
  assert (Hex' : exec (SyncService.finishPass E) w2 = w') by (symmetry; exact Hex).
  rewrite Hex' in Fq, Fe, Fsy, Fon, Fc, Ft.
  assert (Lon : isOnline (store w2) = isOnline (store w1)) by congruence.
  split; [|split; [|split; [|split]]].
  - exists added, ts. rewrite Fq, Lq, Fc. rewrite Sc in Li. repeat split; assumption.
  - rewrite Fe, Le, Se. reflexivity.
  - rewrite Ft, syncLogs_app, Ll, St, syncLogs_app. simpl.
    rewrite <- !app_assoc. reflexivity.
  - rewrite Ft, replays_app, Lr, St, replays_app. simpl. rewrite !app_nil_r. reflexivity.
  - unfold Ready. split; [|split; [|split]].
    + congruence.
    + exact Fsy.
    + rewrite Fq. exact Lnd.
    + unfold Fresh. rewrite Fq, Fc. exact Lfr.
Qed.

Lemma passes_S n w :
  exec (Scheduler.passes E (S n)) w
  = exec (Scheduler.passes E n) (exec (SyncService.performSync E) w).
Proof.
  simpl.
  apply (proj1 (exec_bind_ok (SyncService.performSync E)
                  (fun _ => Scheduler.passes E n) w tt (performSync_result w))).
Qed.

End WholePass.

(* ===================================================================== *)
(** ** Connectivity                                                       *)
(* ===================================================================== *)

Lemma isOnline_navigator_off E w :
  navigatorOnLine E (clock w) = false ->
  OnlineFirstService.isOnline E w = (set_clock (S (clock w)) w, Ok false).
Proof.
  intros H. unfold OnlineFirstService.isOnline, readNavigatorOnLine, bind, tick, ret.
  simpl. rewrite H. reflexivity.
Qed.

Lemma isOnline_navigator_on E w :
  navigatorOnLine E (clock w) = true ->
  OnlineFirstService.isOnline E w =
  (set_clock (S (S (clock w)))
     (emit (EvHttp (probeRequest E w)) (set_clock (S (clock w)) w)),
   Ok (match probeAnswer E w with
       | Responded st _ => (st <? 500)%Z
       | Failed _ _ => false
       end)).
Proof.
  intros H.
  unfold OnlineFirstService.isOnline, readNavigatorOnLine, bind, tick, ret.
  simpl. rewrite H.
  unfold OnlineApiService.checkConnectivity, OnlineApiService.clientRequest,
    OnlineApiService.axiosSend, tryCatch, bind, getWorld, log, modify, tick, ret,
    throw, logout. simpl.
  unfold probeAnswer, probeRequest.
  destruct (transport E (S (clock w)) _) as [st d|c msg]; simpl.
  - unfold OnlineApiService.probeStatus.
    destruct (st =? 0)%Z eqn:H0; simpl.
    + apply Z.eqb_eq in H0. subst st. reflexivity.
    + destruct (st <? 500)%Z eqn:H5; simpl.
      * rewrite H5. reflexivity.
      * unfold OnlineApiService.isAuthStatus. simpl.
        apply Z.ltb_ge in H5.
        destruct (Z.eqb_spec st 401); [lia|].
        destruct (Z.eqb_spec st 403); [lia|]. reflexivity.
  - reflexivity.
Qed.

(** C8.  [isOnline] never throws and answers true exactly when the platform
    reports the network reachable and the probe, a GET of /auth/me with a
    5000 ms timeout, is answered with an HTTP status below 500 (so 401 and
    403 count as reachable); a probe without a response counts as
    unreachable, and the probe is not even sent when the platform reports
    the network down. *)
Theorem isOnline_iff_platform_and_probe_below_500 E w :
  exists b,
    result (OnlineFirstService.isOnline E) w = Ok b /\
    (b = true <->
     navigatorOnLine E (clock w) = true /\
     exists st d, probeAnswer E w = Responded st d /\ (st < 500)%Z) /\
    httpRequests (trace (exec (OnlineFirstService.isOnline E) w))
    = httpRequests (trace w)
      ++ (if navigatorOnLine E (clock w) then [probeRequest E w] else []) /\
    method (probeRequest E w) = GET /\
    url (probeRequest E w) = (baseURL E ++ "/auth/me")%string /\
    timeout (probeRequest E w) = 5000%Z.
Proof.
  destruct (navigatorOnLine E (clock w)) eqn:Hn.
  - exists (match probeAnswer E w with
            | Responded st _ => (st <? 500)%Z
            | Failed _ _ => false
            end).
    unfold result, exec. rewrite (isOnline_navigator_on E w Hn). simpl.
    split; [reflexivity|]. split; [|split; [|repeat split]].
    + destruct (probeAnswer E w) as [st d|c msg].
      * split.
        -- intros H. split; [reflexivity|]. exists st, d. split; [reflexivity|].
           apply Z.ltb_lt. exact H.
        -- intros [_ (st' & d' & He & Hlt)]. inversion He. subst. apply Z.ltb_lt. exact Hlt.
      * split; [discriminate|]. intros [_ (st' & d' & He & _)]. discriminate He.
    + rewrite httpRequests_app. reflexivity.
  - exists false. unfold result, exec. rewrite (isOnline_navigator_off E w Hn). simpl.
    split; [reflexivity|]. split; [|split; [|repeat split]].
    + split; [discriminate|]. intros [H _]. discriminate H.
    + rewrite app_nil_r. reflexivity.
Qed.

(* ===================================================================== *)
(** ** Error classification                                               *)
(* ===================================================================== *)

Lemma networkCondition_iff e :
  OnlineApiService.networkCondition e = true <->
  response e = None \/ code e = Some "ECONNABORTED"%string \/
  code e = Some "ECONNREFUSED"%string \/ code e = Some "ENOTFOUND"%string.
Proof.
  unfold OnlineApiService.networkCondition, OnlineApiService.codeIs,
    OnlineApiService.hasResponse.
  destruct (code e) as [c|]; destruct (response e) as [r|]; simpl.
  - destruct (String.eqb_spec c "ECONNREFUSED"); simpl; [subst; tauto|].
    destruct (String.eqb_spec c "ENOTFOUND"); simpl; [subst; tauto|].
    destruct (String.eqb_spec c "ECONNABORTED"); simpl; [subst; tauto|].
    split; [discriminate|].
    intros [H|[H|[H|H]]]; try discriminate H; inversion H; congruence.
  - rewrite !orb_true_r. tauto.
  - split; [discriminate|]. intros [H|[H|[H|H]]]; discriminate H.
  - tauto.
Qed.

Lemma handleError_network e :
  OnlineApiService.isNetworkError (OnlineApiService.handleError e)
  = OnlineApiService.networkCondition e.
Proof.
  unfold OnlineApiService.handleError.
  destruct (OnlineApiService.networkCondition e); reflexivity.
Qed.

Lemma api_post_throws E ep d w err :
  result (OnlineApiService.post E ep d) w = Throw err ->
  exists e, err = OnlineApiService.handleError e.
Proof.
  unfold result, OnlineApiService.post, tryCatch, bind.
  destruct (OnlineApiService.clientRequest E POST ep d 10000 _ w) as [w1 [r|t]]; simpl.
  - discriminate.
  - intros H. inversion H. eexists. reflexivity.
Qed.

Lemma api_put_throws E ep d w err :
  result (OnlineApiService.put E ep d) w = Throw err ->
  exists e, err = OnlineApiService.handleError e.
Proof.
  unfold result, OnlineApiService.put, tryCatch, bind.
  destruct (OnlineApiService.clientRequest E PUT ep d 10000 _ w) as [w1 [r|t]]; simpl.
  - discriminate.
  - intros H. inversion H. eexists. reflexivity.
Qed.

Lemma api_delete_throws E ep w err :
  result (OnlineApiService.delete E ep) w = Throw err ->
  exists e, err = OnlineApiService.handleError e.
Proof.
  unfold result, OnlineApiService.delete, tryCatch, bind.
  destruct (OnlineApiService.clientRequest E DELETE ep JUndefined 10000 _ w)
    as [w1 [r|t]]; simpl.
  - discriminate.
  - intros H. inversion H. eexists. reflexivity.
Qed.

Lemma api_get_throws E ep w err :
  result (OnlineApiService.get E ep) w = Throw err ->
  exists e, err = OnlineApiService.handleError e.
Proof.
  unfold result, OnlineApiService.get, OnlineApiService.axiosSend, bind, getWorld,
    log, modify, tick, ret, throw. simpl.
  destruct (OnlineApiService.settle _ _) as [r|e]; simpl.
  - discriminate.
  - intros H. inversion H. eexists. reflexivity.
Qed.

Ltac router_branch :=
  unfold exec, result, bind, tryCatch;
  match goal with
  | |- context [OnlineFirstService.isOnline ?E ?w] =>
      destruct (OnlineFirstService.isOnline E w) as [?w1 ?o]; simpl;
      intros ->; simpl
  end;
  match goal with
  | |- context [match ?call ?w1 with _ => _ end] =>
      destruct (call w1) as [?w2 [?r|?e]]; simpl
  end.

Section RouterBranches.
Variable E : Env.

Local Abbreviation online w := (exec (OnlineFirstService.isOnline E) w).

Lemma router_get_error ep cmd args w err :
  result (OnlineFirstService.isOnline E) w = Ok true ->
  result (OnlineApiService.get E ep) (online w) = Throw err ->
  OnlineFirstService.get E ep cmd args w
  = (if OnlineApiService.isNetworkError err then invoke E cmd args else throw err)
      (exec (OnlineApiService.get E ep) (online w)).
Proof.
  unfold OnlineFirstService.get, OnlineFirstService.updateLocalData.
  router_branch; intros H; inversion H; subst; reflexivity.
Qed.

Lemma router_create_error ep d cmd opT w err :
  result (OnlineFirstService.isOnline E) w = Ok true ->
  result (OnlineApiService.post E ep d) (online w) = Throw err ->
  OnlineFirstService.create E ep d cmd opT w
  = (if OnlineApiService.isNetworkError err
     then OnlineFirstService.createOfflineAndQueue E d ep cmd opT else throw err)
      (exec (OnlineApiService.post E ep d) (online w)).
Proof.
  unfold OnlineFirstService.create, OnlineFirstService.updateLocalData.
  router_branch; intros H; inversion H; subst; reflexivity.
Qed.

Lemma router_update_error ep d cmd args opT w err :
  result (OnlineFirstService.isOnline E) w = Ok true ->
  result (OnlineApiService.put E ep d) (online w) = Throw err ->
  OnlineFirstService.update E ep d cmd args opT w
  = (if OnlineApiService.isNetworkError err
     then OnlineFirstService.updateOfflineAndQueue E d ep cmd args opT else throw err)
      (exec (OnlineApiService.put E ep d) (online w)).
Proof.
  unfold OnlineFirstService.update, OnlineFirstService.updateLocalData.
  router_branch; intros H; inversion H; subst; reflexivity.
Qed.

Lemma router_delete_error ep cmd args opT w err :
  result (OnlineFirstService.isOnline E) w = Ok true ->
  result (OnlineApiService.delete E ep) (online w) = Throw err ->
  OnlineFirstService.delete E ep cmd args opT w
  = (if OnlineApiService.isNetworkError err
     then OnlineFirstService.deleteOfflineAndQueue E ep cmd args opT else throw err)
      (exec (OnlineApiService.delete E ep) (online w)).
Proof.
  unfold OnlineFirstService.delete.
  router_branch; intros H; inversion H; subst; reflexivity.
Qed.

Lemma router_create_success ep d cmd opT w r :
  result (OnlineFirstService.isOnline E) w = Ok true ->
  result (OnlineApiService.post E ep d) (online w) = Ok r ->
  OnlineFirstService.create E ep d cmd opT w
  = (exec (OnlineApiService.post E ep d) (online w), Ok r).
Proof.
  unfold OnlineFirstService.create, OnlineFirstService.updateLocalData.
  router_branch; intros H; inversion H; subst; reflexivity.
Qed.

Lemma router_update_success ep d cmd args opT w r :
  result (OnlineFirstService.isOnline E) w = Ok true ->
  result (OnlineApiService.put E ep d) (online w) = Ok r ->
  OnlineFirstService.update E ep d cmd args opT w
  = (exec (OnlineApiService.put E ep d) (online w), Ok r).
Proof.
  unfold OnlineFirstService.update, OnlineFirstService.updateLocalData.
  router_branch; intros H; inversion H; subst; reflexivity.
Qed.

Lemma router_get_success ep cmd args w r :
  result (OnlineFirstService.isOnline E) w = Ok true ->
  result (OnlineApiService.get E ep) (online w) = Ok r ->
  OnlineFirstService.get E ep cmd args w
  = (exec (OnlineApiService.get E ep) (online w), Ok r).
Proof.
  unfold OnlineFirstService.get, OnlineFirstService.updateLocalData.
  router_branch; intros H; inversion H; subst; reflexivity.
Qed.

(** After a successful remote delete the local removal runs; its own
    rejection is what the caller gets. *)
Lemma router_delete_success ep cmd args opT w r :
  result (OnlineFirstService.isOnline E) w = Ok true ->
  result (OnlineApiService.delete E ep) (online w) = Ok r ->
  OnlineFirstService.delete E ep cmd args opT w
  = (let w2 := exec (OnlineApiService.delete E ep) (online w) in
     (exec (invoke E cmd args) w2,
      match result (invoke E cmd args) w2 with
      | Ok _ => Ok r
      | Throw t => Throw t
      end)).
Proof.
  unfold OnlineFirstService.delete.
  router_branch; intros H; inversion H; subst.
  unfold invoke, bind, log, modify, tick, ret, throw. simpl.
  destruct (tauriInvoke E _ cmd args); reflexivity.
Qed.

Lemma router_offline_get ep cmd args w :
  result (OnlineFirstService.isOnline E) w = Ok false ->
  OnlineFirstService.get E ep cmd args w = invoke E cmd args (online w).
Proof.
  unfold OnlineFirstService.get, exec, result, bind.
  destruct (OnlineFirstService.isOnline E w) as [w1 o]; simpl. intros ->. reflexivity.
Qed.

Lemma router_offline_create ep d cmd opT w :
  result (OnlineFirstService.isOnline E) w = Ok false ->
  OnlineFirstService.create E ep d cmd opT w
  = OnlineFirstService.createOfflineAndQueue E d ep cmd opT (online w).
Proof.
  unfold OnlineFirstService.create, exec, result, bind.
  destruct (OnlineFirstService.isOnline E w) as [w1 o]; simpl. intros ->. reflexivity.
Qed.

Lemma router_offline_update ep d cmd args opT w :
  result (OnlineFirstService.isOnline E) w = Ok false ->
  OnlineFirstService.update E ep d cmd args opT w
  = OnlineFirstService.updateOfflineAndQueue E d ep cmd args opT (online w).
Proof.
  unfold OnlineFirstService.update, exec, result, bind.
  destruct (OnlineFirstService.isOnline E w) as [w1 o]; simpl. intros ->. reflexivity.
Qed.

Lemma router_offline_delete ep cmd args opT w :
  result (OnlineFirstService.isOnline E) w = Ok false ->
  OnlineFirstService.delete E ep cmd args opT w
  = OnlineFirstService.deleteOfflineAndQueue E ep cmd args opT (online w).
Proof.
  unfold OnlineFirstService.delete, exec, result, bind.
  destruct (OnlineFirstService.isOnline E w) as [w1 o]; simpl. intros ->. reflexivity.
Qed.

End RouterBranches.

(** C3.  What the API layer throws is classified by [handleError] alone: a
    network error exactly when the axios error has no response or carries
    the timeout code ECONNABORTED, the refused-connection code ECONNREFUSED
    or the DNS code ENOTFOUND.  The HTTP status of a received response plays
    no part.  Each of the four router operations, once online, decides
    between the local fallback and rethrowing with the same predicate
    [isNetworkError] on the error the API layer threw. *)
Theorem network_failure_classification E :
  (forall e,
      OnlineApiService.isNetworkError (OnlineApiService.handleError e) = true <->
      response e = None \/ code e = Some "ECONNABORTED"%string \/
      code e = Some "ECONNREFUSED"%string \/ code e = Some "ENOTFOUND"%string) /\
  (forall c m st d st' d',
      OnlineApiService.isNetworkError
        (OnlineApiService.handleError
           {| code := c; message := m; response := Some {| status := st; body := d |} |})
      = OnlineApiService.isNetworkError
          (OnlineApiService.handleError
             {| code := c; message := m;
                response := Some {| status := st'; body := d' |} |})) /\
  (forall ep cmd args w err,
      result (OnlineFirstService.isOnline E) w = Ok true ->
      result (OnlineApiService.get E ep) (exec (OnlineFirstService.isOnline E) w)
      = Throw err ->
      (exists e, err = OnlineApiService.handleError e) /\
      OnlineFirstService.get E ep cmd args w
      = (if OnlineApiService.isNetworkError err then invoke E cmd args else throw err)
          (exec (OnlineApiService.get E ep) (exec (OnlineFirstService.isOnline E) w))) /\
  (forall ep d cmd opT w err,
      result (OnlineFirstService.isOnline E) w = Ok true ->
      result (OnlineApiService.post E ep d) (exec (OnlineFirstService.isOnline E) w)
      = Throw err ->
      (exists e, err = OnlineApiService.handleError e) /\
      OnlineFirstService.create E ep d cmd opT w
      = (if OnlineApiService.isNetworkError err
         then OnlineFirstService.createOfflineAndQueue E d ep cmd opT else throw err)
          (exec (OnlineApiService.post E ep d) (exec (OnlineFirstService.isOnline E) w))) /\
  (forall ep d cmd args opT w err,
      result (OnlineFirstService.isOnline E) w = Ok true ->
      result (OnlineApiService.put E ep d) (exec (OnlineFirstService.isOnline E) w)
      = Throw err ->
      (exists e, err = OnlineApiService.handleError e) /\
      OnlineFirstService.update E ep d cmd args opT w
      = (if OnlineApiService.isNetworkError err
         then OnlineFirstService.updateOfflineAndQueue E d ep cmd args opT else throw err)
          (exec (OnlineApiService.put E ep d) (exec (OnlineFirstService.isOnline E) w))) /\
  (forall ep cmd args opT w err,
      result (OnlineFirstService.isOnline E) w = Ok true ->
      result (OnlineApiService.delete E ep) (exec (OnlineFirstService.isOnline E) w)
      = Throw err ->
      (exists e, err = OnlineApiService.handleError e) /\
      OnlineFirstService.delete E ep cmd args opT w
      = (if OnlineApiService.isNetworkError err
         then OnlineFirstService.deleteOfflineAndQueue E ep cmd args opT else throw err)
          (exec (OnlineApiService.delete E ep) (exec (OnlineFirstService.isOnline E) w))).
Proof.
  split; [|split; [|split; [|split; [|split]]]].
  - intros e. rewrite handleError_network. apply networkCondition_iff.
  - intros. rewrite !handleError_network. reflexivity.
  - intros ep cmd args w err Ho He. split.
    + eapply api_get_throws; exact He.
    + apply router_get_error; assumption.
  - intros ep d cmd opT w err Ho He. split.
    + eapply api_post_throws; exact He.
    + apply router_create_error; assumption.
  - intros ep d cmd args opT w err Ho He. split.
    + eapply api_put_throws; exact He.
    + apply router_update_error; assumption.
  - intros ep cmd args opT w err Ho He. split.
    + eapply api_delete_throws; exact He.
    + apply router_delete_error; assumption.
Qed.

Lemma network_failure_classification_witness :
  OnlineApiService.isNetworkError (OnlineApiService.handleError timeoutError) = true /\
  OnlineFirstService.create envTimeout "/inventory/products" milk "create_product"
    "product_create" (emptyWorld true)
  = OnlineFirstService.createOfflineAndQueue envTimeout milk "/inventory/products"
      "create_product" "product_create"
      (exec (OnlineApiService.post envTimeout "/inventory/products" milk)
         (exec (OnlineFirstService.isOnline envTimeout) (emptyWorld true))).
Proof.
  split.
  - apply (proj2 (proj1 (network_failure_classification envTimeout) timeoutError)).
    right. left. reflexivity.
  - apply (proj2 (proj1 (proj2 (proj2 (proj2 (network_failure_classification envTimeout))))
                    "/inventory/products"%string milk "create_product"%string
                    "product_create"%string (emptyWorld true)
                    (NetworkError "timeout of 10000ms exceeded")
                    eq_refl eq_refl)).
Defined.

(* ===================================================================== *)
(** ** Offline mutations                                                  *)
(* ===================================================================== *)

Lemma isOnline_store E w : store (exec (OnlineFirstService.isOnline E) w) = store w.
Proof.
  unfold exec. destruct (navigatorOnLine E (clock w)) eqn:H.
  - rewrite (isOnline_navigator_on E w H). reflexivity.
  - rewrite (isOnline_navigator_off E w H). reflexivity.
Qed.

Lemma isOnline_total E w : exists b, result (OnlineFirstService.isOnline E) w = Ok b.
Proof.
  unfold result. destruct (navigatorOnLine E (clock w)) eqn:H.
  - rewrite (isOnline_navigator_on E w H). eexists. reflexivity.
  - rewrite (isOnline_navigator_off E w H). eexists. reflexivity.
Qed.

Lemma offlineAndQueue_run E w cmd args opT ep method d toast r t :
  tauriInvoke E (clock w) cmd args = LocalOk r ->
  nth_error (split "_" opT) 1 = Some t ->
  (res <- invoke E cmd args ;;
   OnlineFirstService.addToSyncQueue E opT ep method d ;;;
   log (EvToastSuccess toast) ;;;
   ret res)%monad w
  = (let w1 := set_clock (S (clock w)) w in
     let op := queuedAt E w1 opT ep method d t in
     {| store := enqueue op (store w); authToken := authToken w;
        syncInterval := syncInterval w; isInitialized := isInitialized w;
        timeouts := timeouts w; clock := 4 + clock w;
        trace := trace w ++ [EvInvoke cmd args; EvEnqueue op; EvToastSuccess toast] |},
     Ok r).
Proof.
  intros Hi Ht.
  unfold OnlineFirstService.addToSyncQueue. rewrite Ht.
  unfold invoke, addToQueue, now, random36, bind, log, modify, modifyStore, tick,
    ret, throw, queuedAt.
  cbn -[split nth newOperation]. rewrite Hi.
  cbn -[split nth newOperation]. unfold emit, set_store, set_clock.
  cbn -[split nth newOperation]. rewrite <- !app_assoc. reflexivity.
Qed.

(** C4.  A create, update or delete issued while [isOnline] answers false
    returns the Local Data Store's result, appends exactly one operation
    with [retryCount = 0] to the queue, and does so after the local
    mutation: the trace gains the local command, then the enqueue, then the
    toast.  The local command is assumed to answer (with [r]) and the
    operation type to be of the form entity_type. *)
Theorem offline_mutation_local_then_enqueue
    E w ep d cmd args opT t r :
  result (OnlineFirstService.isOnline E) w = Ok false ->
  nth_error (split "_" opT) 1 = Some t ->
  tauriInvoke E (clock (exec (OnlineFirstService.isOnline E) w)) cmd d = LocalOk r ->
  tauriInvoke E (clock (exec (OnlineFirstService.isOnline E) w)) cmd args = LocalOk r ->
  let w1 := exec (OnlineFirstService.isOnline E) w in
  let at1 := set_clock (S (clock w1)) w1 in
  (let op := queuedAt E at1 opT ep "POST" d t in
   let m := OnlineFirstService.create E ep d cmd opT in
   result m w = Ok r /\
   syncQueue (store (exec m w)) = syncQueue (store w) ++ [op] /\
   retryCount op = 0%Z /\
   trace (exec m w)
   = trace w1 ++ [EvInvoke cmd d; EvEnqueue op;
                  EvToastSuccess "Created offline. Will sync when online."]) /\
  (let op := queuedAt E at1 opT ep "PUT" d t in
   let m := OnlineFirstService.update E ep d cmd args opT in
   result m w = Ok r /\
   syncQueue (store (exec m w)) = syncQueue (store w) ++ [op] /\
   retryCount op = 0%Z /\
   trace (exec m w)
   = trace w1 ++ [EvInvoke cmd args; EvEnqueue op;
                  EvToastSuccess "Updated offline. Will sync when online."]) /\
  (let op := queuedAt E at1 opT ep "DELETE" (JObj []) t in
   let m := OnlineFirstService.delete E ep cmd args opT in
   result m w = Ok r /\
   syncQueue (store (exec m w)) = syncQueue (store w) ++ [op] /\
   retryCount op = 0%Z /\
   trace (exec m w)
   = trace w1 ++ [EvInvoke cmd args; EvEnqueue op;
                  EvToastSuccess "Deleted offline. Will sync when online."]).
Proof.
  intros Hoff Ht Hd Ha w1 at1.
  pose proof (isOnline_store E w) as Hst. fold w1 in Hst.
  split; [|split].
  - cbv zeta. unfold result, exec.
    rewrite (router_offline_create E ep d cmd opT w Hoff).
    unfold OnlineFirstService.createOfflineAndQueue. fold w1.
    rewrite (offlineAndQueue_run E w1 cmd d opT ep "POST" d _ r t Hd Ht).
    cbn -[queuedAt]. rewrite Hst. repeat split; reflexivity.
  - cbv zeta. unfold result, exec.
    rewrite (router_offline_update E ep d cmd args opT w Hoff).
    unfold OnlineFirstService.updateOfflineAndQueue. fold w1.
    rewrite (offlineAndQueue_run E w1 cmd args opT ep "PUT" d _ r t Ha Ht).
    cbn -[queuedAt]. rewrite Hst. repeat split; reflexivity.
  - cbv zeta. unfold result, exec.
    rewrite (router_offline_delete E ep cmd args opT w Hoff).
    unfold OnlineFirstService.deleteOfflineAndQueue. fold w1.
    rewrite (offlineAndQueue_run E w1 cmd args opT ep "DELETE" (JObj []) _ r t Ha Ht).
    cbn -[queuedAt]. rewrite Hst. repeat split; reflexivity.
Qed.

Lemma offline_mutation_local_then_enqueue_witness :
  let m := OnlineFirstService.create envOffline "/inventory/products" milk
             "create_product" "product_create" in
  result m (emptyWorld false) = Ok (JNum 1) /\
  List.length (syncQueue (store (exec m (emptyWorld false)))) = 1 /\
  map retryCount (syncQueue (store (exec m (emptyWorld false)))) = [0%Z] /\
  invokes (trace (exec m (emptyWorld false))) = [("create_product"%string, milk)].
Proof.
  destruct (offline_mutation_local_then_enqueue envOffline (emptyWorld false)
              "/inventory/products" milk "create_product" milk "product_create"
              "create" (JNum 1) eq_refl eq_refl eq_refl eq_refl)
    as [(Hr & Hq & Hc & Htr) _].
  cbv zeta. split; [exact Hr|]. rewrite Hq, Htr. repeat split.
Defined.

(* ===================================================================== *)
(** ** Mirroring after an online mutation                                 *)
(* ===================================================================== *)

(** C2 (the code departs from the claim).  Online, with the server accepting
    the creation of a product and returning it with its identifier, the
    router returns the server's object but issues no local command at all:
    the Local Data Store is not written.  The online delete next to it does
    run its local command. *)
Theorem online_create_leaves_local_store_unwritten :
  let E := envServer (Responded 201 serverMilk) in
  let create := OnlineFirstService.products_create E milk in
  let update := OnlineFirstService.products_update E (JNum 42) milk in
  let delete := OnlineFirstService.products_delete E (JNum 42) in
  result create (emptyWorld true) = Ok serverMilk /\
  List.length (httpRequests (trace (exec create (emptyWorld true)))) = 2 /\
  invokes (trace (exec create (emptyWorld true))) = [] /\
  result update (emptyWorld true) = Ok serverMilk /\
  invokes (trace (exec update (emptyWorld true))) = [] /\
  invokes (trace (exec delete (emptyWorld true)))
  = [("delete_product"%string, JObj [("id"%string, JNum 42)])].
Proof. vm_compute. repeat split. Qed.

(* ===================================================================== *)
(** ** The retry ceiling                                                  *)
(* ===================================================================== *)

(** C1 (the code departs from the claim).  A queued update with
    [maxRetries = 3] whose replay is refused by the server on every pass is
    still in the queue after three failed replays, with [retryCount = 3] and
    no sync error; it is evicted by the fourth failed replay, whose message
    nevertheless reads "after 3 attempts". *)
Theorem retry_ceiling_is_off_by_one :
  let after n := exec (Scheduler.passes envNotFound n) (worldWith [failingUpdate]) in
  map retryCount (syncQueue (store (after 3))) = [3%Z] /\
  syncErrors (store (after 3)) = [] /\
  replays (trace (after 3)) = ["op-1"; "op-1"; "op-1"]%string /\
  syncQueue (store (after 4)) = [] /\
  syncErrors (store (after 4)) = ["Failed to sync product UPDATE after 3 attempts"%string] /\
  replays (trace (after 4)) = ["op-1"; "op-1"; "op-1"; "op-1"]%string.
Proof. vm_compute. repeat split. Qed.

(* ===================================================================== *)
(** ** The fate of one operation in a pass                                *)
(* ===================================================================== *)

Section Fate.
Variable E : Env.

Lemma keptOps_ids ops : forall w, incl (ids (keptOps E ops w)) (ids ops).
Proof.
  induction ops as [|a r IH]; intros w; simpl; [apply incl_refl|].
  rewrite ids_app. apply incl_app.
  - destruct (andb (threw E a w) (negb (exhausted a))); simpl.
    + intros x [H|[]]. left. exact H.
    + intros x [].
  - apply incl_tl. apply IH.
Qed.

Lemma passLogs_ids ops : forall w l i,
  In l (passLogs E ops w) -> logId l = Some i -> In i (ids ops).
Proof.
  induction ops as [|a r IH]; intros w l i Hin Hid; simpl in *; [contradiction|].
  apply in_app_or in Hin. destruct Hin as [Hin|Hin].
  - left. unfold verdictLogs in Hin.
    destruct (threw E a w); [destruct (exhausted a)|]; simpl in Hin;
      repeat (destruct Hin as [Hin|Hin]; [subst l; simpl in Hid; congruence|]);
      contradiction.
  - right. eapply IH; eassumption.
Qed.

Lemma same_id_same_op (ops : list QueuedOperation) a b :
  NoDup (ids ops) -> In a ops -> In b ops -> id a = id b -> a = b.
Proof.
  induction ops as [|x r IH]; simpl; intros Hnd Ha Hb He; [contradiction|].
  inversion Hnd as [|? ? Hx Hr]; subst.
  destruct Ha as [->|Ha], Hb as [->|Hb]; try reflexivity.
  - exfalso. apply Hx. rewrite He. apply in_map. exact Hb.
  - exfalso. apply Hx. rewrite <- He. apply in_map. exact Ha.
  - apply IH; assumption.
Qed.

(** Either the operation is kept with its counter raised and the pass wrote
    neither "synced" nor "exceeded" for it, or its identifier is gone and
    the pass wrote one of the two. *)
Lemma fate ops : forall w op,
  NoDup (ids ops) -> In op ops ->
  (In (bumpRetry op) (keptOps E ops w) /\
   ~ In (LogSynced (id op)) (passLogs E ops w) /\
   ~ In (LogExceeded (id op)) (passLogs E ops w))
  \/
  (~ In (id op) (ids (keptOps E ops w)) /\
   (In (LogSynced (id op)) (passLogs E ops w) \/
    In (LogExceeded (id op)) (passLogs E ops w))).
Proof.
  induction ops as [|a r IH]; intros w op Hnd Hin; [contradiction|].
  simpl in Hnd. inversion Hnd as [|? ? Ha Hr]; subst.
  simpl. set (w2 := exec (SyncService.syncOne E a) w).
  destruct Hin as [->|Hin].
  - assert (HK : ~ In (id op) (ids (keptOps E r w2))).
    { intros H. apply Ha. apply (keptOps_ids r w2). exact H. }
    assert (HP : forall l, logId l = Some (id op) -> ~ In l (passLogs E r w2)).
    { intros l Hl H. apply Ha. eapply passLogs_ids; eassumption. }
    unfold verdictLogs. destruct (threw E op w); simpl.
    + destruct (exhausted op); simpl.
      * right. split; [exact HK|]. right. right. left. reflexivity.
      * left. split; [left; reflexivity|]. split.
        -- intros [H|H]; [discriminate H | exact (HP (LogSynced (id op)) eq_refl H)].
        -- intros [H|H]; [discriminate H | exact (HP (LogExceeded (id op)) eq_refl H)].
    + right. split; [exact HK|]. left. left. reflexivity.
  - assert (Hne : id a <> id op).
    { intros He. apply Ha. rewrite He. apply in_map. exact Hin. }
    assert (Hka : forall x, In x (if andb (threw E a w) (negb (exhausted a))
                                  then [bumpRetry a] else []) -> id x = id a).
    { intros x. destruct (andb (threw E a w) (negb (exhausted a))); simpl;
        [intros [<-|[]]; reflexivity | intros []]. }
    assert (Hla : forall l, In l (verdictLogs a (threw E a w)) -> logId l = Some (id a)).
    { intros l. unfold verdictLogs.
      destruct (threw E a w); [destruct (exhausted a)|]; simpl; intros H;
        repeat (destruct H as [H|H]; [subst l; reflexivity|]); contradiction. }
    destruct (IH w2 op Hr Hin) as [(H1 & H2 & H3)|(H1 & H2)].
    + left. split; [apply in_or_app; right; exact H1|]. split.
      * intros H. apply in_app_or in H. destruct H as [H|H]; [|exact (H2 H)].
        apply Hla in H. simpl in H. congruence.
      * intros H. apply in_app_or in H. destruct H as [H|H]; [|exact (H3 H)].
        apply Hla in H. simpl in H. congruence.
    + right. split.
      * rewrite ids_app. intros H. apply in_app_or in H. destruct H as [H|H]; [|exact (H1 H)].
        apply in_map_iff in H. destruct H as [x [Hx Hxin]]. apply Hka in Hxin. congruence.
      * destruct H2 as [H2|H2]; [left | right]; apply in_or_app; right; exact H2.
Qed.

Lemma logsSince_pass w :
  Ready E w -> syncQueue (store w) <> [] ->
  logsSince w (exec (SyncService.performSync E) w)
  = LogStarting (List.length (syncQueue (store w)))
    :: passLogs E (syncQueue (store w)) (started E w) ++ [LogCompleted].
Proof.
  intros HR Hne. unfold logsSince.
  destruct (performSync_spec E w HR Hne) as (_ & _ & Hl & _).
  rewrite Hl. rewrite skipn_app, skipn_all, Nat.sub_diag. reflexivity.
Qed.

End Fate.

Section FateOfSteadyOperations.
Variable E : Env.

(** Operations whose replay outcome does not depend on the world. *)
Lemma kept_when_always_failing ops : forall w op,
  (forall w0, threw E op w0 = true) -> exhausted op = false -> In op ops ->
  In (bumpRetry op) (keptOps E ops w).
Proof.
  induction ops as [|a r IH]; intros w op Hf Hx Hin; [contradiction|].
  simpl. apply in_or_app. destruct Hin as [->|Hin].
  - left. rewrite Hf, Hx. left. reflexivity.
  - right. apply IH; assumption.
Qed.

Lemma error_when_always_failing ops : forall w op,
  (forall w0, threw E op w0 = true) -> exhausted op = true -> In op ops ->
  In (SyncService.syncErrorMessage op) (newErrors E ops w) /\
  In (LogExceeded (id op)) (passLogs E ops w).
Proof.
  induction ops as [|a r IH]; intros w op Hf Hx Hin; [contradiction|].
  simpl. destruct Hin as [->|Hin].
  - unfold verdictErrors, verdictLogs. rewrite Hf, Hx. simpl.
    split; [left; reflexivity | right; left; reflexivity].
  - destruct (IH (exec (SyncService.syncOne E a) w) op Hf Hx Hin) as [H1 H2].
    split; apply in_or_app; right; assumption.
Qed.

Lemma synced_when_never_failing ops : forall w op,
  (forall w0, threw E op w0 = false) -> In op ops ->
  In (LogSynced (id op)) (passLogs E ops w).
Proof.
  induction ops as [|a r IH]; intros w op Hf Hin; [contradiction|].
  simpl. apply in_or_app. destruct Hin as [->|Hin].
  - left. unfold verdictLogs. rewrite Hf. left. reflexivity.
  - right. apply IH; assumption.
Qed.

Lemma no_failure_logged_when_never_failing ops : forall w op,
  NoDup (ids ops) -> In op ops -> (forall w0, threw E op w0 = false) ->
  ~ In (LogFailed (id op)) (passLogs E ops w).
Proof.
  induction ops as [|a r IH]; intros w op Hnd Hin Hnt H; [contradiction|].
  simpl in H, Hnd. inversion Hnd as [|? ? Ha Hr]; subst.
  apply in_app_or in H. destruct H as [H|H].
  - unfold verdictLogs in H. destruct (threw E a w) eqn:Hta.
    + assert (Hid : id a = id op).
      { destruct (exhausted a); simpl in H.
        - destruct H as [H|[H|[]]]; [inversion H; reflexivity | discriminate H].
        - destruct H as [H|[]]. inversion H. reflexivity. }
      destruct Hin as [->|Hin]; [rewrite Hnt in Hta; discriminate|].
      apply Ha. rewrite Hid. apply in_map. exact Hin.
    + destruct H as [H|[]]. discriminate H.
  - destruct Hin as [->|Hin].
    + apply Ha. apply (passLogs_ids E r _ _ (id op) H). reflexivity.
    + exact (IH _ op Hr Hin Hnt H).
Qed.

(** Identifiers in the queue after a pass were there before or were built
    during the pass. *)
Lemma pass_ready_and_ids w :
  Ready E w ->
  let w' := exec (SyncService.performSync E) w in
  Ready E w' /\ clock w <= clock w' /\
  forall i, In i (ids (syncQueue (store w'))) ->
            In i (ids (syncQueue (store w))) \/ exists t, clock w <= t /\ i = genId E t.
Proof.
  intros HR w'.
  destruct (syncQueue (store w)) as [|a r] eqn:Hq.
  - assert (Hb : SyncService.blocked (store w) = true).
    { unfold SyncService.blocked. rewrite Hq. simpl. rewrite !orb_true_r. reflexivity. }
    unfold w', exec. rewrite (performSync_blocked E w Hb). simpl.
    split; [exact HR|]. split; [lia|]. intros i Hi. left. rewrite Hq in Hi. exact Hi.
  - assert (Hne : syncQueue (store w) <> []) by (rewrite Hq; discriminate).
    destruct (performSync_spec E w HR Hne) as ((added & ts & Hq' & Hb & Hi) & _ & _ & _ & HR').
    fold w' in Hq', Hi, HR'.
    split; [exact HR'|]. split.
    + apply increasing_le in Hi. lia.
    + intros i Hin. rewrite Hq', ids_app in Hin. apply in_app_or in Hin.
      destruct Hin as [Hin|Hin].
      * left. rewrite <- Hq. apply (keptOps_ids E _ _ _ Hin).
      * right. rewrite (builtAt_ids _ _ _ Hb) in Hin. apply in_map_iff in Hin.
        destruct Hin as [t [<- Ht]]. exists t. split; [|reflexivity].
        destruct (increasing_bounds _ _ _ _ Hi Ht). lia.
Qed.

Lemma passes_ready_and_ids n : forall w,
  Ready E w ->
  let w' := exec (Scheduler.passes E n) w in
  Ready E w' /\ clock w <= clock w' /\
  forall i, In i (ids (syncQueue (store w'))) ->
            In i (ids (syncQueue (store w))) \/ exists t, clock w <= t /\ i = genId E t.
Proof.
  induction n as [|n IH]; intros w HR.
  - unfold exec. simpl. split; [exact HR|]. split; [lia|]. intros i Hi. left. exact Hi.
  - cbv zeta. rewrite passes_S.
    destruct (pass_ready_and_ids w HR) as (HR1 & Hc1 & Hi1).
    destruct (IH _ HR1) as (HR2 & Hc2 & Hi2).
    split; [exact HR2|]. split; [lia|].
    intros i Hin. destruct (Hi2 i Hin) as [H|[t [Ht He]]].
    + exact (Hi1 i H).
    + right. exists t. split; [lia | exact He].
Qed.

(** An identifier that is not in the queue and that no later [addToQueue]
    builds stays out of the queue through any number of passes. *)
Lemma gone_stays_gone n w i :
  Ready E w ->
  ~ In i (ids (syncQueue (store w))) ->
  (forall t, clock w <= t -> genId E t <> i) ->
  ~ In i (ids (syncQueue (store (exec (Scheduler.passes E n) w)))).
Proof.
  intros HR Hout Hfresh Hin.
  destruct (passes_ready_and_ids n w HR) as (_ & _ & Hi).
  destruct (Hi i Hin) as [H|[t [Ht He]]].
  - exact (Hout H).
  - exact (Hfresh t Ht (eq_sym He)).
Qed.

End FateOfSteadyOperations.

(* ===================================================================== *)
(** ** Dispatch of a replay                                               *)
(* ===================================================================== *)

Lemma unknown_entity_throws E op w :
  ~ In (entity op) knownEntities ->
  SyncService.processOperation E op w
  = (emit (EvReplay (id op)) w,
     Throw (JsError ("Unknown entity type: " ++ entity op)%string)).
Proof.
  intros H. unfold SyncService.processOperation, SyncService.dispatch, bind, log, modify.
  simpl.
  destruct (String.eqb_spec (entity op) "product") as [e|_]; [exfalso; apply H; rewrite e; simpl; tauto|].
  destruct (String.eqb_spec (entity op) "user") as [e|_]; [exfalso; apply H; rewrite e; simpl; tauto|].
  destruct (String.eqb_spec (entity op) "order") as [e|_]; [exfalso; apply H; rewrite e; simpl; tauto|].
  destruct (String.eqb_spec (entity op) "supplier") as [e|_]; [exfalso; apply H; rewrite e; simpl; tauto|].
  reflexivity.
Qed.

Lemma unreplayed_type_is_noop E op w :
  In (entity op) knownEntities -> ~ In (type op) replayedTypes ->
  SyncService.processOperation E op w = (emit (EvReplay (id op)) w, Ok tt).
Proof.
  intros He Ht.
  assert (H1 : (type op =? "CREATE")%string = false).
  { destruct (String.eqb_spec (type op) "CREATE") as [e|_]; [|reflexivity].
    exfalso. apply Ht. rewrite e. simpl. tauto. }
  assert (H2 : (type op =? "UPDATE")%string = false).
  { destruct (String.eqb_spec (type op) "UPDATE") as [e|_]; [|reflexivity].
    exfalso. apply Ht. rewrite e. simpl. tauto. }
  assert (H3 : (type op =? "DELETE")%string = false).
  { destruct (String.eqb_spec (type op) "DELETE") as [e|_]; [|reflexivity].
    exfalso. apply Ht. rewrite e. simpl. tauto. }
  unfold SyncService.processOperation, SyncService.dispatch, bind, log, modify.
  simpl in He.
  destruct He as [<-|[<-|[<-|[<-|[]]]]]; simpl;
    unfold SyncService.syncProduct, SyncService.syncUser, SyncService.syncOrder,
      SyncService.syncSupplier; rewrite H1, H2, H3; reflexivity.
Qed.

(** Concrete environments build identifiers "0-a", "0-aa", ...: new and
    pairwise distinct. *)
Lemma letters_length n : String.length (letters n) = n.
Proof. induction n as [|n IH]; simpl; [reflexivity | f_equal; exact IH]. Qed.

Lemma demoEnv_Fresh online probe other local w :
  (forall i, In i (ids (syncQueue (store w))) -> prefix "0-" i = false) ->
  Fresh (demoEnv online probe other local) w.
Proof.
  intros H. split.
  - intros t _ Hin. apply H in Hin. discriminate Hin.
  - intros t t' _ Hlt He.
    assert (Hl : String.length (letters t) = String.length (letters t')).
    { unfold genId in He. simpl in He. inversion He as [He']. rewrite He'. reflexivity. }
    rewrite !letters_length in Hl. lia.
Qed.

(* ===================================================================== *)
(** ** Operations that fail on every replay                               *)
(* ===================================================================== *)

Section SteadyFailure.
Variable E : Env.

Lemma not_in_added w op added ts c' :
  Fresh E w -> In op (syncQueue (store w)) ->
  Forall2 (builtAt E) added ts -> increasing (S (clock w)) c' ts ->
  ~ In (id op) (ids added).
Proof.
  intros [F1 _] Hin Hb Hi H.
  rewrite (builtAt_ids _ _ _ Hb) in H. apply in_map_iff in H.
  destruct H as [t [He Ht]].
  destruct (increasing_bounds _ _ _ _ Hi Ht) as [Hlo _].
  apply (F1 t); [lia|]. rewrite He. apply in_map. exact Hin.
Qed.

Lemma failing_pass w op :
  (forall w0, threw E op w0 = true) ->
  Ready E w -> In op (syncQueue (store w)) ->
  let w' := exec (SyncService.performSync E) w in
  Ready E w' /\
  (if exhausted op
   then ~ In (id op) (ids (syncQueue (store w'))) /\
        In (SyncService.syncErrorMessage op) (syncErrors (store w'))
   else In (bumpRetry op) (syncQueue (store w'))).
Proof.
  intros Hf HR Hin w'.
  assert (Hne : syncQueue (store w) <> []).
  { intros H. rewrite H in Hin. contradiction. }
  destruct (performSync_spec E w HR Hne) as ((added & ts & Hq & Hb & Hi) & He & _ & _ & HR').
  fold w' in Hq, Hi, He, HR'. split; [exact HR'|].
  destruct HR as (_ & _ & Hnd & Hfr).
  destruct (exhausted op) eqn:Hx.
  - destruct (error_when_always_failing E _ (started E w) op Hf Hx Hin) as [Herr Hlog].
    split.
    + rewrite Hq, ids_app. intros H. apply in_app_or in H. destruct H as [H|H].
      * destruct (fate E _ (started E w) op Hnd Hin) as [(_ & _ & H3)|(H1 & _)].
        -- exact (H3 Hlog).
        -- exact (H1 H).
      * exact (not_in_added w op added ts _ Hfr Hin Hb Hi H).
    + rewrite He. exact Herr.
  - rewrite Hq. apply in_or_app. left.
    apply kept_when_always_failing; assumption.
Qed.

(** With [P] a property kept by [bumpRetry] that makes every replay throw:
    an operation satisfying it is evicted, with its error reported, by pass
    number (maxRetries - retryCount) + 1, and is in the queue until then. *)
Lemma steady_failure_eviction (P : QueuedOperation -> Prop) :
  (forall op, P op -> P (bumpRetry op)) ->
  (forall op w0, P op -> threw E op w0 = true) ->
  forall n op w,
    P op -> Ready E w -> In op (syncQueue (store w)) ->
    Z.to_nat (maxRetries op - retryCount op) = n ->
    (forall k, k <= n ->
       exists op', id op' = id op /\ retryCount op' = (retryCount op + Z.of_nat k)%Z /\
                   In op' (syncQueue (store (exec (Scheduler.passes E k) w)))) /\
    let w' := exec (Scheduler.passes E (S n)) w in
    ~ In (id op) (ids (syncQueue (store w'))) /\
    In (SyncService.syncErrorMessage op) (syncErrors (store w')).
Proof.
  intros Hbump Hthrow. induction n as [|n IH]; intros op w HP HR Hin Hn.
  - split.
    + intros k Hk. assert (k = 0) by lia. subst k. exists op.
      split; [reflexivity|]. split; [simpl; lia | exact Hin].
    + cbv zeta. rewrite passes_S. unfold Scheduler.passes, exec at 1. simpl.
      destruct (failing_pass w op (fun w0 => Hthrow op w0 HP) HR Hin) as [_ H].
      assert (Hx : exhausted op = true) by (unfold exhausted; apply Z.leb_le; lia).
      rewrite Hx in H. exact H.
  - assert (Hx : exhausted op = false) by (unfold exhausted; apply Z.leb_gt; lia).
    destruct (failing_pass w op (fun w0 => Hthrow op w0 HP) HR Hin) as [HR1 H].
    rewrite Hx in H.
    assert (Hn' : Z.to_nat (maxRetries (bumpRetry op) - retryCount (bumpRetry op)) = n).
    { simpl. lia. }
    destruct (IH (bumpRetry op) _ (Hbump op HP) HR1 H Hn') as [Hk Hfin].
    split.
    + intros k Hle. destruct k as [|k].
      * exists op. split; [reflexivity|]. split; [simpl; lia | exact Hin].
      * rewrite passes_S. destruct (Hk k) as (op' & Hi' & Hr' & Hin'); [lia|].
        exists op'. split; [exact Hi'|]. split; [|exact Hin'].
        rewrite Hr'. simpl. lia.
    + cbv zeta. rewrite passes_S. exact Hfin.
Qed.

End SteadyFailure.

(** C10.  A queued operation on entity 'movement' can never sync: every
    replay throws "Unknown entity type: movement" before any remote call.
    In a pass it stays in the queue with its counter raised while the
    eviction test does not hold, and is evicted with an entry in
    [syncErrors] once it does; after (maxRetries - retryCount) + 1 passes it
    is gone for good and reported. *)
Theorem movement_never_syncs E w op :
  entity op = "movement"%string -> Ready E w -> In op (syncQueue (store w)) ->
  (forall w0,
      SyncService.processOperation E op w0
      = (emit (EvReplay (id op)) w0, Throw (JsError "Unknown entity type: movement"))) /\
  (let w' := exec (SyncService.performSync E) w in
   if (retryCount op <? maxRetries op)%Z
   then In (bumpRetry op) (syncQueue (store w'))
   else ~ In (id op) (ids (syncQueue (store w'))) /\
        In (SyncService.syncErrorMessage op) (syncErrors (store w'))) /\
  (let n := Z.to_nat (maxRetries op - retryCount op) in
   (forall k, k <= n ->
      In (id op) (ids (syncQueue (store (exec (Scheduler.passes E k) w))))) /\
   let w' := exec (Scheduler.passes E (S n)) w in
   ~ In (id op) (ids (syncQueue (store w'))) /\
   In (SyncService.syncErrorMessage op) (syncErrors (store w'))).
Proof.
  intros He HR Hin.
  assert (Hunknown : forall o, entity o = "movement"%string -> ~ In (entity o) knownEntities).
  { intros o Ho. rewrite Ho. simpl. intuition discriminate. }
  assert (Hthrow : forall o w0, entity o = "movement"%string -> threw E o w0 = true).
  { intros o w0 Ho. unfold threw, result.
    rewrite (unknown_entity_throws E o w0 (Hunknown o Ho)). reflexivity. }
  split; [|split].
  - intros w0. rewrite (unknown_entity_throws E op w0 (Hunknown op He)), He. reflexivity.
  - destruct (failing_pass E w op (fun w0 => Hthrow op w0 He) HR Hin) as [_ H].
    unfold exhausted in H. cbv zeta.
    destruct (Z.ltb_spec (retryCount op) (maxRetries op)) as [Hlt|Hge].
    + destruct (Z.leb_spec (maxRetries op) (retryCount op)); [lia | exact H].
    + destruct (Z.leb_spec (maxRetries op) (retryCount op)); [exact H | lia].
  - destruct (steady_failure_eviction E (fun o => entity o = "movement"%string)
                (fun o Ho => Ho) Hthrow _ op w He HR Hin eq_refl) as [Hk Hfin].
    split; [|exact Hfin].
    intros k Hle. destruct (Hk k Hle) as (op' & Hi & _ & Hin').
    rewrite <- Hi. apply in_map. exact Hin'.
Qed.

Lemma worldWith_Ready online probe other local q :
  NoDup (ids q) ->
  (forall i, In i (ids q) -> prefix "0-" i = false) ->
  Ready (demoEnv online probe other local) (worldWith q).
Proof.
  intros Hnd Hp. unfold Ready. simpl. repeat split; try assumption.
  - intros t _ Hin. apply Hp in Hin. discriminate Hin.
  - intros t t' _ Hlt He.
    assert (Hl : String.length (letters t) = String.length (letters t')).
    { unfold genId in He. simpl in He. inversion He as [He']. rewrite He'. reflexivity. }
    rewrite !letters_length in Hl. lia.
Qed.

Lemma singleton_Ready online probe other local op :
  prefix "0-" (id op) = false ->
  Ready (demoEnv online probe other local) (worldWith [op]).
Proof.
  intros Hp. apply worldWith_Ready.
  - simpl. constructor; [intros [] | constructor].
  - intros i [<-|[]]. exact Hp.
Qed.

Lemma movement_never_syncs_witness :
  let w' := exec (Scheduler.passes envNotFound 3) (worldWith [movementOp]) in
  ~ In (id movementOp) (ids (syncQueue (store w'))) /\
  In (SyncService.syncErrorMessage movementOp) (syncErrors (store w')).
Proof.
  exact (proj2 (proj2 (proj2
    (movement_never_syncs envNotFound (worldWith [movementOp]) movementOp eq_refl
       (singleton_Ready _ _ _ _ movementOp eq_refl) (or_introl eq_refl))))).
Defined.

(* ===================================================================== *)
(** ** Operation types that no replay handles                             *)
(* ===================================================================== *)

(** C9, as stated, fails: an offline sales report request is queued by the
    router with type REPORT (not CREATE, UPDATE or DELETE) on entity
    'sales'; the next pass does not remove it as a success but counts a
    failed replay and keeps it. *)
Lemma report_operation_is_kept_as_failed :
  let w1 := exec (OnlineFirstService.salesReports_generateSalesReport envOffline (JObj []))
                 (emptyWorld true) in
  let w2 := exec (SyncService.performSync envNotFound) w1 in
  map type (syncQueue (store w1)) = ["REPORT"%string] /\
  map entity (syncQueue (store w1)) = ["sales"%string] /\
  ids (syncQueue (store w2)) = ids (syncQueue (store w1)) /\
  map retryCount (syncQueue (store w2)) = [1%Z] /\
  logsSince w1 w2 = [LogStarting 1; LogFailed "0-aaa"; LogCompleted].
Proof. vm_compute. repeat split. Qed.

(** C9, amended.  A queued operation on one of the entities product, user,
    order, supplier whose type is none of CREATE, UPDATE, DELETE is replayed
    by doing nothing: no remote call, no local command, no exception.  Its
    iteration removes it from the queue and leaves [syncErrors] as they
    were, and the pass that finds it in the queue ends without it, having
    logged it as synced. *)
Theorem unhandled_type_on_known_entity_is_dropped E w op :
  In (entity op) knownEntities -> ~ In (type op) replayedTypes ->
  Ready E w -> In op (syncQueue (store w)) ->
  (forall w0,
      SyncService.processOperation E op w0 = (emit (EvReplay (id op)) w0, Ok tt)) /\
  (forall w0,
      let w2 := exec (SyncService.syncOne E op) w0 in
      syncQueue (store w2) = withoutId (id op) (syncQueue (store w0)) /\
      syncErrors (store w2) = syncErrors (store w0) /\
      trace w2 = trace w0 ++ [EvReplay (id op); EvSync (LogSynced (id op))]) /\
  (let w' := exec (SyncService.performSync E) w in
   ~ In (id op) (ids (syncQueue (store w'))) /\
   In (LogSynced (id op)) (logsSince w w') /\
   ~ In (LogFailed (id op)) (logsSince w w')).
Proof.
  intros He Ht HR Hin.
  pose proof (fun w0 => unreplayed_type_is_noop E op w0 He Ht) as Hnoop.
  assert (Hnt : forall w0, threw E op w0 = false).
  { intros w0. unfold threw, result. rewrite Hnoop. reflexivity. }
  split; [exact Hnoop | split].
  - intros w0. unfold exec, SyncService.syncOne, tryCatch, bind. rewrite Hnoop. simpl.
    rewrite <- app_assoc. repeat split; reflexivity.
  - assert (Hne : syncQueue (store w) <> []).
    { intros H. rewrite H in Hin. contradiction. }
    cbv zeta. rewrite (logsSince_pass E w HR Hne).
    destruct (performSync_spec E w HR Hne) as ((added & ts & Hq & Hb & Hi) & _).
    pose proof HR as (_ & _ & Hnd & Hfr).
    pose proof (synced_when_never_failing E _ (started E w) op Hnt Hin) as Hs.
    split; [|split].
    + rewrite Hq, ids_app. intros H. apply in_app_or in H. destruct H as [H|H].
      * destruct (fate E _ (started E w) op Hnd Hin) as [(_ & H2 & _)|(H1 & _)].
        -- exact (H2 Hs).
        -- exact (H1 H).
      * exact (not_in_added E w op added ts _ Hfr Hin Hb Hi H).
    + right. apply in_or_app. left. exact Hs.
    + intros [H|H]; [discriminate H|].
      apply in_app_or in H. destruct H as [H|[H|[]]]; [|discriminate H].
      exact (no_failure_logged_when_never_failing E _ (started E w) op Hnd Hin Hnt H).
Qed.

Lemma unhandled_type_on_known_entity_is_dropped_witness :
  let w' := exec (SyncService.performSync envNotFound) (worldWith [stockOp]) in
  ~ In (id stockOp) (ids (syncQueue (store w'))) /\
  In (LogSynced (id stockOp)) (logsSince (worldWith [stockOp]) w') /\
  ~ In (LogFailed (id stockOp)) (logsSince (worldWith [stockOp]) w').
Proof.
  refine (proj2 (proj2
    (unhandled_type_on_known_entity_is_dropped envNotFound (worldWith [stockOp]) stockOp
       _ _ (singleton_Ready _ _ _ _ stockOp eq_refl) (or_introl eq_refl)))).
  - simpl. tauto.
  - simpl. intuition discriminate.
Defined.

(* ===================================================================== *)
(** ** Leaving the queue                                                  *)
(* ===================================================================== *)

(** C5, as stated, fails: a queued order update leaves the queue in the
    first pass although nothing was sent to the Remote Data Service (the
    replay of an order update does nothing) and its retries are untouched. *)
Lemma order_update_leaves_queue_without_remote_call :
  let w0 := worldWith [orderUpdate] in
  let w' := exec (SyncService.performSync envNotFound) w0 in
  In orderUpdate (syncQueue (store w0)) /\
  syncQueue (store w') = [] /\
  httpRequests (trace w') = [] /\
  retryCount orderUpdate = 0%Z /\ maxRetries orderUpdate = 3%Z /\
  syncErrors (store w') = [].
Proof. split; [left; reflexivity | vm_compute; repeat split]. Qed.

Lemma logsSince_syncOne E op w0 :
  logsSince w0 (exec (SyncService.syncOne E op) w0) = verdictLogs op (threw E op w0).
Proof.
  unfold logsSince. destruct (syncOne_step E op w0) as (_ & _ & Hl & _).
  rewrite Hl, skipn_app, skipn_all, Nat.sub_diag. reflexivity.
Qed.

(** C5, amended.  In a pass, an operation of the snapshot is absent from the
    queue afterwards exactly when the pass logged it as synced or as having
    exceeded its retries.  It is logged as synced exactly when its
    [processOperation] call returned without throwing, whether or not that
    call reached the Remote Data Service.  Once its identifier is out of the
    queue, no number of later passes brings it back. *)
Theorem removal_iff_synced_or_evicted E w op :
  Ready E w -> In op (syncQueue (store w)) ->
  let w' := exec (SyncService.performSync E) w in
  (~ In (id op) (ids (syncQueue (store w'))) <->
   In (LogSynced (id op)) (logsSince w w') \/ In (LogExceeded (id op)) (logsSince w w')) /\
  (forall w0,
      In (LogSynced (id op)) (logsSince w0 (exec (SyncService.syncOne E op) w0)) <->
      threw E op w0 = false) /\
  (forall n,
      ~ In (id op) (ids (syncQueue (store w'))) ->
      ~ In (id op) (ids (syncQueue (store (exec (Scheduler.passes E n) w'))))).
Proof.
  intros HR Hin w'.
  assert (Hne : syncQueue (store w) <> []).
  { intros H. rewrite H in Hin. contradiction. }
  pose proof (logsSince_pass E w HR Hne) as Hlogs. fold w' in Hlogs.
  destruct (performSync_spec E w HR Hne) as ((added & ts & Hq & Hb & Hi) & _ & _ & _ & HR').
  fold w' in Hq, Hi, HR'.
  pose proof HR as (_ & _ & Hnd & Hfr).
  assert (Hmid : forall l, logId l = Some (id op) ->
                           (In l (logsSince w w') <->
                            In l (passLogs E (syncQueue (store w)) (started E w)))).
  { intros l Hl. rewrite Hlogs. split.
    - intros [H|H]; [subst l; discriminate Hl|].
      apply in_app_or in H. destruct H as [H|[H|[]]]; [exact H | subst l; discriminate Hl].
    - intros H. right. apply in_or_app. left. exact H. }
  split; [|split].
  - rewrite (Hmid (LogSynced (id op)) eq_refl), (Hmid (LogExceeded (id op)) eq_refl).
    destruct (fate E _ (started E w) op Hnd Hin) as [(H1 & H2 & H3)|(H1 & H2)].
    + split.
      * intros Hout. exfalso. apply Hout. rewrite Hq, ids_app. apply in_or_app. left.
        change (id op) with (id (bumpRetry op)). apply in_map. exact H1.
      * intros [H|H]; [exfalso; exact (H2 H) | exfalso; exact (H3 H)].
    + split; [intros _; exact H2|].
      intros _ H. rewrite Hq, ids_app in H. apply in_app_or in H. destruct H as [H|H].
      * exact (H1 H).
      * exact (not_in_added E w op added ts _ Hfr Hin Hb Hi H).
  - intros w0. rewrite logsSince_syncOne. unfold verdictLogs.
    destruct (threw E op w0); simpl.
    + split; [|discriminate].
      destruct (exhausted op); simpl; intros [H|H]; try discriminate H;
        try contradiction; destruct H as [H|[]]; discriminate H.
    + split; [reflexivity | intros _; left; reflexivity].
  - intros n Hout. apply gone_stays_gone; [exact HR' | exact Hout|].
    intros t Ht He. destruct Hfr as [F1 _].
    apply (F1 t).
    + destruct (pass_ready_and_ids E w HR) as (_ & Hc & _). fold w' in Hc. lia.
    + rewrite He. apply in_map. exact Hin.
Qed.

Lemma removal_iff_synced_or_evicted_witness :
  let w := worldWith [orderUpdate] in
  let w' := exec (SyncService.performSync envNotFound) w in
  (~ In (id orderUpdate) (ids (syncQueue (store w'))) <->
   In (LogSynced (id orderUpdate)) (logsSince w w') \/
   In (LogExceeded (id orderUpdate)) (logsSince w w')).
Proof.
  exact (proj1
    (removal_iff_synced_or_evicted envNotFound (worldWith [orderUpdate]) orderUpdate
       (singleton_Ready _ _ _ _ orderUpdate eq_refl) (or_introl eq_refl))).
Defined.

(* ===================================================================== *)
(** ** Triggers and callbacks while a pass is running                     *)
(* ===================================================================== *)

Lemma blocked_iff s :
  SyncService.blocked s = false <->
  isOnline s = true /\ isSyncing s = false /\ syncQueue s <> [].
Proof.
  unfold SyncService.blocked.
  destruct (isOnline s), (isSyncing s), (syncQueue s); simpl; split;
    try discriminate;
    try (intros _; repeat split; discriminate);
    intros [H1 [H2 H3]]; try discriminate; try congruence.
Qed.

Lemma blocked_while_syncing s : isSyncing s = true -> SyncService.blocked s = true.
Proof.
  intros H. unfold SyncService.blocked. rewrite H. simpl. apply orb_true_r.
Qed.

Section WhileRunning.
Variable E : Env.

Lemma performSync_while_syncing w :
  isSyncing (store w) = true -> SyncService.performSync E w = (w, Ok tt).
Proof. intros H. apply performSync_blocked. apply blocked_while_syncing. exact H. Qed.

Lemma settled_result {A} (m : M A) w : result (Scheduler.settled m) w = Ok tt.
Proof.
  unfold result, Scheduler.settled, tryCatch, bind, ret.
  destruct (m w) as [w' [a|e]]; reflexivity.
Qed.

Lemma settled_exec {A} (m : M A) w : exec (Scheduler.settled m) w = exec m w.
Proof.
  unfold exec, Scheduler.settled, tryCatch, bind, ret.
  destruct (m w) as [w' [a|e]]; reflexivity.
Qed.

(** What the 'online' handler does while a pass is running: it starts no
    pass, but it sets the flag, starts the periodic timer, and with a
    non-empty queue leaves one delayed [triggerSync] dispatch behind. *)
Lemma handleOnline_while_syncing w :
  isSyncing (store w) = true ->
  let w' := exec (SyncService.handleOnline E) w in
  store w' = set_isOnline true (store w) /\
  timeouts w'
  = timeouts w ++ (if (0 <? List.length (syncQueue (store w)))%nat
                   then [DispatchTriggerSync] else []) /\
  syncInterval w' = true /\
  trace w' = trace w /\ clock w' = clock w /\
  isInitialized w' = isInitialized w /\ authToken w' = authToken w /\
  result (SyncService.handleOnline E) w = Ok tt.
Proof.
  intros H.
  unfold SyncService.handleOnline, setOnlineStatus, SyncService.startPeriodicSync,
    exec, result, bind, modifyStore, modify, getStore, getWorld, ret. simpl.
  destruct (0 <? List.length (syncQueue (store w)))%nat; simpl;
    destruct (syncInterval w) eqn:Hsi; simpl;
    rewrite performSync_while_syncing by (simpl; exact H); simpl;
    rewrite ?app_nil_r, ?Hsi; repeat split; reflexivity.
Qed.

Lemma handleOffline_fields w :
  let w' := exec SyncService.handleOffline w in
  store w' = set_isOnline false (store w) /\
  timeouts w' = timeouts w /\
  syncInterval w' = false /\
  trace w' = trace w /\ clock w' = clock w /\
  result SyncService.handleOffline w = Ok tt.
Proof.
  unfold SyncService.handleOffline, setOnlineStatus, SyncService.stopPeriodicSync,
    exec, result, bind, modifyStore, modify, getStore, getWorld, ret. simpl.
  destruct (syncInterval w) eqn:Hsi; simpl; rewrite ?Hsi; repeat split; reflexivity.
Qed.

End WhileRunning.

Lemma Aside_refl w : Aside w w.
Proof. repeat split. Qed.

Lemma Aside_trans w1 w2 w3 : Aside w1 w2 -> Aside w2 w3 -> Aside w1 w3.
Proof. intros (a & b & c) (a' & b' & c'). repeat split; congruence. Qed.

Lemma Extends_Aside E w w' : Extends E w w' -> Aside w w'.
Proof.
  intros [_ _ s _ [evs [t g]]]. unfold storeRest in s. repeat split.
  - congruence.
  - rewrite t, replays_app, (replays_quiet _ g), app_nil_r. reflexivity.
  - rewrite t, syncLogs_app, (syncLogs_quiet _ g), app_nil_r. reflexivity.
Qed.

Section Callbacks.
Variable E : Env.

Lemma queueOperation_aside operation w :
  Aside w (exec (SyncService.queueOperation E operation) w).
Proof.
  pose proof (Extends_Aside E _ _ (frame_addToQueue E operation w)) as H.
  unfold SyncService.queueOperation, exec, bind, getStore, modify, ret in *.
  destruct (addToQueue E operation w) as [w1 [u|e]]; simpl in *; [|exact H].
  destruct (isOnline (store w1)); exact H.
Qed.

Lemma whenListening_exec (m : M unit) w :
  exec (Scheduler.whenListening m) w = if isInitialized w then exec m w else w.
Proof.
  unfold exec, Scheduler.whenListening, bind, getWorld.
  destruct (isInitialized w); reflexivity.
Qed.

Lemma whenListening_settled_result {A} (m : M A) w :
  result (Scheduler.whenListening (Scheduler.settled m)) w = Ok tt.
Proof.
  unfold result, Scheduler.whenListening, bind, getWorld.
  destruct (isInitialized w); [apply (settled_result m w) | reflexivity].
Qed.

(** While a pass is running, a callback starts no pass and replays nothing. *)
Lemma runAction_while_syncing a w :
  isSyncing (store w) = true ->
  Aside w (exec (Scheduler.runAction E a) w) /\
  result (Scheduler.runAction E a) w = Ok tt.
Proof.
  intros H. destruct a; simpl.
  - split; [rewrite settled_exec; apply (Extends_Aside E); apply frame_router_get
           | apply settled_result].
  - split; [rewrite settled_exec; apply (Extends_Aside E); apply frame_router_create
           | apply settled_result].
  - split; [rewrite settled_exec; apply (Extends_Aside E); apply frame_router_update
           | apply settled_result].
  - split; [rewrite settled_exec; apply (Extends_Aside E); apply frame_router_delete
           | apply settled_result].
  - split; [rewrite settled_exec; apply queueOperation_aside | apply settled_result].
  - split; [|apply settled_result].
    rewrite settled_exec. unfold SyncService.triggerSync, exec.
    rewrite (performSync_while_syncing E w H). apply Aside_refl.
  - unfold exec, result, bind, getWorld. destruct (syncInterval w); simpl.
    + split; [|apply (settled_result (SyncService.performSync E) w)].
      change (Aside w (exec (Scheduler.settled (SyncService.performSync E)) w)).
      rewrite settled_exec. unfold exec.
      rewrite (performSync_while_syncing E w H). apply Aside_refl.
    + split; [apply Aside_refl | reflexivity].
  - split; [|apply whenListening_settled_result].
    rewrite whenListening_exec. destruct (isInitialized w); [|apply Aside_refl].
    rewrite settled_exec.
    destruct (handleOnline_while_syncing E w H) as (Hs & _ & _ & Ht & _).
    unfold Aside. rewrite Hs, Ht. repeat split.
  - split; [|apply whenListening_settled_result].
    rewrite whenListening_exec. destruct (isInitialized w); [|apply Aside_refl].
    rewrite settled_exec.
    destruct (handleOffline_fields w) as (Hs & _ & _ & Ht & _).
    unfold Aside. rewrite Hs, Ht. repeat split.
  - split; [|apply whenListening_settled_result].
    rewrite whenListening_exec. destruct (isInitialized w); [|apply Aside_refl].
    rewrite settled_exec. unfold exec.
    rewrite (performSync_while_syncing E w H). apply Aside_refl.
  - unfold exec, result, bind, getWorld, modify. simpl.
    destruct (nth_error (timeouts w) n) as [t|]; simpl; [|split; [apply Aside_refl | reflexivity]].
    set (w1 := set_timeouts (removeNth n (timeouts w)) w).
    assert (H1 : isSyncing (store w1) = true) by exact H.
    destruct t.
    + split; [|apply (whenListening_settled_result (SyncService.performSync E) w1)].
      change (Aside w (exec (Scheduler.whenListening
                               (Scheduler.settled (SyncService.performSync E))) w1)).
      rewrite whenListening_exec. destruct (isInitialized w1); [|repeat split].
      rewrite settled_exec. unfold exec.
      rewrite (performSync_while_syncing E w1 H1). repeat split.
    + split; [|apply (settled_result (SyncService.performSync E) w1)].
      change (Aside w (exec (Scheduler.settled (SyncService.performSync E)) w1)).
      rewrite settled_exec. unfold exec.
      rewrite (performSync_while_syncing E w1 H1). repeat split.
Qed.

Lemma runActions_while_syncing l : forall w,
  isSyncing (store w) = true ->
  Aside w (exec (Scheduler.runActions E l) w) /\
  result (Scheduler.runActions E l) w = Ok tt.
Proof.
  induction l as [|a r IH]; intros w H.
  - split; [apply Aside_refl | reflexivity].
  - destruct (runAction_while_syncing a w H) as [Ha Hr].
    destruct (exec_bind_ok (Scheduler.runAction E a)
                (fun _ => Scheduler.runActions E r) w tt Hr) as [He Hres].
    simpl. rewrite He, Hres.
    assert (H' : isSyncing (store (exec (Scheduler.runAction E a) w)) = true).
    { destruct Ha as (Hs & _). rewrite Hs. exact H. }
    destruct (IH _ H') as [Ha' Hr'].
    split; [eapply Aside_trans; eassumption | exact Hr'].
Qed.

Lemma syncLoopWith_replays during ops : forall i w,
  isSyncing (store w) = true ->
  let w' := exec (Scheduler.syncLoopWith E during i ops) w in
  replays (trace w') = replays (trace w) ++ ids ops /\
  isSyncing (store w') = true /\
  (exists logs, syncLogs (trace w') = syncLogs (trace w) ++ logs) /\
  result (Scheduler.syncLoopWith E during i ops) w = Ok tt.
Proof.
  induction ops as [|op r IH]; intros i w H.
  - unfold exec, result. simpl. rewrite app_nil_r.
    repeat split; try assumption. exists []. rewrite app_nil_r. reflexivity.
  - destruct (runActions_while_syncing (during i) w H) as [(As & Ar & Al) Hr].
    set (w1 := exec (Scheduler.runActions E (during i)) w) in *.
    assert (H1 : isSyncing (store w1) = true) by congruence.
    destruct (syncOne_step E op w1) as (_ & _ & Sl & Sr & Sf & _).
    destruct (syncOne_exec E op w1) as (_ & _ & _ & _ & _ & _ & _ & Sres).
    set (w2 := exec (SyncService.syncOne E op) w1) in *.
    assert (H2 : isSyncing (store w2) = true) by congruence.
    destruct (IH (S i) w2 H2) as (Ir & Is & (logs & Il) & Ires).
    destruct (exec_bind_ok (Scheduler.runActions E (during i))
                (fun _ => bind (SyncService.syncOne E op)
                            (fun _ => Scheduler.syncLoopWith E during (S i) r))
                w tt Hr) as [He1 Hr1].
    destruct (exec_bind_ok (SyncService.syncOne E op)
                (fun _ => Scheduler.syncLoopWith E during (S i) r) w1 tt Sres)
      as [He2 Hr2].
    cbv zeta. simpl Scheduler.syncLoopWith. rewrite He1, Hr1. fold w1.
    rewrite He2, Hr2. fold w2.
    split; [|split; [|split]].
    + rewrite Ir, Sr, Ar, <- app_assoc. reflexivity.
    + exact Is.
    + exists (verdictLogs op (threw E op w1) ++ logs).
      rewrite Il, Sl, Al, app_assoc. reflexivity.
    + exact Ires.
Qed.

Lemma performSyncWith_effects during w :
  SyncService.blocked (store w) = false ->
  let w' := exec (Scheduler.performSyncWith E during) w in
  replays (trace w') = replays (trace w) ++ ids (syncQueue (store w)) /\
  isSyncing (store w') = false /\
  exists logs,
    syncLogs (trace w')
    = syncLogs (trace w)
      ++ LogStarting (List.length (syncQueue (store w))) :: logs ++ [LogCompleted].
Proof.
  intros Hb.
  destruct (started_fields E w) as (_ & _ & Ssy & _ & _ & _ & St & _).
  destruct (syncLoopWith_replays during (syncQueue (store w)) 0 (started E w) Ssy)
    as (Lr & _ & (logs & Ll) & Lres).
  set (w2 := exec (Scheduler.syncLoopWith E during 0 (syncQueue (store w))) (started E w)) in *.
  destruct (finishPass_fields E w2) as (_ & _ & Fsy & _ & _ & _ & Ft & _).
  assert (Hex : exec (Scheduler.performSyncWith E during) w
                = exec (SyncService.finishPass E) w2).
  { unfold Scheduler.performSyncWith, exec at 1, bind, getStore. rewrite Hb.
    unfold w2, started, exec.
    destruct (SyncService.startPass E (store w) w) as [w1 o] eqn:Hs.
    assert (Ho : o = Ok tt).
    { unfold SyncService.startPass, bind, log, modify, setSyncing, now, tick, ret,
        modifyStore, modify in Hs. simpl in Hs. inversion Hs. reflexivity. }
    subst o. simpl. unfold result in Lres. unfold started, exec in Lres.
    rewrite Hs in Lres. simpl in Lres.
    destruct (Scheduler.syncLoopWith E during 0 (syncQueue (store w)) w1) as [w3 o3].
    simpl in *. subst o3. reflexivity. }
  cbv zeta. rewrite Hex. split; [|split].
  - rewrite Ft, replays_app, Lr, St, replays_app. simpl. rewrite !app_nil_r. reflexivity.
  - exact Fsy.
  - exists logs. rewrite Ft, syncLogs_app, Ll, St, syncLogs_app. simpl.
    rewrite <- !app_assoc. reflexivity.
Qed.

Lemma syncLoopWith_nil ops : forall i w,
  Scheduler.syncLoopWith E (fun _ => []) i ops w = SyncService.syncLoop E ops w.
Proof.
  induction ops as [|op r IH]; intros i w; [reflexivity|].
  simpl. unfold bind at 1. simpl. unfold bind.
  destruct (SyncService.syncOne E op w) as [w1 [u|e]]; [apply IH | reflexivity].
Qed.

(** With no callback in between, the interleaved pass is [performSync]. *)
Lemma performSyncWith_nil w :
  Scheduler.performSyncWith E (fun _ => []) w = SyncService.performSync E w.
Proof.
  unfold Scheduler.performSyncWith, SyncService.performSync, bind, getStore.
  destruct (SyncService.blocked (store w)); [reflexivity|].
  destruct (SyncService.startPass E (store w) w) as [w1 [u|e]]; [|reflexivity].
  rewrite syncLoopWith_nil. reflexivity.
Qed.

End Callbacks.

Lemma ids_withoutId i q :
  ids (withoutId i q) = filter (fun j => negb (j =? i)%string) (ids q).
Proof.
  induction q as [|op r IH]; simpl; [reflexivity|].
  destruct (negb (id op =? i)%string); simpl; rewrite IH; reflexivity.
Qed.

Lemma addToQueue_appends E operation w :
  syncQueue (store (exec (addToQueue E operation) w))
  = syncQueue (store w)
    ++ [newOperation operation (dateNow E (clock w)) (mathRandom E (S (clock w)))
          (dateNow E (S (S (clock w))))].
Proof. reflexivity. Qed.

(** C6.  A pass replays exactly the operations of the snapshot it took when
    it started, in queue order, whatever callbacks (router calls that
    enqueue, triggers, connectivity events) run while it awaits its
    replays; what they enqueue is not replayed in this pass.  Queue order is
    enqueue order: [addToQueue] appends at the tail, and removal and retry
    increments keep the relative order.  So of two queued operations the
    one enqueued first is replayed first. *)
Theorem pass_replays_snapshot_in_enqueue_order E during w :
  SyncService.blocked (store w) = false ->
  let w' := exec (Scheduler.performSyncWith E during) w in
  replays (trace w') = replays (trace w) ++ ids (syncQueue (store w)) /\
  (forall l1 a l2 b l3,
      syncQueue (store w) = l1 ++ a :: l2 ++ b :: l3 ->
      replays (trace w')
      = (replays (trace w) ++ ids l1) ++ id a :: ids l2 ++ id b :: ids l3) /\
  (forall operation w0,
      exists op,
        syncQueue (store (exec (addToQueue E operation) w0))
        = syncQueue (store w0) ++ [op] /\ retryCount op = 0%Z) /\
  (forall i q,
      ids (withoutId i q) = filter (fun j => negb (j =? i)%string) (ids q) /\
      ids (withRetryBumped i q) = ids q).
Proof.
  intros Hb w'.
  destruct (performSyncWith_effects E during w Hb) as (Hr & _). fold w' in Hr.
  split; [exact Hr | split; [|split]].
  - intros l1 a l2 b l3 Hq. rewrite Hr, Hq, ids_app. simpl. rewrite ids_app. simpl.
    rewrite <- app_assoc. reflexivity.
  - intros operation w0. eexists. split; [apply addToQueue_appends | reflexivity].
  - intros i q. split; [apply ids_withoutId | apply ids_withRetryBumped].
Qed.

Lemma pass_replays_snapshot_in_enqueue_order_witness :
  let w := worldWith [failingUpdate; orderUpdate] in
  let during := fun i : nat =>
    [ActCreate "/inventory/products" milk "create_product" "product_create";
     ActTriggerSync] in
  let w' := exec (Scheduler.performSyncWith envTimeout during) w in
  replays (trace w') = replays (trace w) ++ [id failingUpdate; id orderUpdate] /\
  List.length (enqueued (trace w')) = 3.
Proof.
  split.
  - exact (proj1 (pass_replays_snapshot_in_enqueue_order envTimeout
                    (fun i : nat =>
                       [ActCreate "/inventory/products" milk "create_product" "product_create";
                        ActTriggerSync])
                    (worldWith [failingUpdate; orderUpdate]) eq_refl)).
  - vm_compute. reflexivity.
Defined.

(* ===================================================================== *)
(** ** Starting a pass                                                    *)
(* ===================================================================== *)

(** C7, as stated, fails for the online transition: arriving while a pass is
    running, it leaves a delayed [triggerSync] dispatch behind, and when
    that fires after the pass has ended, a further pass runs. *)
Lemma online_event_while_running_defers_a_pass :
  let running := started envNotFound (listeningWith [failingUpdate]) in
  let duringPass := fun i : nat => [ActOnlineEvent] in
  let w1 := exec (Scheduler.performSyncWith envNotFound duringPass)
                 (listeningWith [failingUpdate]) in
  let w2 := exec (Scheduler.runAction envNotFound (ActTimeoutFires 0)) w1 in
  isSyncing (store running) = true /\
  timeouts running = [] /\
  timeouts (exec (Scheduler.runAction envNotFound ActOnlineEvent) running)
  = [DispatchTriggerSync] /\
  timeouts w1 = [DispatchTriggerSync] /\
  replays (trace w1) = ["op-1"%string] /\
  replays (trace w2) = ["op-1"; "op-1"]%string.
Proof. vm_compute. repeat split. Qed.

(** C7, amended.  [performSync] does nothing unless the store says online,
    no pass is running and the queue is non-empty, and then it starts a
    pass.  While a pass is running, a manual [triggerSync], a timer tick and
    a [triggerSync] event change nothing at all.  The 'online' handler
    starts no pass then either, but it sets the online flag and the periodic
    timer and, when the queue is non-empty, schedules one delayed
    [triggerSync] event. *)
Theorem pass_start_guard_and_triggers E w :
  (SyncService.blocked (store w) = false <->
   isOnline (store w) = true /\ isSyncing (store w) = false /\ syncQueue (store w) <> []) /\
  (SyncService.blocked (store w) = true -> SyncService.performSync E w = (w, Ok tt)) /\
  (SyncService.blocked (store w) = false ->
   exists logs,
     logsSince w (exec (SyncService.performSync E) w)
     = LogStarting (List.length (syncQueue (store w))) :: logs ++ [LogCompleted]) /\
  (isSyncing (store w) = true ->
   forall a, In a plainTriggers -> Scheduler.runAction E a w = (w, Ok tt)) /\
  (isSyncing (store w) = true -> isInitialized w = true ->
   let w' := exec (Scheduler.runAction E ActOnlineEvent) w in
   trace w' = trace w /\
   store w' = set_isOnline true (store w) /\
   syncInterval w' = true /\
   timeouts w'
   = timeouts w ++ (if (0 <? List.length (syncQueue (store w)))%nat
                    then [DispatchTriggerSync] else [])).
Proof.
  split; [apply blocked_iff | split; [apply performSync_blocked | split; [|split]]].
  - intros Hb.
    assert (Heq : exec (SyncService.performSync E) w
                  = exec (Scheduler.performSyncWith E (fun _ => [])) w).
    { unfold exec. rewrite performSyncWith_nil. reflexivity. }
    rewrite Heq.
    destruct (performSyncWith_effects E (fun _ => []) w Hb) as (_ & _ & logs & Hl).
    exists logs. unfold logsSince. rewrite Hl.
    rewrite skipn_app, skipn_all, Nat.sub_diag. reflexivity.
  - intros H a Ha. pose proof (performSync_while_syncing E w H) as Hp.
    simpl in Ha. destruct Ha as [<-|[<-|[<-|[]]]]; simpl.
    + unfold Scheduler.settled, SyncService.triggerSync, tryCatch, bind.
      rewrite Hp. reflexivity.
    + unfold bind, getWorld. destruct (syncInterval w); [|reflexivity].
      unfold Scheduler.settled, tryCatch, bind. rewrite Hp. reflexivity.
    + unfold Scheduler.whenListening, bind, getWorld.
      destruct (isInitialized w); [|reflexivity].
      unfold Scheduler.settled, tryCatch, bind. rewrite Hp. reflexivity.
  - intros H Hi w'. unfold w'. simpl Scheduler.runAction.
    rewrite whenListening_exec, Hi, settled_exec.
    destruct (handleOnline_while_syncing E w H) as (Hs & Ht & Hsi & Htr & _).
    repeat split; assumption.
Qed.

Lemma pass_start_guard_and_triggers_witness :
  let running := started envNotFound (listeningWith [failingUpdate]) in
  SyncService.performSync envNotFound running = (running, Ok tt) /\
  Scheduler.runAction envNotFound ActTimerTick running = (running, Ok tt) /\
  timeouts (exec (Scheduler.runAction envNotFound ActOnlineEvent) running)
  = [DispatchTriggerSync].
Proof.
  pose proof (pass_start_guard_and_triggers envNotFound
                (started envNotFound (listeningWith [failingUpdate])))
    as (_ & Hblocked & _ & Htrig & Honline).
  split; [apply Hblocked; reflexivity | split].
  - apply Htrig; [reflexivity | right; left; reflexivity].
  - destruct (Honline eq_refl eq_refl) as (_ & _ & _ & Ht). exact Ht.
Defined.

(* ===================================================================== *)
(** ** Things a piece of code never does                                  *)
(* ===================================================================== *)

Section Keeping.
Variable R : World -> World -> Prop.
Hypothesis R_refl : forall w, R w w.
Hypothesis R_trans : forall a b c, R a b -> R b c -> R a c.

Lemma keeps_ret {A} (a : A) : Keeps R (ret a).
Proof. intros w. apply R_refl. Qed.

Lemma keeps_throw {A} (e : Thrown) : Keeps R (@throw A e).
Proof. intros w. apply R_refl. Qed.

Lemma keeps_getWorld : Keeps R getWorld.
Proof. intros w. apply R_refl. Qed.

Lemma keeps_getStore : Keeps R getStore.
Proof. intros w. apply R_refl. Qed.

Lemma keeps_bind {A B} (m : M A) (k : A -> M B) :
  Keeps R m -> (forall a, Keeps R (k a)) -> Keeps R (bind m k).
Proof.
  intros Hm Hk w. unfold exec, bind. specialize (Hm w). unfold exec in Hm.
  destruct (m w) as [w' [a|e]]; simpl in *.
  - eapply R_trans; [exact Hm | apply Hk].
  - exact Hm.
Qed.

Lemma keeps_tryCatch {A} (m : M A) (h : Thrown -> M A) :
  Keeps R m -> (forall e, Keeps R (h e)) -> Keeps R (tryCatch m h).
Proof.
  intros Hm Hh w. unfold exec, tryCatch. specialize (Hm w). unfold exec in Hm.
  destruct (m w) as [w' [a|e]]; simpl in *.
  - exact Hm.
  - eapply R_trans; [exact Hm | apply Hh].
Qed.

End Keeping.

Lemma sameStore_refl w : sameStore w w.
Proof. reflexivity. Qed.

Lemma sameStore_trans a b c : sameStore a b -> sameStore b c -> sameStore a c.
Proof. unfold sameStore. congruence. Qed.

Lemma sameHttp_refl w : sameHttp w w.
Proof. reflexivity. Qed.

Lemma sameHttp_trans a b c : sameHttp a b -> sameHttp b c -> sameHttp a c.
Proof. unfold sameHttp. congruence. Qed.

Lemma sameInvokes_refl w : sameInvokes w w.
Proof. reflexivity. Qed.

Lemma sameInvokes_trans a b c : sameInvokes a b -> sameInvokes b c -> sameInvokes a c.
Proof. unfold sameInvokes. congruence. Qed.

Lemma invokes_app a b : invokes (a ++ b) = invokes a ++ invokes b.
Proof. apply flat_map_app. Qed.

Lemma keeps_tick R : (forall w, R w (set_clock (S (clock w)) w)) -> Keeps R tick.
Proof. intros H w. apply H. Qed.

Lemma keeps_modify R f : (forall w, R w (f w)) -> Keeps R (modify f).
Proof. intros H w. apply H. Qed.

(** Structure of composed code, for any reflexive and transitive relation;
    the leaves are closed by [leaf]. *)
Ltac keeps_with refl trans leaf :=
  repeat first
    [ apply (keeps_ret _ refl) | apply (keeps_throw _ refl)
    | apply (keeps_getWorld _ refl) | apply (keeps_getStore _ refl)
    | assumption
    | leaf
    | apply (keeps_bind _ trans); [ | intros ? ]
    | apply (keeps_tryCatch _ trans); [ | intros ? ]
    | match goal with
      | |- Keeps _ (if ?b then _ else _) => destruct b
      | |- Keeps _ (match ?x with _ => _ end) => destruct x
      end ].

Ltac store_leaf :=
  first [ apply keeps_tick; intros ?; reflexivity
        | apply keeps_modify; intros ?; reflexivity ].

Ltac keeps_store := keeps_with sameStore_refl sameStore_trans store_leaf.

Ltac http_leaf :=
  first [ apply keeps_tick; intros ?; reflexivity
        | apply keeps_modify; intros ?; reflexivity
        | apply keeps_modify; intros ?; unfold sameHttp; simpl;
          rewrite httpRequests_app, app_nil_r; reflexivity ].

Ltac keeps_http := keeps_with sameHttp_refl sameHttp_trans http_leaf.

Ltac invokes_leaf :=
  first [ apply keeps_tick; intros ?; reflexivity
        | apply keeps_modify; intros ?; reflexivity
        | apply keeps_modify; intros ?; unfold sameInvokes; simpl;
          rewrite invokes_app, app_nil_r; reflexivity ].

Ltac keeps_invokes := keeps_with sameInvokes_refl sameInvokes_trans invokes_leaf.

Section NeverDone.
Variable E : Env.

(** The API layer and the connectivity check leave the offline store alone
    and run no local command. *)
Lemma clientRequest_sameStore m ep d tmo v :
  Keeps sameStore (OnlineApiService.clientRequest E m ep d tmo v).
Proof.
  unfold OnlineApiService.clientRequest, OnlineApiService.axiosSend, log, logout.
  keeps_store.
Qed.

Lemma clientRequest_sameInvokes m ep d tmo v :
  Keeps sameInvokes (OnlineApiService.clientRequest E m ep d tmo v).
Proof.
  unfold OnlineApiService.clientRequest, OnlineApiService.axiosSend, log, logout.
  keeps_invokes.
Qed.

Lemma api_get_sameStore ep : Keeps sameStore (OnlineApiService.get E ep).
Proof.
  unfold OnlineApiService.get, OnlineApiService.axiosSend, log. keeps_store.
Qed.

Lemma api_get_sameInvokes ep : Keeps sameInvokes (OnlineApiService.get E ep).
Proof.
  unfold OnlineApiService.get, OnlineApiService.axiosSend, log. keeps_invokes.
Qed.

Lemma api_post_sameStore ep d : Keeps sameStore (OnlineApiService.post E ep d).
Proof.
  unfold OnlineApiService.post.
  apply (keeps_tryCatch _ sameStore_trans); [|intros; keeps_store].
  apply (keeps_bind _ sameStore_trans); [apply clientRequest_sameStore | intros; keeps_store].
Qed.

Lemma api_post_sameInvokes ep d : Keeps sameInvokes (OnlineApiService.post E ep d).
Proof.
  unfold OnlineApiService.post.
  apply (keeps_tryCatch _ sameInvokes_trans); [|intros; keeps_invokes].
  apply (keeps_bind _ sameInvokes_trans);
    [apply clientRequest_sameInvokes | intros; keeps_invokes].
Qed.

Lemma api_put_sameStore ep d : Keeps sameStore (OnlineApiService.put E ep d).
Proof.
  unfold OnlineApiService.put.
  apply (keeps_tryCatch _ sameStore_trans); [|intros; keeps_store].
  apply (keeps_bind _ sameStore_trans); [apply clientRequest_sameStore | intros; keeps_store].
Qed.

Lemma api_put_sameInvokes ep d : Keeps sameInvokes (OnlineApiService.put E ep d).
Proof.
  unfold OnlineApiService.put.
  apply (keeps_tryCatch _ sameInvokes_trans); [|intros; keeps_invokes].
  apply (keeps_bind _ sameInvokes_trans);
    [apply clientRequest_sameInvokes | intros; keeps_invokes].
Qed.

Lemma api_delete_sameStore ep : Keeps sameStore (OnlineApiService.delete E ep).
Proof.
  unfold OnlineApiService.delete.
  apply (keeps_tryCatch _ sameStore_trans); [|intros; keeps_store].
  apply (keeps_bind _ sameStore_trans); [apply clientRequest_sameStore | intros; keeps_store].
Qed.

Lemma isOnline_sameInvokes : Keeps sameInvokes (OnlineFirstService.isOnline E).
Proof.
  unfold OnlineFirstService.isOnline, readNavigatorOnLine,
    OnlineApiService.checkConnectivity.
  apply (keeps_bind _ sameInvokes_trans); [keeps_invokes | intros b].
  destruct b; [|keeps_invokes].
  apply (keeps_tryCatch _ sameInvokes_trans); [|intros; keeps_invokes].
  apply (keeps_bind _ sameInvokes_trans);
    [apply clientRequest_sameInvokes | intros; keeps_invokes].
Qed.

Lemma invoke_sameStore c a : Keeps sameStore (invoke E c a).
Proof. unfold invoke, log. keeps_store. Qed.

Lemma invoke_sameHttp c a : Keeps sameHttp (invoke E c a).
Proof. unfold invoke, log. keeps_http. Qed.

Lemma secureInvoke_sameHttp c a : Keeps sameHttp (ApiInterceptor.secureInvoke E c a).
Proof.
  unfold ApiInterceptor.secureInvoke, log, logout.
  apply (keeps_bind _ sameHttp_trans); [keeps_http | intros w0].
  destruct (OnlineApiService.bearer (authToken w0)); [|keeps_http].
  destruct (authToken w0); [|keeps_http].
  apply (keeps_tryCatch _ sameHttp_trans); [apply invoke_sameHttp | intros; keeps_http].
Qed.

End NeverDone.

(* ===================================================================== *)
(** ** Further properties of the reconciliation pass                      *)
(* ===================================================================== *)

Lemma threw_bumpRetry E op w : threw E (bumpRetry op) w = threw E op w.
Proof. reflexivity. Qed.

(** X1.  An operation whose replay throws whatever the world, queued with
    [retryCount = 0] and [maxRetries = N > 0], is still in the queue, with
    [retryCount = N], after N passes; the pass after that evicts it and
    reports it.  Eviction needs N + 1 failed replays. *)
Theorem always_failing_operation_needs_one_more_pass E w op :
  (forall w0, threw E op w0 = true) ->
  Ready E w -> In op (syncQueue (store w)) ->
  retryCount op = 0%Z -> (0 < maxRetries op)%Z ->
  let N := Z.to_nat (maxRetries op) in
  (exists op', id op' = id op /\ retryCount op' = maxRetries op /\
               In op' (syncQueue (store (exec (Scheduler.passes E N) w)))) /\
  ~ In (id op) (ids (syncQueue (store (exec (Scheduler.passes E (S N)) w)))) /\
  In (SyncService.syncErrorMessage op)
     (syncErrors (store (exec (Scheduler.passes E (S N)) w))).
Proof.
  intros Hf HR Hin Hr Hm N.
  assert (HN : Z.to_nat (maxRetries op - retryCount op) = N) by (unfold N; f_equal; lia).
  destruct (steady_failure_eviction E (fun o => forall w0, threw E o w0 = true)
              (fun o Ho w0 => Ho w0) (fun o w0 Ho => Ho w0) N op w Hf HR Hin HN)
    as [Hk Hfin].
  split; [|exact Hfin].
  destruct (Hk N (le_n N)) as (op' & Hi & Hc & Hin').
  exists op'. split; [exact Hi|]. split; [|exact Hin'].
  rewrite Hc, Hr. unfold N. lia.
Qed.

Lemma failingUpdate_always_throws w0 : threw envNotFound failingUpdate w0 = true.
Proof. reflexivity. Qed.

Lemma always_failing_operation_needs_one_more_pass_witness :
  (exists op', id op' = id failingUpdate /\ retryCount op' = 3%Z /\
               In op' (syncQueue (store (exec (Scheduler.passes envNotFound 3)
                                           (worldWith [failingUpdate]))))) /\
  ~ In (id failingUpdate)
       (ids (syncQueue (store (exec (Scheduler.passes envNotFound 4)
                                 (worldWith [failingUpdate]))))) /\
  In (SyncService.syncErrorMessage failingUpdate)
     (syncErrors (store (exec (Scheduler.passes envNotFound 4) (worldWith [failingUpdate])))).
Proof.
  exact (always_failing_operation_needs_one_more_pass envNotFound
           (worldWith [failingUpdate]) failingUpdate failingUpdate_always_throws
           (singleton_Ready _ _ _ _ failingUpdate eq_refl) (or_introl eq_refl)
           eq_refl eq_refl).
Defined.

Section PassBookkeeping.
Variable E : Env.

Lemma performSync_effects w :
  SyncService.blocked (store w) = false ->
  let snapshot := syncQueue (store w) in
  let w' := exec (SyncService.performSync E) w in
  syncErrors (store w') = newErrors E snapshot (started E w) /\
  logsSince w w' = LogStarting (List.length snapshot)
                     :: passLogs E snapshot (started E w) ++ [LogCompleted] /\
  isSyncing (store w') = false /\
  lastSyncAttempt (store w') = Some (dateNow E (clock w)) /\
  isOnline (store w') = isOnline (store w) /\
  offlineData (store w') = offlineData (store w) /\
  worldRest w' = worldRest w.
Proof.
  intros Hb snapshot w'.
  destruct (performSync_runs E w Hb) as [Hex _]. fold w' in Hex.
  destruct (started_fields E w) as (_ & Se & _ & Son & Sla & _ & St & Sw).
  destruct (syncLoop_effects E snapshot (started E w)) as (Le & Ll & _ & Lf & Lw & _).
  set (w2 := exec (SyncService.syncLoop E snapshot) (started E w)) in *.
  destruct (finishPass_fields E w2) as (_ & Fe & Fsy & Fon & Fla & _ & Ft & Fw).
  assert (Hex' : exec (SyncService.finishPass E) w2 = w') by (symmetry; exact Hex).
  rewrite Hex' in Fe, Fsy, Fon, Fla, Ft, Fw.
  assert (Fod : offlineData (store w') = offlineData (store w2)).
  { rewrite <- Hex'. reflexivity. }
  assert (Sod : offlineData (store (started E w)) = offlineData (store w)) by reflexivity.
  repeat split.
  - rewrite Fe, Le, Se. reflexivity.
  - unfold logsSince. rewrite Ft, syncLogs_app, Ll, St, syncLogs_app. simpl.
    rewrite <- !app_assoc. rewrite skipn_app, skipn_all, Nat.sub_diag. reflexivity.
  - exact Fsy.
  - rewrite Fla. congruence.
  - congruence.
  - congruence.
  - congruence.
Qed.

Lemma newErrors_count ops : forall w,
  List.length (newErrors E ops w)
  = List.length (filter (fun l => match l with LogExceeded _ => true | _ => false end)
                   (passLogs E ops w)).
Proof.
  induction ops as [|a r IH]; intros w; [reflexivity|].
  simpl. rewrite filter_app, !length_app, IH. f_equal.
  unfold verdictErrors, verdictLogs.
  destruct (threw E a w), (exhausted a); reflexivity.
Qed.

End PassBookkeeping.

(** X2.  A pass never throws.  When its guard holds it ends with
    [isSyncing = false] and [lastSyncAttempt] set to the time it started;
    it leaves the online flag, the cached offline data and the timers as
    they were; and [syncErrors] afterwards holds exactly one entry per
    operation evicted in this pass, whatever errors earlier passes had
    left. *)
Theorem pass_bookkeeping E w :
  result (SyncService.performSync E) w = Ok tt /\
  (SyncService.blocked (store w) = false ->
   let w' := exec (SyncService.performSync E) w in
   isSyncing (store w') = false /\
   lastSyncAttempt (store w') = Some (dateNow E (clock w)) /\
   isOnline (store w') = isOnline (store w) /\
   offlineData (store w') = offlineData (store w) /\
   worldRest w' = worldRest w /\
   List.length (syncErrors (store w'))
   = List.length (filter (fun l => match l with LogExceeded _ => true | _ => false end)
                    (logsSince w w'))).
Proof.
  split; [apply performSync_result|].
  intros Hb w'.
  destruct (performSync_effects E w Hb) as (He & Hl & Hs & Hla & Hon & Hod & Hw).
  fold w' in He, Hl, Hs, Hla, Hon, Hod, Hw.
  repeat split; try assumption.
  rewrite He, Hl, newErrors_count. simpl. rewrite filter_app. simpl.
  rewrite app_nil_r. reflexivity.
Qed.

Lemma pass_bookkeeping_witness :
  let w := set_store (addSyncError "stale" (store (worldWith [orderUpdate])))
                     (worldWith [orderUpdate]) in
  isSyncing (store (exec (SyncService.performSync envNotFound) w)) = false /\
  syncErrors (store (exec (SyncService.performSync envNotFound) w)) = [].
Proof.
  destruct (proj2 (pass_bookkeeping envNotFound
                     (set_store (addSyncError "stale" (store (worldWith [orderUpdate])))
                                (worldWith [orderUpdate]))) eq_refl)
    as (Hs & _ & _ & _ & _ & Hlen).
  split; [exact Hs|].
  destruct (syncErrors _) as [|x r]; [reflexivity | discriminate Hlen].
Defined.

Lemma keptOps_origin E ops : forall w x,
  In x (keptOps E ops w) -> exists op, In op ops /\ x = bumpRetry op /\ exhausted op = false.
Proof.
  induction ops as [|a r IH]; intros w x H; [contradiction|].
  simpl in H. apply in_app_or in H. destruct H as [H|H].
  - destruct (threw E a w); simpl in H; [|contradiction].
    destruct (exhausted a) eqn:Hx; simpl in H; [contradiction|].
    destruct H as [<-|[]]. exists a. split; [left; reflexivity | split; [reflexivity | exact Hx]].
  - destruct (IH _ x H) as (op & Hin & He & Hx). exists op.
    split; [right; exact Hin | split; assumption].
Qed.

(** X3.  Unique and fresh identifiers are an invariant of passes: after any
    number of passes the engine is again ready, and every identifier in the
    queue was in the queue before or was built by [addToQueue] meanwhile. *)
Theorem passes_keep_identifiers_unique E n w :
  Ready E w ->
  let w' := exec (Scheduler.passes E n) w in
  Ready E w' /\
  NoDup (ids (syncQueue (store w'))) /\
  forall i, In i (ids (syncQueue (store w'))) ->
            In i (ids (syncQueue (store w))) \/ exists t, clock w <= t /\ i = genId E t.
Proof.
  intros HR w'. destruct (passes_ready_and_ids E n w HR) as (HR' & _ & Hi).
  split; [exact HR'|]. split; [apply HR' | exact Hi].
Qed.

Lemma passes_keep_identifiers_unique_witness :
  NoDup (ids (syncQueue (store (exec (Scheduler.passes envTimeout 2)
                                  (worldWith [failingUpdate; orderUpdate]))))).
Proof.
  refine (proj1 (proj2 (passes_keep_identifiers_unique envTimeout 2
                          (worldWith [failingUpdate; orderUpdate]) _))).
  apply worldWith_Ready.
  - simpl. repeat constructor; simpl; intuition discriminate.
  - intros i [<-|[<-|[]]]; reflexivity.
Defined.

Lemma added_origin E added : forall ts lo hi x,
  Forall2 (builtAt E) added ts -> increasing lo hi ts -> In x added ->
  retryCount x = 0%Z /\ exists t, lo <= t /\ t < hi /\ id x = genId E t.
Proof.
  induction added as [|a r IH]; intros ts lo hi x Hb Hi Hin; [contradiction|].
  inversion Hb as [|? t ? rt [Hr Hid] Hrest]; subst.
  simpl in Hi. destruct Hi as [Hlo Hi'].
  destruct Hin as [->|Hin].
  - split; [exact Hr|]. exists t. pose proof (increasing_le _ _ _ Hi').
    repeat split; try lia. exact Hid.
  - destruct (IH rt (S t) hi x Hrest Hi' Hin) as (H0 & t' & Ha & Hb' & Hc).
    split; [exact H0|]. exists t'. repeat split; try lia. exact Hc.
Qed.

(** X4.  After a pass, every operation in the queue is either an operation
    of the snapshot with its [retryCount] raised by exactly one (and then
    the eviction test did not hold for it), or was enqueued during the pass
    with [retryCount = 0].  No operation comes out of a pass untouched. *)
Theorem queue_after_pass E w x :
  Ready E w -> syncQueue (store w) <> [] ->
  In x (syncQueue (store (exec (SyncService.performSync E) w))) ->
  (exists op, In op (syncQueue (store w)) /\ x = bumpRetry op /\
              (retryCount op < maxRetries op)%Z) \/
  (retryCount x = 0%Z /\ exists t, clock w < t /\ id x = genId E t).
Proof.
  intros HR Hne Hin.
  destruct (performSync_spec E w HR Hne) as ((added & ts & Hq & Hb & Hi) & _).
  rewrite Hq in Hin. apply in_app_or in Hin. destruct Hin as [Hin|Hin].
  - left. destruct (keptOps_origin E _ _ _ Hin) as (op & Ho & He & Hx).
    exists op. split; [exact Ho | split; [exact He|]].
    unfold exhausted in Hx. apply Z.leb_gt in Hx. exact Hx.
  - right. destruct (added_origin E added ts _ _ x Hb Hi Hin) as (H0 & t & Ha & _ & Hc).
    split; [exact H0|]. exists t. split; [lia | exact Hc].
Qed.

Lemma queue_after_pass_witness :
  (exists op, In op [failingUpdate] /\ bumpRetry failingUpdate = bumpRetry op /\
              (retryCount op < maxRetries op)%Z) \/
  (retryCount (bumpRetry failingUpdate) = 0%Z /\
   exists t, 0 < t /\ id (bumpRetry failingUpdate) = genId envNotFound t).
Proof.
  refine (queue_after_pass envNotFound (worldWith [failingUpdate]) (bumpRetry failingUpdate)
            (singleton_Ready _ _ _ _ failingUpdate eq_refl) _ _).
  - discriminate.
  - vm_compute. left. reflexivity.
Defined.

(* ===================================================================== *)
(** ** Further properties of the router                                   *)
(* ===================================================================== *)

Lemma settle_bad_status st d :
  OnlineApiService.successStatus st = false -> st <> 0%Z ->
  exists e msg,
    OnlineApiService.settle OnlineApiService.successStatus (Responded st d) = inr e /\
    response e = Some {| status := st; body := d |} /\
    OnlineApiService.handleError e = ApiError st msg.
Proof.
  intros Hs H0. unfold OnlineApiService.settle. rewrite Hs.
  destruct (Z.eqb_spec st 0) as [e0|_]; [contradiction|]. simpl.
  eexists. eexists. split; [reflexivity|]. split; [reflexivity|].
  unfold OnlineApiService.handleError, OnlineApiService.networkCondition,
    OnlineApiService.hasResponse, OnlineApiService.badStatusCode,
    OnlineApiService.codeIs. simpl.
  destruct (Z.eqb_spec st 0) as [e0|_]; [contradiction|].
  destruct (andb (400 <=? st)%Z (st <? 500)%Z); simpl; [reflexivity|].
  destruct (andb (500 <=? st)%Z (st <? 600)%Z); simpl; reflexivity.
Qed.

Section ApplicationErrors.
Variable E : Env.
Variable st : Z.
Variable d0 : JsValue.
Hypothesis bad : OnlineApiService.successStatus st = false.
Hypothesis nonzero : st <> 0%Z.

Lemma clientRequest_bad_status m ep d w :
  (forall r, transport E (clock w) r = Responded st d0) ->
  exists e msg,
    result (OnlineApiService.clientRequest E m ep d 10000 OnlineApiService.successStatus) w
    = Throw (ThrownAxios e) /\
    OnlineApiService.handleError e = ApiError st msg.
Proof.
  intros Ht. destruct (settle_bad_status st d0 bad nonzero) as (e & msg & Hs & _ & Hh).
  exists e, msg. split; [|exact Hh].
  unfold result, OnlineApiService.clientRequest, OnlineApiService.axiosSend, bind,
    getWorld, log, modify, tick, ret, throw, logout. simpl.
  rewrite Ht, Hs. destruct (OnlineApiService.isAuthStatus e); reflexivity.
Qed.

Lemma api_post_bad_status ep d w :
  (forall r, transport E (clock w) r = Responded st d0) ->
  exists msg, result (OnlineApiService.post E ep d) w = Throw (ApiError st msg).
Proof.
  intros Ht. destruct (clientRequest_bad_status POST ep d w Ht) as (e & msg & Hr & Hh).
  exists msg. unfold result, OnlineApiService.post, tryCatch, bind in *.
  destruct (OnlineApiService.clientRequest E POST ep d 10000 _ w) as [w1 o].
  simpl in *. subst o. simpl. rewrite Hh. reflexivity.
Qed.

Lemma api_put_bad_status ep d w :
  (forall r, transport E (clock w) r = Responded st d0) ->
  exists msg, result (OnlineApiService.put E ep d) w = Throw (ApiError st msg).
Proof.
  intros Ht. destruct (clientRequest_bad_status PUT ep d w Ht) as (e & msg & Hr & Hh).
  exists msg. unfold result, OnlineApiService.put, tryCatch, bind in *.
  destruct (OnlineApiService.clientRequest E PUT ep d 10000 _ w) as [w1 o].
  simpl in *. subst o. simpl. rewrite Hh. reflexivity.
Qed.

Lemma api_delete_bad_status ep w :
  (forall r, transport E (clock w) r = Responded st d0) ->
  exists msg, result (OnlineApiService.delete E ep) w = Throw (ApiError st msg).
Proof.
  intros Ht.
  destruct (clientRequest_bad_status DELETE ep JUndefined w Ht) as (e & msg & Hr & Hh).
  exists msg. unfold result, OnlineApiService.delete, tryCatch, bind in *.
  destruct (OnlineApiService.clientRequest E DELETE ep JUndefined 10000 _ w) as [w1 o].
  simpl in *. subst o. simpl. rewrite Hh. reflexivity.
Qed.

Lemma api_get_bad_status ep w :
  (forall r, transport E (clock w) r = Responded st d0) ->
  exists msg, result (OnlineApiService.get E ep) w = Throw (ApiError st msg).
Proof.
  intros Ht. destruct (settle_bad_status st d0 bad nonzero) as (e & msg & Hs & _ & Hh).
  exists msg.
  unfold result, OnlineApiService.get, OnlineApiService.axiosSend, bind,
    getWorld, log, modify, tick, ret, throw. simpl.
  rewrite Ht, Hs, Hh. reflexivity.
Qed.

End ApplicationErrors.

(** X5.  An application error is propagated and never queued.  Online, when
    the server answers the call with an HTTP status outside 200..299, each
    of the four router operations throws an [ApiError] carrying that status,
    leaves the offline store (queue included) as it was, and runs no local
    command. *)
Theorem application_error_is_rethrown_not_queued
    E w ep d cmd args opT st body :
  result (OnlineFirstService.isOnline E) w = Ok true ->
  (forall r, transport E (clock (exec (OnlineFirstService.isOnline E) w)) r
             = Responded st body) ->
  OnlineApiService.successStatus st = false -> st <> 0%Z ->
  forall m,
    In m [OnlineFirstService.get E ep cmd args;
          OnlineFirstService.create E ep d cmd opT;
          OnlineFirstService.update E ep d cmd args opT;
          OnlineFirstService.delete E ep cmd args opT] ->
    (exists msg, result m w = Throw (ApiError st msg)) /\
    store (exec m w) = store w /\
    invokes (trace (exec m w)) = invokes (trace w).
Proof.
  intros Hon Ht Hbad H0 m Hm.
  set (w1 := exec (OnlineFirstService.isOnline E) w) in *.
  pose proof (isOnline_store E w) as Hst. fold w1 in Hst.
  pose proof (isOnline_sameInvokes E w) as Hiv. unfold sameInvokes in Hiv. fold w1 in Hiv.
  simpl in Hm. destruct Hm as [<-|[<-|[<-|[<-|[]]]]].
  - destruct (api_get_bad_status E st body Hbad H0 ep w1 Ht) as [msg Hr].
    pose proof (router_get_error E ep cmd args w _ Hon Hr) as Hg. simpl in Hg.
    unfold result, exec. rewrite Hg. simpl.
    split; [exists msg; reflexivity|]. fold w1. split.
    + rewrite (api_get_sameStore E ep w1). exact Hst.
    + rewrite (api_get_sameInvokes E ep w1). exact Hiv.
  - destruct (api_post_bad_status E st body Hbad H0 ep d w1 Ht) as [msg Hr].
    pose proof (router_create_error E ep d cmd opT w _ Hon Hr) as Hg. simpl in Hg.
    unfold result, exec. rewrite Hg. simpl.
    split; [exists msg; reflexivity|]. fold w1. split.
    + rewrite (api_post_sameStore E ep d w1). exact Hst.
    + rewrite (api_post_sameInvokes E ep d w1). exact Hiv.
  - destruct (api_put_bad_status E st body Hbad H0 ep d w1 Ht) as [msg Hr].
    pose proof (router_update_error E ep d cmd args opT w _ Hon Hr) as Hg. simpl in Hg.
    unfold result, exec. rewrite Hg. simpl.
    split; [exists msg; reflexivity|]. fold w1. split.
    + rewrite (api_put_sameStore E ep d w1). exact Hst.
    + rewrite (api_put_sameInvokes E ep d w1). exact Hiv.
  - destruct (api_delete_bad_status E st body Hbad H0 ep w1 Ht) as [msg Hr].
    pose proof (router_delete_error E ep cmd args opT w _ Hon Hr) as Hg. simpl in Hg.
    unfold result, exec. rewrite Hg. simpl.
    split; [exists msg; reflexivity|]. fold w1. split.
    + rewrite (api_delete_sameStore E ep w1). exact Hst.
    + pose proof (clientRequest_sameInvokes E DELETE ep JUndefined 10000
                    OnlineApiService.successStatus w1) as Hc.
      unfold sameInvokes in Hc. rewrite <- Hiv, <- Hc.
      unfold exec, OnlineApiService.delete, tryCatch, bind.
      destruct (OnlineApiService.clientRequest E DELETE ep JUndefined 10000 _ w1)
        as [w2 [r|e]]; reflexivity.
Qed.

Lemma application_error_is_rethrown_not_queued_witness :
  let E := envThen 1 (Responded 200 JNull) (Responded 404 JNull) (LocalOk JNull) in
  let m := OnlineFirstService.create E "/inventory/products" milk
             "create_product" "product_create" in
  (exists msg, result m (emptyWorld true) = Throw (ApiError 404 msg)) /\
  store (exec m (emptyWorld true)) = store (emptyWorld true) /\
  invokes (trace (exec m (emptyWorld true))) = invokes (trace (emptyWorld true)).
Proof.
  refine (application_error_is_rethrown_not_queued
            (envThen 1 (Responded 200 JNull) (Responded 404 JNull) (LocalOk JNull))
            (emptyWorld true)
            "/inventory/products" milk "create_product" JUndefined "product_create"
            404 JNull eq_refl _ eq_refl _ _ _).
  - intros r. reflexivity.
  - discriminate.
  - right. left. reflexivity.
Defined.

(** X6.  Online, when the server accepts a create or an update, the router
    returns the server's result, leaves the offline store as it was and runs
    no local command: [updateLocalData] writes nothing. *)
Theorem online_success_writes_nothing_locally E w ep d cmd args opT r :
  result (OnlineFirstService.isOnline E) w = Ok true ->
  result (OnlineApiService.post E ep d) (exec (OnlineFirstService.isOnline E) w) = Ok r ->
  result (OnlineApiService.put E ep d) (exec (OnlineFirstService.isOnline E) w) = Ok r ->
  forall m,
    In m [OnlineFirstService.create E ep d cmd opT;
          OnlineFirstService.update E ep d cmd args opT] ->
    result m w = Ok r /\
    store (exec m w) = store w /\
    invokes (trace (exec m w)) = invokes (trace w).
Proof.
  intros Hon Hpost Hput m Hm.
  set (w1 := exec (OnlineFirstService.isOnline E) w) in *.
  pose proof (isOnline_store E w) as Hst. fold w1 in Hst.
  pose proof (isOnline_sameInvokes E w) as Hiv. unfold sameInvokes in Hiv. fold w1 in Hiv.
  simpl in Hm. destruct Hm as [<-|[<-|[]]].
  - unfold result, exec. rewrite (router_create_success E ep d cmd opT w r Hon Hpost).
    simpl. fold w1. split; [reflexivity|]. split.
    + rewrite (api_post_sameStore E ep d w1). exact Hst.
    + rewrite (api_post_sameInvokes E ep d w1). exact Hiv.
  - unfold result, exec. rewrite (router_update_success E ep d cmd args opT w r Hon Hput).
    simpl. fold w1. split; [reflexivity|]. split.
    + rewrite (api_put_sameStore E ep d w1). exact Hst.
    + rewrite (api_put_sameInvokes E ep d w1). exact Hiv.
Qed.

Lemma online_success_writes_nothing_locally_witness :
  let E := envServer (Responded 201 serverMilk) in
  let m := OnlineFirstService.create E "/inventory/products" milk
             "create_product" "product_create" in
  result m (emptyWorld true) = Ok serverMilk /\
  store (exec m (emptyWorld true)) = store (emptyWorld true) /\
  invokes (trace (exec m (emptyWorld true))) = invokes (trace (emptyWorld true)).
Proof.
  refine (online_success_writes_nothing_locally (envServer (Responded 201 serverMilk))
            (emptyWorld true) "/inventory/products" milk "create_product" JUndefined
            "product_create" serverMilk eq_refl eq_refl eq_refl _ _).
  left. reflexivity.
Defined.

Lemma api_delete_sameInvokes E ep : Keeps sameInvokes (OnlineApiService.delete E ep).
Proof.
  unfold OnlineApiService.delete.
  apply (keeps_tryCatch _ sameInvokes_trans); [|intros; keeps_invokes].
  apply (keeps_bind _ sameInvokes_trans);
    [apply clientRequest_sameInvokes | intros; keeps_invokes].
Qed.

(** X7.  An online delete removes remotely first and locally second.  When
    the local command answers, the router returns the server's result; when
    the local command rejects, the caller gets that rejection although the
    server has already deleted the entity.  Either way nothing is queued. *)
Theorem online_delete_remote_then_local E w ep cmd args opT r :
  result (OnlineFirstService.isOnline E) w = Ok true ->
  result (OnlineApiService.delete E ep) (exec (OnlineFirstService.isOnline E) w) = Ok r ->
  let w2 := exec (OnlineApiService.delete E ep) (exec (OnlineFirstService.isOnline E) w) in
  let m := OnlineFirstService.delete E ep cmd args opT in
  store (exec m w) = store w /\
  invokes (trace (exec m w)) = invokes (trace w) ++ [(cmd, args)] /\
  result m w = match tauriInvoke E (clock w2) cmd args with
               | LocalOk _ => Ok r
               | LocalErr msg => Throw (Rejected msg)
               end.
Proof.
  intros Hon Hdel w2 m.
  set (w1 := exec (OnlineFirstService.isOnline E) w) in *.
  pose proof (isOnline_store E w) as Hst. fold w1 in Hst.
  pose proof (isOnline_sameInvokes E w) as Hiv. unfold sameInvokes in Hiv. fold w1 in Hiv.
  pose proof (api_delete_sameStore E ep w1) as Hs2. unfold sameStore in Hs2. fold w2 in Hs2.
  pose proof (api_delete_sameInvokes E ep w1) as Hi2. unfold sameInvokes in Hi2.
  fold w2 in Hi2.
  unfold m, result, exec.
  rewrite (router_delete_success E ep cmd args opT w r Hon Hdel). fold w1. fold w2.
  cbv zeta. unfold exec, result, invoke, bind, log, modify, tick, ret, throw. simpl.
  destruct (tauriInvoke E (clock w2) cmd args); simpl;
    rewrite invokes_app, Hi2, Hiv, Hs2, Hst; repeat split; reflexivity.
Qed.

Lemma online_delete_remote_then_local_witness :
  let E := demoEnv true (Responded 200 JNull) (Responded 204 JNull)
             (LocalErr (Some "database is locked"%string)) in
  let m := OnlineFirstService.delete E "/inventory/products/42" "delete_product"
             (JObj [("id"%string, JNum 42)]) "product_delete" in
  result m (emptyWorld true) = Throw (Rejected (Some "database is locked"%string)) /\
  store (exec m (emptyWorld true)) = store (emptyWorld true).
Proof.
  destruct (online_delete_remote_then_local
              (demoEnv true (Responded 200 JNull) (Responded 204 JNull)
                 (LocalErr (Some "database is locked"%string)))
              (emptyWorld true) "/inventory/products/42" "delete_product"
              (JObj [("id"%string, JNum 42)]) "product_delete" JNull eq_refl eq_refl)
    as (Hs & _ & Hr).
  split; [exact Hr | exact Hs].
Defined.

(** X8.  An offline mutation whose operation type has no underscore runs the
    local command and then throws a TypeError on the undefined type: the
    caller sees a failure, the Local Data Store has been changed, and
    nothing has been queued for the Remote Data Service. *)
Theorem offline_mutation_without_type_segment E w ep d cmd opT r :
  result (OnlineFirstService.isOnline E) w = Ok false ->
  tauriInvoke E (clock (exec (OnlineFirstService.isOnline E) w)) cmd d = LocalOk r ->
  nth_error (split "_" opT) 1 = None ->
  let m := OnlineFirstService.create E ep d cmd opT in
  result m w = Throw TypeError /\
  store (exec m w) = store w /\
  invokes (trace (exec m w)) = invokes (trace w) ++ [(cmd, d)] /\
  enqueued (trace (exec m w)) = enqueued (trace w).
Proof.
  intros Hoff Hi Hn m.
  set (w1 := exec (OnlineFirstService.isOnline E) w) in *.
  pose proof (isOnline_store E w) as Hst. fold w1 in Hst.
  pose proof (isOnline_sameInvokes E w) as Hiv. unfold sameInvokes in Hiv. fold w1 in Hiv.
  assert (Hen : enqueued (trace w1) = enqueued (trace w)).
  { unfold w1, exec. destruct (navigatorOnLine E (clock w)) eqn:Hnav.
    - rewrite (isOnline_navigator_on E w Hnav). simpl.
      unfold enqueued. rewrite flat_map_app. simpl. rewrite app_nil_r. reflexivity.
    - rewrite (isOnline_navigator_off E w Hnav). reflexivity. }
  unfold m, result, exec. rewrite (router_offline_create E ep d cmd opT w Hoff). fold w1.
  unfold OnlineFirstService.createOfflineAndQueue, OnlineFirstService.addToSyncQueue.
  rewrite Hn.
  unfold invoke, bind, log, modify, tick, ret, throw. simpl. rewrite Hi. simpl.
  rewrite invokes_app, Hiv, Hst. unfold enqueued at 1. rewrite flat_map_app. simpl.
  rewrite app_nil_r. fold (enqueued (trace w1)). rewrite Hen. repeat split; reflexivity.
Qed.

Lemma offline_mutation_without_type_segment_witness :
  let m := OnlineFirstService.create envOffline "/inventory/products" milk
             "create_product" "productcreate" in
  result m (emptyWorld false) = Throw TypeError /\
  store (exec m (emptyWorld false)) = store (emptyWorld false) /\
  invokes (trace (exec m (emptyWorld false)))
  = invokes (trace (emptyWorld false)) ++ [("create_product"%string, milk)] /\
  enqueued (trace (exec m (emptyWorld false))) = enqueued (trace (emptyWorld false)).
Proof.
  exact (offline_mutation_without_type_segment envOffline (emptyWorld false)
           "/inventory/products" milk "create_product" "productcreate" (JNum 1)
           eq_refl eq_refl eq_refl).
Defined.

Lemma processOperation_product_create E op w :
  entity op = "product"%string -> type op = "CREATE"%string ->
  SyncService.processOperation E op w
  = bind (OnlineFirstService.create E "/inventory/products" (data op)
            "create_product" "product_create")
         (fun _ => ret tt) (emit (EvReplay (id op)) w).
Proof.
  intros He Ht.
  unfold SyncService.processOperation, SyncService.dispatch, SyncService.syncProduct,
    InventoryService.createProduct, OnlineFirstService.products_create.
  rewrite He, Ht. reflexivity.
Qed.

(** X9.  A replay does not count network trouble as a failure.  When the
    remote is unreachable at replay time (the router's own connectivity
    check answers false), the replay of a queued product creation runs the
    local command again, enqueues a fresh operation with [retryCount = 0]
    whose payload is the old operation's whole [data], and returns; the pass
    then removes the old operation and logs it as synced. *)
Theorem replay_while_unreachable_requeues E w op r :
  entity op = "product"%string -> type op = "CREATE"%string ->
  let w0 := emit (EvReplay (id op)) w in
  let w1 := exec (OnlineFirstService.isOnline E) w0 in
  result (OnlineFirstService.isOnline E) w0 = Ok false ->
  tauriInvoke E (clock w1) "create_product" (data op) = LocalOk r ->
  let op' := queuedAt E (set_clock (S (clock w1)) w1) "product_create"
               "/inventory/products" "POST" (data op) "create" in
  let w' := exec (SyncService.syncOne E op) w in
  syncQueue (store w') = withoutId (id op) (syncQueue (store w) ++ [op']) /\
  retryCount op' = 0%Z /\
  data op' = OnlineFirstService.queuedData "/inventory/products" "POST" (data op) /\
  syncErrors (store w') = syncErrors (store w) /\
  logsSince w w' = [LogSynced (id op)] /\
  invokes (trace w') = invokes (trace w) ++ [("create_product"%string, data op)].
Proof.
  intros He Ht w0 w1 Hoff Hi op' w'.
  pose proof (isOnline_store E w0) as Hst. fold w1 in Hst.
  pose proof (isOnline_sameInvokes E w0) as Hiv. unfold sameInvokes in Hiv. fold w1 in Hiv.
  assert (Hlg : syncLogs (trace w1) = syncLogs (trace w)).
  { pose proof (Extends_Aside E _ _ (frame_isOnline E w0)) as (_ & _ & Hl).
    fold w1 in Hl. rewrite Hl. unfold w0. simpl. rewrite syncLogs_app. simpl.
    apply app_nil_r. }
  assert (Hrun : SyncService.processOperation E op w
                 = (let at1 := set_clock (S (clock w1)) w1 in
                    {| store := enqueue op' (store w1); authToken := authToken w1;
                       syncInterval := syncInterval w1; isInitialized := isInitialized w1;
                       timeouts := timeouts w1; clock := 4 + clock w1;
                       trace := trace w1 ++ [EvInvoke "create_product" (data op);
                                             EvEnqueue op';
                                             EvToastSuccess
                                               "Created offline. Will sync when online."] |},
                    Ok tt)).
  { rewrite (processOperation_product_create E op w He Ht). fold w0.
    unfold bind at 1.
    rewrite (router_offline_create E _ _ _ _ w0 Hoff). fold w1.
    unfold OnlineFirstService.createOfflineAndQueue.
    rewrite (offlineAndQueue_run E w1 "create_product" (data op) "product_create"
               "/inventory/products" "POST" (data op) _ r "create" Hi eq_refl).
    reflexivity. }
  destruct (syncOne_exec E op w) as (Hq & Hen & Htr & _).
  fold w' in Hq, Hen, Htr.
  assert (Hth : threw E op w = false) by (unfold threw, result; rewrite Hrun; reflexivity).
  rewrite Hth in Hq, Hen, Htr. unfold exec in Hq, Hen, Htr.
  rewrite Hrun in Hq, Hen, Htr. cbn -[queuedAt withoutId] in Hq, Hen, Htr.
  fold op' in Hq, Htr. rewrite Hst in Hq, Hen.
  split; [exact Hq|]. split; [reflexivity|]. split; [reflexivity|].
  split; [rewrite Hen; apply app_nil_r|].
  unfold logsSince. rewrite Htr.
  rewrite <- !app_assoc, !syncLogs_app, !invokes_app, Hlg, Hiv.
  cbn -[queuedAt skipn]. rewrite skipn_app, skipn_all, Nat.sub_diag.
  split; [reflexivity|].
  unfold w0. simpl. rewrite invokes_app. simpl. rewrite !app_nil_r. reflexivity.
Qed.

Lemma replay_while_unreachable_requeues_witness :
  let w' := exec (SyncService.syncOne envOffline createOp) (worldWith [createOp]) in
  map retryCount (syncQueue (store w')) = [0%Z] /\
  ~ In (id createOp) (ids (syncQueue (store w'))) /\
  logsSince (worldWith [createOp]) w' = [LogSynced (id createOp)].
Proof.
  destruct (replay_while_unreachable_requeues envOffline (worldWith [createOp]) createOp
              (JNum 1) eq_refl eq_refl eq_refl eq_refl)
    as (Hq & _ & _ & _ & Hl & _).
  cbv zeta. rewrite Hq, Hl. split; [reflexivity|]. split; [|reflexivity].
  vm_compute. intuition discriminate.
Defined.

(** X10.  No router operation changes the online flag, the syncing flag, the
    last-attempt time, the sync errors, the cached offline data or the
    timers; what it may do to the queue is append operations with
    [retryCount = 0], and a read does not even do that. *)
Theorem router_leaves_engine_state_alone E w ep d cmd args opT :
  (forall m,
      In m [OnlineFirstService.get E ep cmd args;
            OnlineFirstService.create E ep d cmd opT;
            OnlineFirstService.update E ep d cmd args opT;
            OnlineFirstService.delete E ep cmd args opT] ->
      storeRest (store (exec m w)) = storeRest (store w) /\
      worldRest (exec m w) = worldRest w /\
      exists added,
        syncQueue (store (exec m w)) = syncQueue (store w) ++ added /\
        Forall (fun op => retryCount op = 0%Z) added) /\
  store (exec (OnlineFirstService.get E ep cmd args) w) = store w.
Proof.
  split.
  - intros m Hm.
    assert (Hx : Extends E w (exec m w)).
    { simpl in Hm. destruct Hm as [<-|[<-|[<-|[<-|[]]]]].
      - apply frame_router_get.
      - apply frame_router_create.
      - apply frame_router_update.
      - apply frame_router_delete. }
    destruct Hx as [_ (added & ts & Hq & Hb & _) Hs Hw _].
    split; [exact Hs | split; [exact Hw|]].
    exists added. split; [exact Hq|].
    clear Hq. induction Hb as [|x t r rt [H0 _] _ IH]; constructor; assumption.
  - assert (Hk : Keeps sameStore (OnlineFirstService.get E ep cmd args)).
    { unfold OnlineFirstService.get, OnlineFirstService.updateLocalData.
      apply (keeps_bind _ sameStore_trans); [intros w0; apply isOnline_store | intros b].
      destruct b; [|apply invoke_sameStore].
      apply (keeps_tryCatch _ sameStore_trans).
      - apply (keeps_bind _ sameStore_trans); [apply api_get_sameStore | intros; keeps_store].
      - intros e. destruct (OnlineApiService.isNetworkError e);
          [apply invoke_sameStore | keeps_store]. }
    apply Hk.
Qed.

Lemma router_leaves_engine_state_alone_witness :
  let m := OnlineFirstService.create envTimeout "/inventory/products" milk
             "create_product" "product_create" in
  storeRest (store (exec m (worldWith [orderUpdate]))) = storeRest (store (worldWith [orderUpdate])) /\
  worldRest (exec m (worldWith [orderUpdate])) = worldRest (worldWith [orderUpdate]) /\
  exists added,
    syncQueue (store (exec m (worldWith [orderUpdate])))
    = syncQueue (store (worldWith [orderUpdate])) ++ added /\
    Forall (fun op => retryCount op = 0%Z) added.
Proof.
  refine (proj1 (router_leaves_engine_state_alone envTimeout (worldWith [orderUpdate])
                   "/inventory/products" milk "create_product" JUndefined "product_create")
            _ _).
  right. left. reflexivity.
Defined.

(* ===================================================================== *)
(** ** Replays of user operations, sessions                               *)
(* ===================================================================== *)

(** X11.  The replay of a queued user UPDATE or DELETE never contacts the
    Remote Data Service: it only runs the local Tauri command, so its
    success says nothing about the remote state. *)
Theorem user_update_delete_replay_is_local_only E op w :
  entity op = "user"%string ->
  type op = "UPDATE"%string \/ type op = "DELETE"%string ->
  httpRequests (trace (exec (SyncService.processOperation E op) w))
  = httpRequests (trace w).
Proof.
  intros He Ht.
  assert (Hk : Keeps sameHttp (SyncService.processOperation E op)).
  { unfold SyncService.processOperation, SyncService.dispatch, SyncService.syncUser,
      UserService.updateUser, UserService.deleteUser, prop, log.
    rewrite He. simpl.
    destruct Ht as [Ht|Ht]; rewrite Ht; simpl.
    - apply (keeps_bind _ sameHttp_trans); [keeps_http | intros _].
      apply (keeps_bind _ sameHttp_trans); [keeps_http | intros i].
      apply (keeps_bind _ sameHttp_trans); [|intros; keeps_http].
      do 3 (apply (keeps_bind _ sameHttp_trans); [keeps_http | intros ?]).
      apply secureInvoke_sameHttp.
    - apply (keeps_bind _ sameHttp_trans); [keeps_http | intros _].
      apply (keeps_bind _ sameHttp_trans); [keeps_http | intros i].
      apply (keeps_bind _ sameHttp_trans); [|intros; keeps_http].
      apply secureInvoke_sameHttp. }
  apply Hk.
Qed.

Lemma user_update_delete_replay_is_local_only_witness :
  let op := {| id := "op-u"; type := "DELETE"; entity := "user";
               data := JObj [("id"%string, JNum 3)]; timestamp := 0;
               retryCount := 0; maxRetries := 5 |} in
  httpRequests (trace (exec (SyncService.processOperation envNotFound op)
                         (worldWith [op])))
  = httpRequests (trace (worldWith [op])).
Proof.
  exact (user_update_delete_replay_is_local_only envNotFound
           {| id := "op-u"; type := "DELETE"; entity := "user";
              data := JObj [("id"%string, JNum 3)]; timestamp := 0;
              retryCount := 0; maxRetries := 5 |} _ eq_refl (or_intror eq_refl)).
Defined.

(** X12.  [secureInvoke] and the session.  When the Tauri command rejects
    with an authentication message, the caller gets "Authentication
    failed", the user is told and sent to the login page, and the token is
    dropped; every later [secureInvoke] then fails with "No authentication
    token available" without reaching Tauri. *)
Theorem secureInvoke_session_loss E w cmd args cmd' args' tok msg :
  authToken w = Some tok -> tok <> EmptyString ->
  tauriInvoke E (clock w) cmd (JObj (objSet "token" (JStr tok) (spread args)))
  = LocalErr (Some msg) ->
  ApiInterceptor.authMessage msg = true ->
  let w1 := exec (ApiInterceptor.secureInvoke E cmd args) w in
  result (ApiInterceptor.secureInvoke E cmd args) w
  = Throw (JsError "Authentication failed") /\
  authToken w1 = None /\
  trace w1
  = trace w ++ [EvInvoke cmd (JObj (objSet "token" (JStr tok) (spread args)));
                EvToastError "Your session has expired. Please log in again.";
                EvRedirect "/login"] /\
  ApiInterceptor.secureInvoke E cmd' args' w1
  = (w1, Throw (JsError "No authentication token available")).
Proof.
  intros Ha Hne Hi Hm w1.
  assert (Hb : OnlineApiService.bearer (Some tok) = Some ("Bearer " ++ tok)%string).
  { unfold OnlineApiService.bearer. destruct (String.eqb_spec tok ""); [contradiction|].
    reflexivity. }
  assert (Hrun : ApiInterceptor.secureInvoke E cmd args w
                 = ({| store := store w; authToken := None;
                       syncInterval := syncInterval w; isInitialized := isInitialized w;
                       timeouts := timeouts w; clock := S (clock w);
                       trace := trace w
                                ++ [EvInvoke cmd (JObj (objSet "token" (JStr tok) (spread args)));
                                    EvToastError "Your session has expired. Please log in again.";
                                    EvRedirect "/login"] |},
                    Throw (JsError "Authentication failed"))).
  { unfold ApiInterceptor.secureInvoke, bind at 1, getWorld. rewrite Ha, Hb.
    unfold tryCatch, invoke, bind, log, modify, tick, ret, throw, logout. simpl.
    rewrite Hi. simpl. unfold ApiInterceptor.isAuthRejection. simpl. rewrite Hm.
    unfold emit, set_authToken, set_clock. simpl. rewrite <- !app_assoc. reflexivity. }
  unfold w1, result, exec. rewrite Hrun. simpl.
  repeat split; reflexivity.
Qed.

Lemma secureInvoke_session_loss_witness :
  let E := demoEnv true (Responded 200 JNull) (Responded 200 JNull)
             (LocalErr (Some "Invalid token: expired"%string)) in
  let w := set_authToken (Some "t0k3n"%string) (emptyWorld true) in
  result (ApiInterceptor.secureInvoke E "delete_user" (JObj [("userId"%string, JNum 3)])) w
  = Throw (JsError "Authentication failed") /\
  authToken (exec (ApiInterceptor.secureInvoke E "delete_user"
                     (JObj [("userId"%string, JNum 3)])) w) = None.
Proof.
  destruct (secureInvoke_session_loss
              (demoEnv true (Responded 200 JNull) (Responded 200 JNull)
                 (LocalErr (Some "Invalid token: expired"%string)))
              (set_authToken (Some "t0k3n"%string) (emptyWorld true))
              "delete_user" (JObj [("userId"%string, JNum 3)]) "get_users" JUndefined
              "t0k3n" "Invalid token: expired" eq_refl)
    as (Hr & Ht & _); try reflexivity; [discriminate|].
  split; [exact Hr | exact Ht].
Defined.

(** X13.  A 401 or 403 answer and the session.  On post, put and delete,
    which go through the axios client and its interceptor, such an answer
    logs the user out; on get, which calls axios directly, it does not; and
    the connectivity probe takes it for "reachable" and leaves the session
    alone. *)
Theorem unauthorized_answer_and_the_session E w ep d st body :
  (forall r, transport E (clock w) r = Responded st body) ->
  st = 401%Z \/ st = 403%Z ->
  authToken (exec (OnlineApiService.post E ep d) w) = None /\
  authToken (exec (OnlineApiService.put E ep d) w) = None /\
  authToken (exec (OnlineApiService.delete E ep) w) = None /\
  authToken (exec (OnlineApiService.get E ep) w) = authToken w /\
  authToken (exec (OnlineApiService.checkConnectivity E) w) = authToken w /\
  result (OnlineApiService.checkConnectivity E) w = Ok true.
Proof.
  intros Ht Hst.
  unfold exec, result, OnlineApiService.post, OnlineApiService.put,
    OnlineApiService.delete, OnlineApiService.get, OnlineApiService.checkConnectivity,
    OnlineApiService.clientRequest, OnlineApiService.axiosSend, tryCatch, bind,
    getWorld, log, modify, tick, ret, throw, logout. simpl.
  rewrite !Ht.
  destruct Hst as [->| ->]; simpl; repeat split; reflexivity.
Qed.

Lemma unauthorized_answer_and_the_session_witness :
  let E := envThen 0 (Responded 401 JNull) (Responded 401 JNull) (LocalOk JNull) in
  let w := set_authToken (Some "t0k3n"%string) (emptyWorld true) in
  authToken (exec (OnlineApiService.post E "/users" milk) w) = None /\
  authToken (exec (OnlineApiService.get E "/users") w) = Some "t0k3n"%string.
Proof.
  destruct (unauthorized_answer_and_the_session
              (envThen 0 (Responded 401 JNull) (Responded 401 JNull) (LocalOk JNull))
              (set_authToken (Some "t0k3n"%string) (emptyWorld true))
              "/users" milk 401 JNull (fun r => eq_refl) (or_introl eq_refl))
    as (Hp & _ & _ & Hg & _).
  split; [exact Hp | exact Hg].
Defined.

(* ===================================================================== *)
(** ** The queue store                                                    *)
(* ===================================================================== *)

Lemma set_syncQueue_same s : set_syncQueue (syncQueue s) s = s.
Proof. destruct s. reflexivity. Qed.

Lemma withoutId_idempotent i q : withoutId i (withoutId i q) = withoutId i q.
Proof. apply withoutId_absent. apply withoutId_not_in. Qed.

(** X14.  Laws of the queue store.  Removing or incrementing an identifier
    that is not queued changes nothing; removing twice is removing once;
    enqueueing an operation with a new identifier and removing it gives the
    store back; incrementing keeps every identifier in place, and with
    unique identifiers raises the retry count of the addressed operation by
    one and of no other. *)
Theorem queue_store_laws s op i :
  (~ In i (ids (syncQueue s)) ->
   removeFromQueue i s = s /\ incrementRetryCount i s = s) /\
  removeFromQueue i (removeFromQueue i s) = removeFromQueue i s /\
  (~ In (id op) (ids (syncQueue s)) -> removeFromQueue (id op) (enqueue op s) = s) /\
  ids (syncQueue (incrementRetryCount i s)) = ids (syncQueue s) /\
  ~ In i (ids (syncQueue (removeFromQueue i s))) /\
  (NoDup (ids (syncQueue s)) -> In op (syncQueue s) ->
   In (bumpRetry op) (syncQueue (incrementRetryCount (id op) s)) /\
   forall other, In other (syncQueue s) -> id other <> id op ->
                 In other (syncQueue (incrementRetryCount (id op) s))).
Proof.
  split; [|split; [|split; [|split; [|split]]]].
  - intros H. unfold removeFromQueue, incrementRetryCount.
    rewrite (withoutId_absent _ _ H), (withRetryBumped_absent _ _ H), set_syncQueue_same.
    split; reflexivity.
  - unfold removeFromQueue. destruct s. simpl. unfold set_syncQueue. simpl.
    rewrite withoutId_idempotent. reflexivity.
  - intros H. unfold removeFromQueue, enqueue. destruct s. simpl in *.
    unfold set_syncQueue. simpl. rewrite withoutId_app. simpl.
    rewrite String.eqb_refl. simpl. rewrite app_nil_r, (withoutId_absent _ _ H). reflexivity.
  - unfold incrementRetryCount. destruct s. simpl. apply ids_withRetryBumped.
  - unfold removeFromQueue. destruct s. simpl. apply withoutId_not_in.
  - intros Hnd Hin. apply in_split in Hin. destruct Hin as (pre & post & Hq).
    unfold incrementRetryCount. destruct s. simpl in *. subst syncQueue0.
    rewrite (withRetryBumped_unique _ _ _ Hnd). split.
    + apply in_or_app. right. left. reflexivity.
    + intros other Ho Hne. apply in_app_or in Ho. apply in_or_app.
      destruct Ho as [Ho|[Ho|Ho]]; [left; exact Ho | | right; right; exact Ho].
      subst other. contradiction.
Qed.

Lemma queue_store_laws_witness :
  removeFromQueue (id orderUpdate)
    (enqueue orderUpdate (store (worldWith [failingUpdate])))
  = store (worldWith [failingUpdate]).
Proof.
  refine (proj1 (proj2 (proj2 (queue_store_laws (store (worldWith [failingUpdate]))
                                 orderUpdate EmptyString))) _).
  simpl. intuition discriminate.
Defined.

(* ===================================================================== *)
(** ** Start-up, status and fallback                                      *)
(* ===================================================================== *)

(** X15.  [initialize] runs once.  From an uninitialised service it copies
    the platform's online flag into the store, starts the periodic timer
    when the platform is online, schedules a delayed [triggerSync] when it
    is online and operations are already queued (a queue restored from
    storage), and marks the service initialised; a second call changes
    nothing. *)
Theorem initialize_once E w :
  isInitialized w = false ->
  let w1 := exec (SyncService.initialize E) w in
  isInitialized w1 = true /\
  isOnline (store w1) = navigatorOnLine E (clock w) /\
  syncQueue (store w1) = syncQueue (store w) /\
  syncInterval w1 = orb (syncInterval w) (navigatorOnLine E (S (clock w))) /\
  timeouts w1
  = timeouts w ++ (if andb (navigatorOnLine E (clock w))
                           (0 <? List.length (syncQueue (store w)))%nat
                   then [DispatchTriggerSync] else []) /\
  trace w1 = trace w /\
  SyncService.initialize E w1 = (w1, Ok tt).
Proof.
  intros Hi.
  unfold SyncService.initialize, setOnlineStatus, SyncService.startPeriodicSync,
    readNavigatorOnLine, exec, bind, modifyStore, modify, getStore, getWorld, tick, ret.
  rewrite Hi. simpl.
  destruct (navigatorOnLine E (clock w)); simpl;
    destruct (0 <? List.length (syncQueue (store w)))%nat; simpl;
    destruct (navigatorOnLine E (S (clock w))); simpl;
    destruct (syncInterval w) eqn:Hsi; simpl;
    rewrite ?app_nil_r, ?Hsi; repeat split; reflexivity.
Qed.

Lemma initialize_once_witness :
  let w1 := exec (SyncService.initialize envNotFound) (worldWith [failingUpdate]) in
  isInitialized w1 = true /\ syncInterval w1 = true /\
  timeouts w1 = [DispatchTriggerSync] /\
  SyncService.initialize envNotFound w1 = (w1, Ok tt).
Proof.
  destruct (initialize_once envNotFound (worldWith [failingUpdate]) eq_refl)
    as (H1 & _ & _ & H2 & H3 & _ & H4).
  repeat split; assumption.
Defined.



Lemma api_post_no_response E ep d w c msg :
  (forall r, transport E (clock w) r = Failed c msg) ->
  OnlineApiService.post E ep d w
  = (set_clock (S (clock w))
       (emit (EvHttp {| method := POST; url := (baseURL E ++ ep)%string; payload := d;
                        timeout := 10000;
                        authorization := OnlineApiService.bearer (authToken w) |}) w),
     Throw (NetworkError msg)).
Proof.
  intros Ht.
  unfold OnlineApiService.post, OnlineApiService.clientRequest,
    OnlineApiService.axiosSend, tryCatch, bind, getWorld, log, modify, tick, ret,
    throw, logout. simpl.
  rewrite Ht. simpl.
  unfold OnlineApiService.handleError, OnlineApiService.networkCondition,
    OnlineApiService.hasResponse. simpl. rewrite !orb_true_r. reflexivity.
Qed.

(** X17.  A network failure during an online create is recovered locally.
    When the probe succeeds but the call itself gets no response, the router
    runs the local command, returns its result, and appends one operation
    with [retryCount = 0] and [maxRetries = 5] that records endpoint, method
    POST and payload; the status reporter then shows one more queued
    operation and the same errors. *)
Theorem network_failure_falls_back_and_queues E w ep d cmd opT t c msg r :
  result (OnlineFirstService.isOnline E) w = Ok true ->
  let w1 := exec (OnlineFirstService.isOnline E) w in
  (forall q, transport E (clock w1) q = Failed c msg) ->
  tauriInvoke E (S (clock w1)) cmd d = LocalOk r ->
  nth_error (split "_" opT) 1 = Some t ->
  let m := OnlineFirstService.create E ep d cmd opT in
  exists op,
    result m w = Ok r /\
    syncQueue (store (exec m w)) = syncQueue (store w) ++ [op] /\
    retryCount op = 0%Z /\ maxRetries op = 5%Z /\
    data op = OnlineFirstService.queuedData ep "POST" d /\
    st_queueLength (getSyncStatus (exec m w)) = S (st_queueLength (getSyncStatus w)) /\
    st_errors (getSyncStatus (exec m w)) = st_errors (getSyncStatus w).
Proof.
  intros Hon w1 Ht Hi Hn m.
  pose proof (isOnline_store E w) as Hst. fold w1 in Hst.
  pose proof (api_post_no_response E ep d w1 c msg Ht) as Hp.
  assert (Hr : result (OnlineApiService.post E ep d) w1 = Throw (NetworkError msg)).
  { unfold result. rewrite Hp. reflexivity. }
  pose proof (router_create_error E ep d cmd opT w _ Hon Hr) as Hg. simpl in Hg.
  fold w1 in Hg. unfold exec in Hg at 1. rewrite Hp in Hg. simpl in Hg.
  set (w2 := set_clock (S (clock w1)) (emit (EvHttp _) w1)) in Hg.
  unfold OnlineFirstService.createOfflineAndQueue in Hg.
  rewrite (offlineAndQueue_run E w2 cmd d opT ep "POST" d _ r t Hi Hn) in Hg.
  eexists. unfold m, result, exec, getSyncStatus. rewrite Hg.
  cbn -[queuedAt]. rewrite Hst, length_app. simpl.
  repeat split; try reflexivity. lia.
Qed.

Lemma network_failure_falls_back_and_queues_witness :
  let E := envThen 1 (Responded 200 JNull) (Failed None "Network Error") (LocalOk (JNum 9)) in
  let m := OnlineFirstService.create E "/inventory/products" milk
             "create_product" "product_create" in
  exists op,
    result m (emptyWorld true) = Ok (JNum 9) /\
    syncQueue (store (exec m (emptyWorld true))) = syncQueue (store (emptyWorld true)) ++ [op] /\
    retryCount op = 0%Z /\ maxRetries op = 5%Z.
Proof.
  destruct (network_failure_falls_back_and_queues
              (envThen 1 (Responded 200 JNull) (Failed None "Network Error")
                 (LocalOk (JNum 9)))
              (emptyWorld true) "/inventory/products" milk "create_product"
              "product_create" "create" None "Network Error" (JNum 9)
              eq_refl (fun q => eq_refl) eq_refl eq_refl)
    as (op & Hr & Hq & H0 & H5 & _).
  exists op. repeat split; assumption.
Defined.

(* ===================================================================== *)
(** ** What goes over the wire                                            *)
(* ===================================================================== *)

Section Wire.
Variable E : Env.

Lemma clientRequest_http m ep d tmo v w :
  httpRequests (trace (exec (OnlineApiService.clientRequest E m ep d tmo v) w))
  = httpRequests (trace w)
    ++ [{| method := m; url := (baseURL E ++ ep)%string; payload := d; timeout := tmo;
           authorization := OnlineApiService.bearer (authToken w) |}].
Proof.
  unfold exec, OnlineApiService.clientRequest, OnlineApiService.axiosSend, bind,
    getWorld, log, modify, tick, ret, throw, logout. simpl.
  destruct (OnlineApiService.settle v _) as [resp|e]; simpl;
    [|destruct (OnlineApiService.isAuthStatus e); simpl];
    rewrite httpRequests_app; reflexivity.
Qed.

Lemma http_of_guarded {A B} (m : M A) (k : A -> M B) (h : Thrown -> M B) w :
  (forall a, Keeps sameHttp (k a)) -> (forall e, Keeps sameHttp (h e)) ->
  httpRequests (trace (exec (tryCatch (bind m k) h) w))
  = httpRequests (trace (exec m w)).
Proof.
  intros Hk Hh. unfold exec, tryCatch, bind.
  destruct (m w) as [w1 [a|e]]; simpl.
  - pose proof (Hk a w1) as H1. unfold sameHttp, exec in H1.
    destruct (k a w1) as [w2 [b|e]]; simpl in *; [exact H1|].
    pose proof (Hh e w2) as H2. unfold sameHttp, exec in H2. congruence.
  - apply (Hh e w1).
Qed.

Lemma api_get_http ep w :
  httpRequests (trace (exec (OnlineApiService.get E ep) w))
  = httpRequests (trace w)
    ++ [{| method := GET; url := (baseURL E ++ ep)%string; payload := JUndefined;
           timeout := 10000; authorization := OnlineApiService.bearer (authToken w) |}].
Proof.
  unfold exec, OnlineApiService.get, OnlineApiService.axiosSend, bind,
    getWorld, log, modify, tick, ret, throw. simpl.
  destruct (OnlineApiService.settle _ _) as [resp|e]; simpl;
    rewrite httpRequests_app; reflexivity.
Qed.

Lemma api_mutation_http m ep d w :
  httpRequests
    (trace (exec (tryCatch
                    (resp <- OnlineApiService.clientRequest E m ep d 10000
                               OnlineApiService.successStatus ;; ret (body resp))
                    (fun error =>
                       throw (OnlineApiService.handleError
                                (OnlineApiService.asAxiosError error)))) w))
  = httpRequests (trace w)
    ++ [{| method := m; url := (baseURL E ++ ep)%string; payload := d; timeout := 10000;
           authorization := OnlineApiService.bearer (authToken w) |}].
Proof.
  rewrite http_of_guarded; [apply clientRequest_http | |]; intros; keeps_http.
Qed.

Lemma addToSyncQueue_sameHttp opT ep m d :
  Keeps sameHttp (OnlineFirstService.addToSyncQueue E opT ep m d).
Proof.
  unfold OnlineFirstService.addToSyncQueue, addToQueue, now, random36, modifyStore, log.
  destruct (nth_error _ 1); keeps_http.
Qed.

Lemma offlineAndQueue_sameHttp cmd args opT ep m d toast :
  Keeps sameHttp
    (res <- invoke E cmd args ;;
     OnlineFirstService.addToSyncQueue E opT ep m d ;;;
     log (EvToastSuccess toast) ;;;
     ret res)%monad.
Proof.
  apply (keeps_bind _ sameHttp_trans); [apply invoke_sameHttp | intros res].
  apply (keeps_bind _ sameHttp_trans); [apply addToSyncQueue_sameHttp | intros _].
  unfold log. keeps_http.
Qed.

Lemma isOnline_true_http w :
  result (OnlineFirstService.isOnline E) w = Ok true ->
  httpRequests (trace (exec (OnlineFirstService.isOnline E) w))
  = httpRequests (trace w) ++ [probeRequest E w] /\
  authToken (exec (OnlineFirstService.isOnline E) w) = authToken w.
Proof.
  intros H. destruct (navigatorOnLine E (clock w)) eqn:Hn.
  - unfold exec. rewrite (isOnline_navigator_on E w Hn). simpl.
    rewrite httpRequests_app. split; reflexivity.
  - unfold result in H. rewrite (isOnline_navigator_off E w Hn) in H. discriminate.
Qed.

Lemma router_http {A} (body : M A) w req :
  result (OnlineFirstService.isOnline E) w = Ok true ->
  (forall w1, authToken w1 = authToken w ->
              httpRequests (trace (exec body w1)) = httpRequests (trace w1) ++ [req]) ->
  forall offline : M A,
  httpRequests
    (trace (exec (online <- OnlineFirstService.isOnline E ;;
                  if online then body else offline)%monad w))
  = httpRequests (trace w) ++ [probeRequest E w; req].
Proof.
  intros Hon Hb offline.
  destruct (isOnline_true_http w Hon) as [Hp Ha].
  rewrite (proj1 (exec_bind_ok _ _ w true Hon)). cbv beta iota.
  rewrite (Hb _ Ha), Hp, <- app_assoc. reflexivity.
Qed.

Lemma router_create_http ep d cmd opT w :
  result (OnlineFirstService.isOnline E) w = Ok true ->
  httpRequests (trace (exec (OnlineFirstService.create E ep d cmd opT) w))
  = httpRequests (trace w) ++ [probeRequest E w; callRequest E w POST ep d].
Proof.
  intros Hon.
  unfold OnlineFirstService.create, OnlineFirstService.updateLocalData,
    OnlineFirstService.createOfflineAndQueue, callRequest.
  apply (router_http _ w _ Hon); intros w1 Ha; rewrite <- Ha.
  rewrite http_of_guarded; [apply api_mutation_http | intros; keeps_http |].
  intros e. destruct (OnlineApiService.isNetworkError e);
    [apply offlineAndQueue_sameHttp | keeps_http].
Qed.

Lemma router_update_http ep d cmd args opT w :
  result (OnlineFirstService.isOnline E) w = Ok true ->
  httpRequests (trace (exec (OnlineFirstService.update E ep d cmd args opT) w))
  = httpRequests (trace w) ++ [probeRequest E w; callRequest E w PUT ep d].
Proof.
  intros Hon.
  unfold OnlineFirstService.update, OnlineFirstService.updateLocalData,
    OnlineFirstService.updateOfflineAndQueue, callRequest.
  apply (router_http _ w _ Hon); intros w1 Ha; rewrite <- Ha.
  rewrite http_of_guarded; [apply api_mutation_http | intros; keeps_http |].
  intros e. destruct (OnlineApiService.isNetworkError e);
    [apply offlineAndQueue_sameHttp | keeps_http].
Qed.

Lemma router_delete_http ep cmd args opT w :
  result (OnlineFirstService.isOnline E) w = Ok true ->
  httpRequests (trace (exec (OnlineFirstService.delete E ep cmd args opT) w))
  = httpRequests (trace w) ++ [probeRequest E w; callRequest E w DELETE ep JUndefined].
Proof.
  intros Hon.
  unfold OnlineFirstService.delete, OnlineFirstService.deleteOfflineAndQueue, callRequest.
  apply (router_http _ w _ Hon); intros w1 Ha; rewrite <- Ha.
  rewrite http_of_guarded; [apply api_mutation_http | |].
  - intros res. apply (keeps_bind _ sameHttp_trans);
      [apply invoke_sameHttp | intros; keeps_http].
  - intros e. destruct (OnlineApiService.isNetworkError e);
      [apply offlineAndQueue_sameHttp | keeps_http].
Qed.

Lemma router_get_http ep cmd args w :
  result (OnlineFirstService.isOnline E) w = Ok true ->
  httpRequests (trace (exec (OnlineFirstService.get E ep cmd args) w))
  = httpRequests (trace w) ++ [probeRequest E w; callRequest E w GET ep JUndefined].
Proof.
  intros Hon.
  unfold OnlineFirstService.get, OnlineFirstService.updateLocalData, callRequest.
  apply (router_http _ w _ Hon); intros w1 Ha; rewrite <- Ha.
  rewrite http_of_guarded; [apply api_get_http | intros; keeps_http |].
  intros e. destruct (OnlineApiService.isNetworkError e);
    [apply invoke_sameHttp | keeps_http].
Qed.

End Wire.

(** X18.  What an online router call sends.  When the connectivity check
    answers true, a create, update, delete or read sends exactly two
    requests, whatever the server answers and whichever branch the call then
    takes: the probe of /auth/me, then one POST, PUT, DELETE or GET of the
    endpoint, with a 10000 ms timeout and the session's bearer token.
    Nothing is retried, and the fallback sends nothing. *)
Theorem online_call_sends_probe_then_one_request E w ep d cmd args opT :
  result (OnlineFirstService.isOnline E) w = Ok true ->
  let call m b := {| method := m; url := (baseURL E ++ ep)%string; payload := b;
                     timeout := 10000;
                     authorization := OnlineApiService.bearer (authToken w) |} in
  let sent (m : M JsValue) := httpRequests (trace (exec m w)) in
  sent (OnlineFirstService.create E ep d cmd opT)
  = httpRequests (trace w) ++ [probeRequest E w; call POST d] /\
  sent (OnlineFirstService.update E ep d cmd args opT)
  = httpRequests (trace w) ++ [probeRequest E w; call PUT d] /\
  sent (OnlineFirstService.delete E ep cmd args opT)
  = httpRequests (trace w) ++ [probeRequest E w; call DELETE JUndefined] /\
  sent (OnlineFirstService.get E ep cmd args)
  = httpRequests (trace w) ++ [probeRequest E w; call GET JUndefined].
Proof.
  intros Hon call sent. unfold sent, call.
  pose proof (router_create_http E ep d cmd opT w Hon) as Hc.
  pose proof (router_update_http E ep d cmd args opT w Hon) as Hu.
  pose proof (router_delete_http E ep cmd args opT w Hon) as Hd.
  pose proof (router_get_http E ep cmd args w Hon) as Hg.
  unfold callRequest in Hc, Hu, Hd, Hg.
  repeat split; assumption.
Qed.

Lemma online_call_sends_probe_then_one_request_witness :
  let E := envThen 1 (Responded 200 JNull) (Failed None "Network Error") (LocalOk (JNum 9)) in
  map (fun r => (method r, url r))
    (httpRequests (trace (exec (OnlineFirstService.create E "/inventory/products" milk
                                  "create_product" "product_create") (emptyWorld true))))
  = [(GET, (baseURL E ++ "/auth/me")%string);
     (POST, (baseURL E ++ "/inventory/products")%string)].
Proof.
  cbv zeta.
  rewrite (proj1 (online_call_sends_probe_then_one_request
                    (envThen 1 (Responded 200 JNull) (Failed None "Network Error")
                       (LocalOk (JNum 9)))
                    (emptyWorld true) "/inventory/products" milk "create_product"
                    JUndefined "product_create" eq_refl)).
  reflexivity.
Defined.

Lemma exec_bind_ret {A B} (m : M A) (b : B) w : exec (bind m (fun _ => ret b)) w = exec m w.
Proof. unfold exec, bind, ret. destruct (m w) as [w1 [a|e]]; reflexivity. Qed.

Lemma exec_ret_bind {A B} (a : A) (k : A -> M B) w : exec (bind (ret a) k) w = exec (k a) w.
Proof. reflexivity. Qed.

Lemma wrapper_has_no_id ep meth pl :
  prop (OnlineFirstService.queuedData ep meth pl) "id" = ret JUndefined.
Proof. reflexivity. Qed.

(** X19.  What the replay of a router-queued operation sends.  The router
    queues the wrapper [{endpoint, method, payload}] as the operation's
    [data], and the replay hands that wrapper to the entity service as if
    it were the entity.  So, for a product or a supplier and with the remote
    reachable, the replay of a CREATE posts the wrapper (not the payload) to
    the collection, and the replay of an UPDATE or a DELETE, reading the
    wrapper's missing [id], addresses the item named undefined. *)
Theorem replay_of_router_queued_operation E w op ep meth pl :
  entity op = "product"%string \/ entity op = "supplier"%string ->
  data op = OnlineFirstService.queuedData ep meth pl ->
  result (OnlineFirstService.isOnline E) (emit (EvReplay (id op)) w) = Ok true ->
  let collection := (if (entity op =? "product")%string
                     then "/inventory/products" else "/inventory/suppliers")%string in
  let sent := httpRequests (trace (exec (SyncService.processOperation E op) w)) in
  (type op = "CREATE"%string ->
   sent = httpRequests (trace w)
          ++ [probeRequest E w; callRequest E w POST collection (data op)]) /\
  (type op = "UPDATE"%string ->
   sent = httpRequests (trace w)
          ++ [probeRequest E w;
              callRequest E w PUT (collection ++ "/undefined")%string (data op)]) /\
  (type op = "DELETE"%string ->
   sent = httpRequests (trace w)
          ++ [probeRequest E w;
              callRequest E w DELETE (collection ++ "/undefined")%string JUndefined]).
Proof.
  intros He Hd Hon collection sent.
  set (w0 := emit (EvReplay (id op)) w) in *.
  assert (H0 : httpRequests (trace w0) = httpRequests (trace w)).
  { unfold w0. simpl. rewrite httpRequests_app. apply app_nil_r. }
  assert (Hrun : exec (SyncService.processOperation E op) w
                 = exec (SyncService.dispatch E op) w0) by reflexivity.
  unfold sent, collection. rewrite Hrun.
  pose proof (router_create_http E) as Hc.
  pose proof (router_update_http E) as Hu.
  pose proof (router_delete_http E) as Hx.
  unfold SyncService.dispatch.
  destruct He as [He|He]; rewrite He, Hd; simpl;
    (split; [|split]); intros Ht; rewrite Ht; simpl;
    unfold SyncService.syncProduct, SyncService.syncSupplier; simpl;
    unfold InventoryService.createProduct, InventoryService.updateProduct,
      InventoryService.deleteProduct, InventoryService.createSupplier,
      InventoryService.updateSupplier, InventoryService.deleteSupplier,
      OnlineFirstService.products_create, OnlineFirstService.products_update,
      OnlineFirstService.products_delete, OnlineFirstService.suppliers_create,
      OnlineFirstService.suppliers_update, OnlineFirstService.suppliers_delete;
    rewrite ?wrapper_has_no_id, ?exec_ret_bind, ?exec_bind_ret;
    first [ rewrite (Hc _ _ _ _ w0 Hon) | rewrite (Hu _ _ _ _ _ w0 Hon)
          | rewrite (Hx _ _ _ _ w0 Hon) ];
    rewrite H0; reflexivity.
Qed.

Lemma replay_of_router_queued_operation_witness :
  let E := envServer (Responded 404 JNull) in
  let op := queuedAt E (emptyWorld true) "product_update" "/inventory/products/7" "PUT"
              milk "update" in
  map (fun r => (method r, url r))
    (httpRequests (trace (exec (SyncService.processOperation E op) (worldWith [op]))))
  = [(GET, (baseURL E ++ "/auth/me")%string);
     (PUT, (baseURL E ++ "/inventory/products/undefined")%string)].
Proof.
  cbv zeta.
  rewrite (proj1 (proj2 (replay_of_router_queued_operation
                           (envServer (Responded 404 JNull)) (worldWith [_])
                           (queuedAt (envServer (Responded 404 JNull)) (emptyWorld true)
                              "product_update" "/inventory/products/7" "PUT" milk "update")
                           "/inventory/products/7" "PUT" milk
                           (or_introl eq_refl) eq_refl eq_refl)) eq_refl).
  reflexivity.
Defined.

Lemma api_post_http E ep d w :
  httpRequests (trace (exec (OnlineApiService.post E ep d) w))
  = httpRequests (trace w) ++ [callRequest E w POST ep d].
Proof. apply api_mutation_http. Qed.

(** X20.  The replay of an order creation is not atomic.  It creates the
    order and then completes it; when the server accepts the creation and
    the completion step then throws, the replay throws, so the pass logs the
    operation as failed and keeps it, its retry count raised by one, for
    the next pass, although the order already exists remotely. *)
Theorem order_replay_is_not_atomic E w op order e :
  entity op = "order"%string -> type op = "CREATE"%string ->
  let w0 := emit (EvReplay (id op)) w in
  let w1 := exec (OnlineFirstService.isOnline E) w0 in
  let w2 := exec (OnlineApiService.post E "/sales/orders" (data op)) w1 in
  result (OnlineFirstService.isOnline E) w0 = Ok true ->
  result (OnlineApiService.post E "/sales/orders" (data op)) w1 = Ok (JObj order) ->
  result (PosService.completeOrder E
            (match lookupField "id" order with Some x => x | None => JUndefined end)) w2
  = Throw e ->
  In op (syncQueue (store w)) -> (retryCount op < maxRetries op)%Z ->
  let w' := exec (SyncService.syncOne E op) w in
  In (callRequest E w POST "/sales/orders" (data op)) (httpRequests (trace w')) /\
  In (bumpRetry op) (syncQueue (store w')) /\
  logsSince w w' = [LogFailed (id op)].
Proof.
  intros He Ht w0 w1 w2 Hon Hpost Hcomplete Hin Hlt w'.
  set (i := match lookupField "id" order with Some x => x | None => JUndefined end) in *.
  assert (Hrun : SyncService.processOperation E op w
                 = (exec (PosService.completeOrder E i) w2, Throw e)).
  { unfold SyncService.processOperation, SyncService.dispatch. rewrite He, Ht. simpl.
    unfold bind at 1, log, modify. simpl. fold w0.
    unfold SyncService.syncOrder. simpl.
    unfold PosService.createOrder, OnlineFirstService.orders_create.
    unfold bind at 1. unfold bind at 1.
    rewrite (router_create_success E _ _ _ _ w0 _ Hon Hpost). fold w1. fold w2.
    unfold ret at 1. cbv iota beta.
    unfold bind at 1, prop, getProp. fold i. unfold ret at 1. cbv iota beta.
    unfold bind, result, exec in *.
    destruct (PosService.completeOrder E i w2) as [w3 o]. simpl in *.
    subst o. reflexivity. }
  assert (Hth : threw E op w = true) by (unfold threw, result; rewrite Hrun; reflexivity).
  assert (Hex : exhausted op = false) by (unfold exhausted; apply Z.leb_gt; exact Hlt).
  split; [|split].
  - destruct (syncOne_exec E op w) as (_ & _ & Htr & _). fold w' in Htr.
    rewrite Htr. unfold exec at 1. rewrite Hrun. cbn [fst].
    destruct (frame_router_create E
                ("/sales/orders/" ++ toStr i ++ "/complete")%string (JObj [])
                "complete_order" "order_complete" w2) as [_ _ _ _ (evs & Hevs & _)].
    unfold PosService.completeOrder, OnlineFirstService.orders_complete.
    rewrite Hevs, !httpRequests_app.
    apply in_or_app. left. apply in_or_app. left.
    unfold w2. rewrite api_post_http. apply in_or_app. right. left.
    destruct (isOnline_true_http E w0 Hon) as [_ Ha]. fold w1 in Ha.
    unfold callRequest. rewrite Ha. reflexivity.
  - destruct (syncOne_step E op w) as ((added & ts & Hq & _) & _). fold w' in Hq.
    rewrite Hq, Hth. unfold verdictQueue. rewrite Hex. unfold withRetryBumped.
    apply in_map_iff. exists op. rewrite String.eqb_refl.
    split; [reflexivity | apply in_or_app; left; exact Hin].
  - unfold w'. rewrite logsSince_syncOne, Hth. unfold verdictLogs. rewrite Hex. reflexivity.
Qed.

Lemma order_replay_is_not_atomic_witness :
  let w' := exec (SyncService.syncOne envOrders orderCreate) (worldWith [orderCreate]) in
  In (callRequest envOrders (worldWith [orderCreate]) POST "/sales/orders" (data orderCreate))
     (httpRequests (trace w')) /\
  In (bumpRetry orderCreate) (syncQueue (store w')) /\
  logsSince (worldWith [orderCreate]) w' = [LogFailed (id orderCreate)].
Proof.
  refine (order_replay_is_not_atomic envOrders (worldWith [orderCreate]) orderCreate
            [("id"%string, JNum 5)]
            (ApiError 400 "Request failed with status code 400") eq_refl eq_refl
            eq_refl eq_refl _ (or_introl eq_refl) _).
  - vm_compute. reflexivity.
  - reflexivity.
Defined.
